(** * Chemical JSON codec of avogadrolibs: [CjsonFormat::read] and
    [CjsonFormat::write] (avogadro/io/cjsonformat.cpp).

    The decoder walks a parsed JSON document and mutates a molecule; the
    encoder builds a JSON document from a molecule.  Both are embedded here
    as functions over an explicit decoder state (molecule and error log).
    [Real] is [double], modelled by the kernel's binary64 floats.

    The JSON library is not part of the sources.  What the codec asks of it
    and the sources do not settle is a parameter: what [isObject()] and
    [isArray()] answer on null ([Json.Library]), and the reader and the
    writer that turn a stream into a document and back ([parse], [print]). *)

From Stdlib Require Import ZArith Uint63 Floats.
From stdpp Require Import base option list strings gmap.

Open Scope Z_scope.

(** The double-quote character, for messages that quote a key. *)
Definition dq : string := String (Ascii.ascii_of_nat 34) EmptyString.

(** [s.c_str()] taken as a C string: the characters before the first NUL. *)
Fixpoint c_str (s : string) : string :=
  match s with
  | EmptyString => EmptyString
  | String ch rest =>
      if Ascii.eqb ch (Ascii.ascii_of_nat 0) then EmptyString else String ch (c_str rest)
  end.

(** ** Conversions between machine integers and doubles *)

(** [static_cast<unsigned char>(int)]. *)
Definition to_uchar (z : Z) : Z := z mod 256.

(** [static_cast<Index>(int)], with [Index] a 64-bit [size_t]. *)
Definition to_Index (z : Z) : Z := z mod 2 ^ 64.

(** [static_cast<Value::UInt>(Index)], with [UInt] a 32-bit unsigned. *)
Definition to_UInt (z : Z) : Z := z mod 2 ^ 32.

(** [static_cast<double>] of an integer below 2^64 in magnitude: the high and
    low 32-bit halves are exact doubles, their sum is rounded once. *)
Definition double_of_Z (z : Z) : float :=
  let n := Z.abs z in
  let hi := of_uint63 (Uint63.of_Z (n / 2 ^ 32)) in
  let lo := of_uint63 (Uint63.of_Z (n mod 2 ^ 32)) in
  let mag := (hi * 0x1p+32 + lo)%float in
  if z <? 0 then (- mag)%float else mag.

(** [Int(double)]: truncation toward zero of a finite double. *)
Definition Z_of_double (r : float) : Z :=
  let '(m, e) := frshiftexp (abs r) in
  let mant := Uint63.to_Z (normfr_mantissa m) in
  let ex := Uint63.to_Z e - FloatOps.shift - 53 in
  let mag := if 0 <=? ex then Z.shiftl mant ex else Z.shiftr mant (- ex) in
  if (r <? 0)%float then - mag else mag.

(** ** The JSON document tree *)

Module Json.

(** Modelled from the spec: the document is an "untyped tree of
    objects/arrays/scalars" handled by the jsoncpp library, which is not
    part of the sources.  The constructors are the library's type tags; an
    object is its member list, looked up by key, an array its elements. *)
#[warnings="-register-all"]
Inductive Value : Type :=
| nullValue
| intValue (i : Z)
| uintValue (u : Z)
| realValue (r : float)
| stringValue (s : string)
| booleanValue (b : bool)
| arrayValue (elems : list Value)
| objectValue (members : list (string * Value)).

Definition minInt : Z := - 2 ^ 31.
Definition maxInt : Z := 2 ^ 31 - 1.

(** [v.type() == objectValue] and [v.type() == arrayValue]: the type tag of
    [v] is the one of objects, of arrays. *)
Definition isObjectValue (v : Value) : bool :=
  match v with objectValue _ => true | _ => false end.

Definition isArrayValue (v : Value) : bool :=
  match v with arrayValue _ => true | _ => false end.

(** Modelled from the spec: "Document must be a JSON object", "if an array":
    [isObject()] holds of an object and [isArray()] of an array, and neither
    holds of a scalar.  What they answer on null, which is also what an absent
    member reads as, the spec does not say, and the sources tell the two kinds
    of test apart: they compare [type()] at lines 85, 112, 122 and 174, and
    call [isObject()] at line 65 and [isArray()] at lines 134, 147, 161, 208
    and 221.  A [Library] carries the two answers: in a release of the library
    where null passes for an empty object and an empty array both are true,
    in one where it does not both are false. *)
Record Library := mkLibrary { nullIsObject : bool; nullIsArray : bool }.

Definition isObject (lib : Library) (v : Value) : bool :=
  match v with nullValue => nullIsObject lib | _ => isObjectValue v end.

Definition isArray (lib : Library) (v : Value) : bool :=
  match v with nullValue => nullIsArray lib | _ => isArrayValue v end.

(** The library whose two tests hold of objects and arrays only, and the one
    whose tests hold of null as well. *)
Definition strict : Library := mkLibrary false false.
Definition lenient : Library := mkLibrary true true.

(** Modelled from the spec: "of string type". *)
Definition isString (v : Value) : bool :=
  match v with stringValue _ => true | _ => false end.

(** Modelled from the spec: "present and numeric"; integers, reals and, as
    in the library, booleans count as numeric. *)
Definition isNumeric (v : Value) : bool :=
  match v with
  | intValue _ | uintValue _ | realValue _ | booleanValue _ => true
  | _ => false
  end.

(** Number of elements of an array, of members of an object, else 0. *)
Definition size (v : Value) : nat :=
  match v with
  | arrayValue l => length l
  | objectValue ms => length ms
  | _ => 0%nat
  end.

(** Modelled from the spec: the "empty-check doubling as presence-check":
    null, an empty array and an empty object are empty, nothing else is. *)
Definition empty (v : Value) : bool :=
  match v with
  | nullValue | arrayValue _ | objectValue _ => Nat.eqb (size v) 0
  | _ => false
  end.

Fixpoint find (key : string) (ms : list (string * Value)) : option Value :=
  match ms with
  | [] => None
  | (k, v) :: rest => if String.eqb k key then Some v else find key rest
  end.

(** [hasKey v key]: [v] is an object with a member called [key]. *)
Definition hasKey (v : Value) (key : string) : bool :=
  match v with
  | objectValue ms => bool_decide (is_Some (find key ms))
  | _ => false
  end.

(** [v[key]] read from an object: a missing member reads as null.  On a
    value that is neither null nor an object the library raises, which is
    [None] here. *)
Definition member (v : Value) (key : string) : option Value :=
  match v with
  | nullValue => Some nullValue
  | objectValue ms => Some (default nullValue (find key ms))
  | _ => None
  end.

(** [v.get(index, defaultValue)] on an array. *)
Definition get (v : Value) (index : nat) (defaultValue : Value) : Value :=
  match v with
  | arrayValue l => default defaultValue (l !! index)
  | _ => defaultValue
  end.

(** [asInt]: raises ([None]) on strings, arrays, objects and on numbers
    outside the 32-bit signed range. *)
Definition asInt (v : Value) : option Z :=
  match v with
  | nullValue => Some 0
  | intValue i => if (minInt <=? i) && (i <=? maxInt) then Some i else None
  | uintValue u => if u <=? maxInt then Some u else None
  | realValue r =>
      if ((double_of_Z minInt <=? r) && (r <=? double_of_Z maxInt))%float
      then Some (Z_of_double r) else None
  | booleanValue b => Some (if b then 1 else 0)
  | _ => None
  end.

(** [asDouble]: raises ([None]) on strings, arrays and objects. *)
Definition asDouble (v : Value) : option float :=
  match v with
  | nullValue => Some 0%float
  | intValue i => Some (double_of_Z i)
  | uintValue u => Some (double_of_Z u)
  | realValue r => Some r
  | booleanValue b => Some (if b then 1%float else 0%float)
  | _ => None
  end.

(** [asString], used under an [isString] guard only. *)
Definition asString (v : Value) : string :=
  match v with stringValue s => s | _ => EmptyString end.

Fixpoint replace (key : string) (x : Value) (ms : list (string * Value))
  : list (string * Value) :=
  match ms with
  | [] => [(key, x)]
  | (k, v) :: rest =>
      if String.eqb k key then (k, x) :: rest else (k, v) :: replace key x rest
  end.

(** [v[key] = x]: null becomes an object; a member is replaced or added. *)
Definition set (v : Value) (key : string) (x : Value) : Value :=
  match v with
  | nullValue => objectValue [(key, x)]
  | objectValue ms => objectValue (replace key x ms)
  | _ => v
  end.

(** The member [v[key]] as the encoder addresses it when it assigns through
    a path, [root[k1][k2][k3] = x]. *)
Definition at_ (v : Value) (key : string) : Value :=
  default nullValue (member v key).

Definition set2 (v : Value) (k1 k2 : string) (x : Value) : Value :=
  set v k1 (set (at_ v k1) k2 x).

Definition set3 (v : Value) (k1 k2 k3 : string) (x : Value) : Value :=
  set v k1 (set2 (at_ v k1) k2 k3 x).

End Json.

(** ** The molecule model *)

Module Core.

Record Vector3 := mkVector3 { x3 : float; y3 : float; z3 : float }.
Record Vector2 := mkVector2 { x2 : float; y2 : float }.

(** Cell lengths and angles; the angles are in radians. *)
Module UnitCell.
Record t := make {
  a : float; b : float; c : float;
  alpha : float; beta : float; gamma : float }.
End UnitCell.

Inductive ScfType := Rhf | Uhf | Rohf | Unknown.

(** A basis set is a Gaussian set or some other kind. *)
Inductive BasisSet :=
| GaussianSet (scfType : ScfType)
| OtherSet.

(** The metadata values; only the string case is read by the codec. *)
Inductive Variant :=
| VNull
| VBool (v : bool)
| VInt (v : Z)
| VDouble (v : float)
| VString (v : string).

Definition isVString (v : Variant) : bool :=
  match v with VString _ => true | _ => false end.

Definition toString (v : Variant) : string :=
  match v with VString s => s | _ => EmptyString end.

Record Atom := mkAtom {
  atomicNumber : Z;
  position3d : option Vector3;
  position2d : option Vector2 }.

Record Bond := mkBond { atom1 : Z; atom2 : Z; order : Z }.

(** Modelled from the spec: the molecule "holds an ordered sequence of atoms
    (index, atomic number, optional 3D and/or 2D position), an ordered
    sequence of bonds (reference to two atom indices, integer order), an
    optional owned unit cell, an optional basis-set descriptor, and a
    string-keyed metadata map"; its class is not part of the sources. *)
Record Molecule := mkMolecule {
  atoms : list Atom;
  bonds : list Bond;
  unitCell : option UnitCell.t;
  basisSet : option BasisSet;
  data : gmap string Variant }.

Definition emptyMolecule : Molecule :=
  mkMolecule [] [] None None ∅.

Definition atomCount (m : Molecule) : nat := length (atoms m).
Definition bondCount (m : Molecule) : nat := length (bonds m).

(** The 3D (2D) positions that are set, in atom order: as long as the atom
    list exactly when every atom has one. *)
Definition atomPositions3d (m : Molecule) : list Vector3 :=
  omap position3d (atoms m).
Definition atomPositions2d (m : Molecule) : list Vector2 :=
  omap position2d (atoms m).

(** Modelled from the spec: "set-metadata(key,value)". *)
Definition setData (key : string) (v : Variant) (m : Molecule) : Molecule :=
  mkMolecule (atoms m) (bonds m) (unitCell m) (basisSet m) (<[key := v]> (data m)).

(** [molecule.data(key)]: a missing key reads as the null variant. *)
Definition getData (m : Molecule) (key : string) : Variant :=
  default VNull (data m !! key).

(** Modelled from the spec: "attach-unit-cell". *)
Definition setUnitCell (u : UnitCell.t) (m : Molecule) : Molecule :=
  mkMolecule (atoms m) (bonds m) (Some u) (basisSet m) (data m).

(** Modelled from the spec: "append-atom(atomic-number)"; a new atom has no
    position. *)
Definition addAtom (number : Z) (m : Molecule) : Molecule :=
  mkMolecule (atoms m ++ [mkAtom number None None])
             (bonds m) (unitCell m) (basisSet m) (data m).

Definition withPosition3d (p : Vector3) (at0 : Atom) : Atom :=
  mkAtom (atomicNumber at0) (Some p) (position2d at0).
Definition withPosition2d (p : Vector2) (at0 : Atom) : Atom :=
  mkAtom (atomicNumber at0) (position3d at0) (Some p).

(** Modelled from the spec: "set-atom-position-3d/2d(atom handle, vector)",
    the handle being [molecule.atom(i)]. *)
Definition setPosition3d (i : nat) (p : Vector3) (m : Molecule) : Molecule :=
  mkMolecule (alter (withPosition3d p) i (atoms m))
             (bonds m) (unitCell m) (basisSet m) (data m).
Definition setPosition2d (i : nat) (p : Vector2) (m : Molecule) : Molecule :=
  mkMolecule (alter (withPosition2d p) i (atoms m))
             (bonds m) (unitCell m) (basisSet m) (data m).

(** Modelled from the spec: "append-bond(atom-index, atom-index)" with the
    "default order 1"; the two handles are [molecule.atom(i)] and
    [molecule.atom(j)], built from the indices as they are. *)
Definition addBond (i j : Z) (m : Molecule) : Molecule :=
  mkMolecule (atoms m) (bonds m ++ [mkBond i j 1])
             (unitCell m) (basisSet m) (data m).

Definition withOrder (o : Z) (bd : Bond) : Bond :=
  mkBond (atom1 bd) (atom2 bd) o.

(** Modelled from the spec: "set-bond-order(bond handle, integer)", the
    handle being [molecule.bond(i)]. *)
Definition setOrder (i : nat) (o : Z) (m : Molecule) : Molecule :=
  mkMolecule (atoms m) (alter (withOrder o) i (bonds m))
             (unitCell m) (basisSet m) (data m).

(** Modelled from the spec: "Conversion factor is exact (π/180) both
    directions"; the constants [DEG_TO_RAD] and [RAD_TO_DEG] are declared
    outside the sources.  [PI] is the double nearest to π. *)
Definition PI : float := 0x1.921fb54442d18p+1%float.
Definition DEG_TO_RAD : float := (PI / 180)%float.
Definition RAD_TO_DEG : float := (180 / PI)%float.

End Core.

Import Core.

(** ** The decoder state and its control flow *)

(** What [read] works on: the molecule it fills and the error log that
    [appendError] extends. *)
Record State := mkState { molecule : Molecule; errors : list string }.

(** A statement either falls through to the next one, returns from [read]
    with a status, or is left by an exception of the JSON library. *)
Inductive Outcome (A : Type) : Type :=
| Next (result : A) (s : State)
| Return (status : bool) (s : State)
| Raise (s : State).
Arguments Next {A} result s.
Arguments Return {A} status s.
Arguments Raise {A} s.

Definition Stmt (A : Type) : Type := State -> Outcome A.

Definition next {A} (x : A) : Stmt A := fun s => Next x s.
Definition return_ {A} (status : bool) : Stmt A := fun s => Return status s.
Definition raise {A} : Stmt A := fun s => Raise s.

Definition bind {A B} (m : Stmt A) (k : A -> Stmt B) : Stmt B :=
  fun s =>
    match m s with
    | Next x s' => k x s'
    | Return status s' => Return status s'
    | Raise s' => Raise s'
    end.

Notation "'do' x <- m ; k" := (bind m (fun x => k))
  (at level 10, x name, m at level 100, k at level 200,
   format "'[v' 'do'  x  <-  m ; '/' k ']'").
Notation "'run' m ; k" := (bind m (fun _ => k))
  (at level 10, m at level 100, k at level 200,
   format "'[v' 'run'  m ; '/' k ']'").

(** A library call that may raise. *)
Definition call {A} (o : option A) : Stmt A :=
  match o with Some x => next x | None => raise end.

(** Modelled from the spec: "append-error(message) accumulates into a
    caller-visible ordered sequence of strings". *)
Definition appendError (msg : string) : Stmt unit :=
  fun s => Next tt (mkState (molecule s) (errors s ++ [msg])).

(** A call that mutates the molecule. *)
Definition update (f : Molecule -> Molecule) : Stmt unit :=
  fun s => Next tt (mkState (f (molecule s)) (errors s)).

(** [for (Index i = 0; i < n; ++i) body(i)], from index [i]. *)
Fixpoint forFrom (i n : nat) (body : nat -> Stmt unit) : Stmt unit :=
  match n with
  | O => next tt
  | S n' => run body i; forFrom (S i) n' body
  end.

Definition for_ (n : nat) (body : nat -> Stmt unit) : Stmt unit :=
  forFrom 0 n body.

(** The values a loop computes for the indices [i .. i+n-1], in order. *)
Fixpoint collectFrom {A} (i n : nat) (f : nat -> option A) : option (list A) :=
  match n with
  | O => Some []
  | S n' =>
      match f i with
      | Some v => option_map (cons v) (collectFrom (S i) n' f)
      | None => None
      end
  end.

(** ** [CjsonFormat] *)

Section CjsonFormat.

(** The JSON library the codec is built with: what its [isObject()] and
    [isArray()] answer on null. *)
Variable lib : Json.Library.

(** The stream that [read] and [write] are handed holds text, which the
    library's reader and writer turn into a document and back: [parse] is
    [Reader::parse] with [getFormatedErrorMessages] (the document, or the
    messages when the text is not JSON), [print] is
    [StyledStreamWriter::write].  Both are declared outside the sources and
    are parameters of the codec, as is what a stream holds. *)
Variable Stream : Type.
Variable parse : Stream -> Json.Value + string.
Variable print : Json.Value -> Stream.

(** The Coordinate Transformer of [CrystalTools] and [UnitCell] is declared
    outside the sources: the two maps between Cartesian and fractional
    coordinates of a cell are parameters of the codec. *)
Variable toCartesian : UnitCell.t -> Vector3 -> Vector3.
Variable toFractional : UnitCell.t -> Vector3 -> Vector3.

Fixpoint setPositionsFrom (i : nat) (ps : list Vector3) (m : Molecule) : Molecule :=
  match ps with
  | [] => m
  | p :: rest => setPositionsFrom (S i) rest (setPosition3d i p m)
  end.

(** Modelled from the spec: "Fractional coordinates are converted to Cartesian
    via the Coordinate Transformer and then stored on each atom"
    ([CrystalTools::setFractionalCoordinates]). *)
Definition setFractionalCoordinates (fcoords : list Vector3) (m : Molecule) : Molecule :=
  match unitCell m with
  | Some cell => setPositionsFrom 0 (map (toCartesian cell) fcoords) m
  | None => m
  end.

(** Modelled from the spec: the Cartesian to fractional direction of the
    Coordinate Transformer over an array ([CrystalTools::fractionalCoordinates]). *)
Definition fractionalCoordinates (cell : UnitCell.t) (cart : list Vector3) : list Vector3 :=
  map (toFractional cell) cart.

(** *** [CjsonFormat::read]

    [readStream] is the whole of it, from the stream; [read] is what it does
    with the parsed document [root], from line 65 on. *)

(** Lines 65-74: the document is an object and carries the format marker. *)
Definition readRoot (root : Json.Value) : Stmt unit :=
  if negb (Json.isObject lib root) then
    run appendError "Error: Input is not a JSON object."; return_ false
  else
    do value <- call (Json.member root "chemical json");
    if Json.empty value then
      run appendError ("Error: no " +:+ dq +:+ "chemical json" +:+ dq +:+ " key found.");
      return_ false
    else next tt.

(** Lines 77-82: name and inchi. *)
Definition readMetadata (root : Json.Value) : Stmt unit :=
  do value <- call (Json.member root "name");
  run (if negb (Json.empty value) && Json.isString value
       then update (setData "name" (VString (Json.asString value)))
       else next tt);
  do value <- call (Json.member root "inchi");
  if negb (Json.empty value) && Json.isString value
  then update (setData "inchi" (VString (Json.asString value)))
  else next tt.

(** Lines 84-104: the unit cell. *)
Definition readUnitCell (root : Json.Value) : Stmt unit :=
  do value <- call (Json.member root "unit cell");
  if Json.isObjectValue value then
    do va <- call (Json.member value "a");
    do vb <- call (Json.member value "b");
    do vc <- call (Json.member value "c");
    do valpha <- call (Json.member value "alpha");
    do vbeta <- call (Json.member value "beta");
    do vgamma <- call (Json.member value "gamma");
    if negb (Json.isNumeric va) || negb (Json.isNumeric vb) ||
       negb (Json.isNumeric vc) || negb (Json.isNumeric valpha) ||
       negb (Json.isNumeric vbeta) || negb (Json.isNumeric vgamma)
    then
      run appendError ("Invalid unit cell specification: a, b, c, alpha, beta, gamma"
                       +:+ " must be present and numeric.");
      return_ false
    else
      do a <- call (Json.asDouble va);
      do b <- call (Json.asDouble vb);
      do c <- call (Json.asDouble vc);
      do alpha <- call (Json.asDouble valpha);
      do beta <- call (Json.asDouble vbeta);
      do gamma <- call (Json.asDouble vgamma);
      update (setUnitCell (UnitCell.make a b c
                             (alpha * DEG_TO_RAD)%float
                             (beta * DEG_TO_RAD)%float
                             (gamma * DEG_TO_RAD)%float))
  else next tt.

(** Lines 107-142: the atoms; yields [atoms] and [atomCount]. *)
Definition readAtoms (root : Json.Value) : Stmt (Json.Value * nat) :=
  do atoms <- call (Json.member root "atoms");
  if Json.empty atoms then
    run appendError ("Error: no " +:+ dq +:+ "atom" +:+ dq +:+ " key found");
    return_ false
  else if negb (Json.isObjectValue atoms) then
    run appendError ("Error: " +:+ dq +:+ "atom" +:+ dq +:+ " is not of type object");
    return_ false
  else
    do value <- call (Json.member atoms "elements");
    if Json.empty value then
      run appendError ("Error: no " +:+ dq +:+ "atoms.elements" +:+ dq +:+ " key found");
      return_ false
    else if negb (Json.isObjectValue value) then
      run appendError ("Error: " +:+ dq +:+ "atoms.elements" +:+ dq
                       +:+ " is not of type object");
      return_ false
    else
      do value <- call (Json.member value "number");
      if Json.empty value then
        run appendError ("Error: no " +:+ dq +:+ "atoms.elements.number" +:+ dq
                         +:+ " key found");
        return_ false
      else if Json.isArray lib value then
        let atomCount := Json.size value in
        run for_ atomCount (fun i =>
              do n <- call (Json.asInt (Json.get value i (Json.intValue 0)));
              update (addAtom (to_uchar n)));
        next (atoms, atomCount)
      else
        run appendError ("Error: " +:+ dq +:+ "atoms.elements.number" +:+ dq
                         +:+ " is not of type array");
        return_ false.

(** Lines 146-158: Cartesian 3D coordinates. *)
Definition readCoords3d (coords : Json.Value) (atomCount : nat) : Stmt unit :=
  do value <- call (Json.member coords "3d");
  if Json.isArray lib value then
    if negb (Json.size value =? 0)%nat && negb (atomCount =? Json.size value / 3)%nat then
      run appendError "Error: number of elements != number of 3D coordinates.";
      return_ false
    else
      for_ atomCount (fun i =>
        do x <- call (Json.asDouble (Json.get value (3 * i + 0) (Json.intValue 0)));
        do y <- call (Json.asDouble (Json.get value (3 * i + 1) (Json.intValue 0)));
        do z <- call (Json.asDouble (Json.get value (3 * i + 2) (Json.intValue 0)));
        update (setPosition3d i (mkVector3 x y z)))
  else next tt.

(** Lines 160-171: 2D coordinates. *)
Definition readCoords2d (coords : Json.Value) (atomCount : nat) : Stmt unit :=
  do value <- call (Json.member coords "2d");
  if Json.isArray lib value then
    if negb (Json.size value =? 0)%nat && negb (atomCount =? Json.size value / 2)%nat then
      run appendError "Error: number of elements != number of 2D coordinates.";
      return_ false
    else
      for_ atomCount (fun i =>
        do x <- call (Json.asDouble (Json.get value (2 * i + 0) (Json.intValue 0)));
        do y <- call (Json.asDouble (Json.get value (2 * i + 1) (Json.intValue 0)));
        update (setPosition2d i (mkVector2 x y)))
  else next tt.

(** The vector the fractional loop pushes for atom [i]. *)
Definition fractionalAt (value : Json.Value) (i : nat) : option Vector3 :=
  x ← Json.asDouble (Json.get value (i * 3 + 0) (Json.intValue 0));
  y ← Json.asDouble (Json.get value (i * 3 + 1) (Json.intValue 0));
  z ← Json.asDouble (Json.get value (i * 3 + 2) (Json.intValue 0));
  Some (mkVector3 x y z).

(** Lines 173-194: fractional coordinates. *)
Definition readCoordsFractional (coords : Json.Value) (atomCount : nat) : Stmt unit :=
  do value <- call (Json.member coords "3d fractional");
  if Json.isArrayValue value then
    fun s =>
      match unitCell (molecule s) with
      | None =>
          (run appendError ("Cannot interpret fractional coordinates without "
                            +:+ "unit cell.");
           return_ false) s
      | Some _ =>
          (if negb (Json.size value =? 0)%nat && negb (atomCount =? Json.size value / 3)%nat
           then
             run appendError ("Error: number of elements != number of fractional "
                              +:+ "coordinates.");
             return_ false
           else
             do fcoords <- call (collectFrom 0 atomCount (fractionalAt value));
             update (setFractionalCoordinates fcoords)) s
      end
  else next tt.

(** Lines 144-195. *)
Definition readCoords (atoms : Json.Value) (atomCount : nat) : Stmt unit :=
  do coords <- call (Json.member atoms "coords");
  if negb (Json.empty coords) then
    run readCoords3d coords atomCount;
    run readCoords2d coords atomCount;
    readCoordsFractional coords atomCount
  else next tt.

(** Lines 206-218: the bonded pairs; yields [bondCount]. *)
Definition readConnections (value : Json.Value) : Stmt nat :=
  if Json.isArray lib value then
    let bondCount := (Json.size value / 2)%nat in
    run for_ bondCount (fun k =>
          let i := (2 * k)%nat in
          do i1 <- call (Json.asInt (Json.get value (i + 0) (Json.intValue 0)));
          do i2 <- call (Json.asInt (Json.get value (i + 1) (Json.intValue 0)));
          update (addBond (to_Index i1) (to_Index i2)));
    next bondCount
  else
    run appendError "Warning, no bonding information found.";
    next 0%nat.

(** Lines 220-229: the bond orders. *)
Definition readOrders (value : Json.Value) (bondCount : nat) : Stmt unit :=
  if Json.isArray lib value then
    if negb (bondCount =? Json.size value)%nat then
      run appendError "Error: number of bonds != number of bond orders.";
      return_ false
    else
      for_ bondCount (fun i =>
        do o <- call (Json.asInt (Json.get value i (Json.intValue 1)));
        update (setOrder i (to_uchar o)))
  else next tt.

(** Lines 198-230. *)
Definition readBonds (root : Json.Value) : Stmt unit :=
  do bonds <- call (Json.member root "bonds");
  if negb (Json.empty bonds) then
    do value <- call (Json.member bonds "connections");
    if Json.empty value then
      run appendError ("Error: no " +:+ dq +:+ "bonds.connections" +:+ dq +:+ " key found");
      return_ false
    else
      do value <- call (Json.member value "index");
      do bondCount <- readConnections value;
      do value <- call (Json.member bonds "order");
      readOrders value bondCount
  else next tt.

(** Lines 65-233. *)
Definition read (root : Json.Value) : Stmt unit :=
  run readRoot root;
  run readMetadata root;
  run readUnitCell root;
  do r <- readAtoms root;
  run readCoords (fst r) (snd r);
  run readBonds root;
  return_ true.

(** Lines 57-233: the stream is parsed; text that is not JSON is a failure
    with the reader's messages, a document is decoded by [read]. *)
Definition readStream (file : Stream) : Stmt unit :=
  match parse file with
  | inl root => read root
  | inr messages =>
      run appendError ("Error parsing JSON: " +:+ messages);
      return_ false
  end.

(** *** [CjsonFormat::write]

    [write] builds the document [root] and returns true; [writeStream] is the
    whole of it, with the document printed to the stream (line 347). *)

(** Lines 242-245. *)
Definition writeMetadata (m : Molecule) (root : Json.Value) : Json.Value :=
  let root :=
    if isVString (getData m "name")
    then Json.set root "name" (Json.stringValue (c_str (toString (getData m "name"))))
    else root in
  if isVString (getData m "inchi")
  then Json.set root "inchi" (Json.stringValue (c_str (toString (getData m "inchi"))))
  else root.

(** Lines 247-256. *)
Definition writeUnitCell (m : Molecule) (root : Json.Value) : Json.Value :=
  match unitCell m with
  | Some cell =>
      let unitCell := Json.objectValue [] in
      let unitCell := Json.set unitCell "a" (Json.realValue (UnitCell.a cell)) in
      let unitCell := Json.set unitCell "b" (Json.realValue (UnitCell.b cell)) in
      let unitCell := Json.set unitCell "c" (Json.realValue (UnitCell.c cell)) in
      let unitCell := Json.set unitCell "alpha"
                        (Json.realValue (UnitCell.alpha cell * RAD_TO_DEG)%float) in
      let unitCell := Json.set unitCell "beta"
                        (Json.realValue (UnitCell.beta cell * RAD_TO_DEG)%float) in
      let unitCell := Json.set unitCell "gamma"
                        (Json.realValue (UnitCell.gamma cell * RAD_TO_DEG)%float) in
      Json.set root "unit cell" unitCell
  | None => root
  end.

(** Lines 259-282. *)
Definition writeBasisSet (m : Molecule) (root : Json.Value) : Json.Value :=
  match basisSet m with
  | Some (GaussianSet scf) =>
      let basis := Json.objectValue [] in
      let basis := Json.set basis "basisType" (Json.stringValue "GTO") in
      let type :=
        match scf with
        | Rhf => "rhf"
        | Rohf => "rohf"
        | Uhf => "uhf"
        | _ => "unknown"
        end in
      let basis := Json.set basis "scfType" (Json.stringValue type) in
      Json.set root "basisSet" basis
  | _ => root
  end.

Definition flatten3 (ps : list Vector3) : list Json.Value :=
  flat_map (fun p => [Json.realValue (x3 p); Json.realValue (y3 p); Json.realValue (z3 p)]) ps.

Definition flatten2 (ps : list Vector2) : list Json.Value :=
  flat_map (fun p => [Json.realValue (x2 p); Json.realValue (y2 p)]) ps.

(** Lines 285-331. *)
Definition writeAtoms (m : Molecule) (root : Json.Value) : Json.Value :=
  if negb (atomCount m =? 0)%nat then
    let elements := Json.arrayValue (map (fun at0 => Json.intValue (atomicNumber at0)) (atoms m)) in
    let root := Json.set3 root "atoms" "elements" "number" elements in
    let root :=
      if (length (atomPositions3d m) =? atomCount m)%nat then
        match unitCell m with
        | Some cell =>
            let fcoords := fractionalCoordinates cell (atomPositions3d m) in
            Json.set3 root "atoms" "coords" "3d fractional" (Json.arrayValue (flatten3 fcoords))
        | None =>
            Json.set3 root "atoms" "coords" "3d" (Json.arrayValue (flatten3 (atomPositions3d m)))
        end
      else root in
    if (length (atomPositions2d m) =? atomCount m)%nat then
      Json.set3 root "atoms" "coords" "2d" (Json.arrayValue (flatten2 (atomPositions2d m)))
    else root
  else root.

(** Lines 334-345. *)
Definition writeBonds (m : Molecule) (root : Json.Value) : Json.Value :=
  if negb (bondCount m =? 0)%nat then
    let connections :=
      Json.arrayValue
        (flat_map (fun bd => [Json.uintValue (to_UInt (atom1 bd));
                              Json.uintValue (to_UInt (atom2 bd))]) (bonds m)) in
    let order := Json.arrayValue (map (fun bd => Json.intValue (order bd)) (bonds m)) in
    let root := Json.set3 root "bonds" "connections" "index" connections in
    Json.set2 root "bonds" "order" order
  else root.

Definition write (m : Molecule) : Json.Value * bool :=
  let root := Json.nullValue in
  let root := Json.set root "chemical json" (Json.intValue 0) in
  let root := writeMetadata m root in
  let root := writeUnitCell m root in
  let root := writeBasisSet m root in
  let root := writeAtoms m root in
  let root := writeBonds m root in
  (root, true).

(** Lines 235-350: what the stream holds afterwards, and the status. *)
Definition writeStream (m : Molecule) : Stream * bool :=
  (print (fst (write m)), snd (write m)).

(** Lines 352-357. *)
Definition fileExtensions : list string := ["cjson"].

(** Lines 359-364. *)
Definition mimeTypes : list string := ["chemical/x-cjson"].

End CjsonFormat.

(** The Coordinate Transformer of a rectangular cell (all angles 90 degrees):
    the lattice vectors lie along the axes with lengths a, b and c.  It is the
    instance the codec is run with on concrete documents below. *)
Module Rectangular.
Definition toCartesian (cell : UnitCell.t) (p : Vector3) : Vector3 :=
  mkVector3 (x3 p * UnitCell.a cell) (y3 p * UnitCell.b cell) (z3 p * UnitCell.c cell).
Definition toFractional (cell : UnitCell.t) (p : Vector3) : Vector3 :=
  mkVector3 (x3 p / UnitCell.a cell) (y3 p / UnitCell.b cell) (z3 p / UnitCell.c cell).
End Rectangular.

(** A JSON library for the concrete runs below.  Its stream holds the
    document itself, and it reads back exactly what it wrote, with one
    exception: JSON text has no notation for a number that is not finite, and
    a stream that holds one is not parsed. *)
Module Lossless.
Definition Stream : Type := Json.Value.
Fixpoint carried (v : Json.Value) : bool :=
  match v with
  | Json.realValue r => negb (PrimFloat.is_nan r) && negb (PrimFloat.is_infinity r)
  | Json.arrayValue elems => forallb carried elems
  | Json.objectValue members => forallb (fun kv => carried (snd kv)) members
  | _ => true
  end.
Definition parse (file : Stream) : Json.Value + string :=
  if carried file then inl file else inr "Syntax error: value, object or array expected.".
Definition print (root : Json.Value) : Stream := root.
End Lossless.

Arguments read lib toCartesian root _ : rename.
Arguments write toFractional m : rename.
Arguments readStream lib {Stream} parse toCartesian file _ : rename.
Arguments writeStream {Stream} print toFractional m : rename.

(** A decoder state with a fresh molecule and an empty log. *)
Definition freshState : State := mkState emptyMolecule [].

(** ** Documents and notions the statements below are about *)

(** The error messages of the decoder. *)
Definition msgNoMarker : string :=
  "Error: no " +:+ dq +:+ "chemical json" +:+ dq +:+ " key found.".
Definition msgNoCell : string :=
  "Cannot interpret fractional coordinates without " +:+ "unit cell.".
Definition msg3d : string := "Error: number of elements != number of 3D coordinates.".
Definition msgWarning : string := "Warning, no bonding information found.".
Definition msgOrders : string := "Error: number of bonds != number of bond orders.".

(** [s] with one more message in its log. *)
Definition logged (msg : string) (s : State) : State :=
  mkState (molecule s) (errors s ++ [msg]).

(** A statement has fallen through: decoding goes on after it, from [s']. *)
Definition continues {A} (m : Stmt A) (s s' : State) : Prop :=
  exists x, m s = Next x s'.

(** The final state of an outcome, whichever way the statement was left. *)
Definition finalState {A} (o : Outcome A) : State :=
  match o with Next _ s | Return _ s | Raise s => s end.

(** An outcome is not a successful return. *)
Definition notSuccess {A} (o : Outcome A) : Prop :=
  match o with Return true _ => False | _ => True end.

(** The statements of [read] before the bonding data (lines 65-195). *)
Definition readHead (lib : Json.Library) (toCartesian : UnitCell.t -> Vector3 -> Vector3)
    (root : Json.Value) : Stmt unit :=
  run readRoot lib root;
  run readMetadata root;
  run readUnitCell root;
  do r <- readAtoms lib root;
  readCoords lib toCartesian (fst r) (snd r).

(** The statements of [read] before the coordinates (lines 65-142). *)
Definition readUpToAtoms (lib : Json.Library) (root : Json.Value) : Stmt (Json.Value * nat) :=
  run readRoot lib root;
  run readMetadata root;
  run readUnitCell root;
  readAtoms lib root.

(** A document made of [members]. *)
Definition document (members : list (string * Json.Value)) : Json.Value :=
  Json.objectValue (("chemical json", Json.intValue 0) :: members).

Definition ints (zs : list Z) : Json.Value := Json.arrayValue (map Json.intValue zs).
Definition reals (rs : list float) : Json.Value := Json.arrayValue (map Json.realValue rs).

(** The atoms member: atomic numbers and the members of [coords]. *)
Definition atomsMember (numbers : list Z) (coords : list (string * Json.Value))
  : string * Json.Value :=
  ("atoms",
   Json.objectValue
     (("elements", Json.objectValue [("number", ints numbers)])
      :: match coords with
         | [] => []
         | _ => [("coords", Json.objectValue coords)]
         end)).

(** A marker that is present and empty, over valid atom data. *)
Definition docEmptyMarker : Json.Value :=
  Json.objectValue [("chemical json", Json.objectValue []); atomsMember [8; 1; 1] []].

(** One atom and four numbers under 3d. *)
Definition docTrailingCoordinate : Json.Value :=
  document [atomsMember [1] [("3d", reals [1; 2; 3; 4]%float)]].

(** Fractional coordinates (not even numbers) and no unit cell. *)
Definition docFractionalNoCell : Json.Value :=
  document [atomsMember [6]
              [("3d fractional", Json.arrayValue [Json.stringValue "x"; Json.nullValue;
                                                  Json.nullValue])]].

(** A unit cell that is a number, not an object. *)
Definition docCellNotObject : Json.Value :=
  document [("unit cell", Json.realValue 5); atomsMember [6] []].

(** The integer the decoder reads at position [i] of an index or order
    array, [value.get(i, d).asInt()], where that call returns. *)
Definition intAt (value : Json.Value) (i : nat) (d : Z) : Z :=
  default 0 (Json.asInt (Json.get value i (Json.intValue d))).

(** The bond that the pair [k] of an index array stands for. *)
Definition bondAt (value : Json.Value) (k : nat) : Bond :=
  mkBond (to_Index (intAt value (2 * k) 0)) (to_Index (intAt value (2 * k + 1) 0)) 1.

(** The bonds that an index array of [l] stands for, in array order. *)
Definition bondsOf (l : list Json.Value) : list Bond :=
  map (bondAt (Json.arrayValue l)) (seq 0 (length l / 2)).

(** [s] with the bonds [bs] appended to its molecule. *)
Definition withBonds (bs : list Bond) (s : State) : State :=
  mkState (mkMolecule (atoms (molecule s)) (bonds (molecule s) ++ bs)
                      (unitCell (molecule s)) (basisSet (molecule s)) (data (molecule s)))
          (errors s).

(** Every element converts to an integer. *)
Definition allInts (l : list Json.Value) : Prop :=
  Forall (fun v => is_Some (Json.asInt v)) l.

(** The bonds member. *)
Definition bondsMember (index : Json.Value) (rest : list (string * Json.Value))
  : string * Json.Value :=
  ("bonds", Json.objectValue (("connections", Json.objectValue [("index", index)]) :: rest)).

(** Two bonded pairs and no order. *)
Definition docTwoBonds : Json.Value :=
  document [atomsMember [8; 1; 1] []; bondsMember (ints [0; 1; 0; 2]) []].

(** Pairs that name no atom of the molecule: one atom, indices 7 and -1. *)
Definition docBondOutOfRange : Json.Value :=
  document [atomsMember [6] []; bondsMember (ints [7; -1]) []].

(** An index that is a number, and one bond order. *)
Definition docIndexNotArrayWithOrder : Json.Value :=
  document [atomsMember [8; 1] []; bondsMember (Json.intValue 5) [("order", ints [1])]].

(** An index that is a number, and no bond order. *)
Definition docIndexNotArray : Json.Value :=
  document [atomsMember [8; 1] []; bondsMember (Json.intValue 5) []].

(** The double that the decoder reads from the member [key] of [value],
    [value[key].asDouble()], where that call returns. *)
Definition numberAt (value : Json.Value) (key : string) : float :=
  default 0%float (Json.asDouble (Json.at_ value key)).

(** The six fields of a unit cell object are there and numeric. *)
Definition numericCell (value : Json.Value) : bool :=
  Json.isNumeric (Json.at_ value "a") && Json.isNumeric (Json.at_ value "b") &&
  Json.isNumeric (Json.at_ value "c") && Json.isNumeric (Json.at_ value "alpha") &&
  Json.isNumeric (Json.at_ value "beta") && Json.isNumeric (Json.at_ value "gamma").

(** The unit cell member: lengths and angles in degrees. *)
Definition cellMember (a b c alpha beta gamma : float) : string * Json.Value :=
  ("unit cell",
   Json.objectValue [("a", Json.realValue a); ("b", Json.realValue b); ("c", Json.realValue c);
                     ("alpha", Json.realValue alpha); ("beta", Json.realValue beta);
                     ("gamma", Json.realValue gamma)]).

(** A cell with a right angle alpha. *)
Definition docRightAngle : Json.Value :=
  document [cellMember 3 4 5 90 90 90; atomsMember [6] []].

(** The effect of a loop whose body computes a value [v] for the index [i]
    and then calls [g i v] on the molecule. *)
Fixpoint applyFrom {V} (g : nat -> V -> Molecule -> Molecule) (k : nat) (vs : list V)
    (m : Molecule) : Molecule :=
  match vs with
  | [] => m
  | v :: vs' => applyFrom g (S k) vs' (g k v m)
  end.

(** The elements from position [k] on altered by [h] with the values [vs]. *)
Fixpoint alterFrom {A V} (h : V -> A -> A) (k : nat) (vs : list V) (l : list A) : list A :=
  match vs with
  | [] => l
  | v :: vs' => alterFrom h (S k) vs' (alter (h v) k l)
  end.

(** The vector the 3d loop reads for atom [i], and the one of the 2d loop. *)
Definition coords3dAt (value : Json.Value) (i : nat) : option Vector3 :=
  x ← Json.asDouble (Json.get value (3 * i + 0) (Json.intValue 0));
  y ← Json.asDouble (Json.get value (3 * i + 1) (Json.intValue 0));
  z ← Json.asDouble (Json.get value (3 * i + 2) (Json.intValue 0));
  Some (mkVector3 x y z).

Definition coords2dAt (value : Json.Value) (i : nat) : option Vector2 :=
  x ← Json.asDouble (Json.get value (2 * i + 0) (Json.intValue 0));
  y ← Json.asDouble (Json.get value (2 * i + 1) (Json.intValue 0));
  Some (mkVector2 x y).

(** A molecule with other atoms, or other bonds. *)
Definition withAtoms (ats : list Atom) (m : Molecule) : Molecule :=
  mkMolecule ats (bonds m) (unitCell m) (basisSet m) (data m).
Definition withBondList (bds : list Bond) (m : Molecule) : Molecule :=
  mkMolecule (atoms m) bds (unitCell m) (basisSet m) (data m).

(** Positions that are all set or all unset. *)
Definition uniform {A} (l : list (option A)) : Prop :=
  Forall is_Some l \/ Forall (fun o => o = None) l.

(** The metadata holds strings under name and inchi, and nothing else. *)
Definition nameAndInchi (d : gmap string Variant) : Prop :=
  forall k v, d !! k = Some v -> (k = "name" \/ k = "inchi") /\ isVString v = true.

(** What [read] makes of a fresh molecule before the atoms ... *)
Definition beforeAtoms (m : Molecule) : Prop :=
  atoms m = [] /\ bonds m = [] /\ basisSet m = None /\ nameAndInchi (data m).

(** ... after the atoms and before the bonds, with [n] atoms ... *)
Definition beforeBonds (n : nat) (m : Molecule) : Prop :=
  length (atoms m) = n /\
  Forall (fun z => 0 <= z < 256) (map atomicNumber (atoms m)) /\
  uniform (map position3d (atoms m)) /\
  uniform (map position2d (atoms m)) /\
  bonds m = [] /\ basisSet m = None /\ nameAndInchi (data m).

(** ... and when it returns success. *)
Definition decoded (m : Molecule) : Prop :=
  atoms m <> [] /\
  Forall (fun z => 0 <= z < 256) (map atomicNumber (atoms m)) /\
  uniform (map position3d (atoms m)) /\
  uniform (map position2d (atoms m)) /\
  Forall (fun bd => 0 <= atom1 bd /\ 0 <= atom2 bd /\ 0 <= order bd < 256) (bonds m) /\
  basisSet m = None /\ nameAndInchi (data m).

(** The two integers the pair loop reads for the pair [k]. *)
Definition pairAt (value : Json.Value) (k : nat) : option (Z * Z) :=
  i1 ← Json.asInt (Json.get value (2 * k + 0) (Json.intValue 0));
  i2 ← Json.asInt (Json.get value (2 * k + 1) (Json.intValue 0));
  Some (i1, i2).

(** The bond [addBond] appends for a pair of integers. *)
Definition bondOfPair (p : Z * Z) : Bond := mkBond (to_Index (fst p)) (to_Index (snd p)) 1.

(** The value written for a metadata key, and the metadata that reading it
    back sets. *)
Definition metadataValue (m : Molecule) (key : string) : Json.Value :=
  if isVString (getData m key)
  then Json.stringValue (c_str (toString (getData m key))) else Json.nullValue.

Definition restore (m : Molecule) (key : string) (d : gmap string Variant)
  : gmap string Variant :=
  if isVString (getData m key)
  then <[key := VString (c_str (toString (getData m key)))]> d else d.

(** The name and the inchi of a molecule hold no NUL character. *)
Definition metadataIsText (m : Molecule) : Prop :=
  c_str (toString (getData m "name")) = toString (getData m "name") /\
  c_str (toString (getData m "inchi")) = toString (getData m "inchi").

(** The bonds member written for the bonds [bds]. *)
Definition bondsValue (bds : list Bond) : Json.Value :=
  Json.set
    (Json.set2 Json.nullValue "connections" "index"
       (Json.arrayValue
          (flat_map (fun bd => [Json.uintValue (to_UInt (atom1 bd));
                                Json.uintValue (to_UInt (atom2 bd))]) bds)))
    "order" (Json.arrayValue (map (fun bd => Json.intValue (order bd)) bds)).

(** The unit cell member written for a cell. *)
Definition cellValue (cell : UnitCell.t) : Json.Value :=
  Json.objectValue
    [("a", Json.realValue (UnitCell.a cell)); ("b", Json.realValue (UnitCell.b cell));
     ("c", Json.realValue (UnitCell.c cell));
     ("alpha", Json.realValue (UnitCell.alpha cell * RAD_TO_DEG));
     ("beta", Json.realValue (UnitCell.beta cell * RAD_TO_DEG));
     ("gamma", Json.realValue (UnitCell.gamma cell * RAD_TO_DEG))].

(** A unit cell whose angles went to degrees and back to radians. *)
Definition recode (cell : UnitCell.t) : UnitCell.t :=
  UnitCell.make (UnitCell.a cell) (UnitCell.b cell) (UnitCell.c cell)
    (UnitCell.alpha cell * RAD_TO_DEG * DEG_TO_RAD)
    (UnitCell.beta cell * RAD_TO_DEG * DEG_TO_RAD)
    (UnitCell.gamma cell * RAD_TO_DEG * DEG_TO_RAD).

(** The ends of every bond are integers of the non-negative [int] range, as
    they are when they name atoms. *)
Definition bondEndsFit (m : Molecule) : Prop :=
  Forall (fun bd => atom1 bd <= Json.maxInt /\ atom2 bd <= Json.maxInt) (bonds m).

(** An atom as [addAtom] appends it: the atomic number and no position. *)
Definition bare (at0 : Atom) : Atom := mkAtom (atomicNumber at0) None None.

(** A crystal: two atoms in a rectangular cell, one bond, a name. *)
Definition docCrystal : Json.Value :=
  document [("name", Json.stringValue "salt");
            cellMember 2 4 8 90 90 90;
            atomsMember [11; 17] [("3d", reals [1; 2; 3; 0.5; 0.25; 4]%float)];
            bondsMember (ints [0; 1]) [("order", ints [1])]].

(** A cell with an angle alpha of 96 degrees. *)
Definition docObliqueCell : Json.Value :=
  document [cellMember 3 4 5 96 90 90; atomsMember [6] []].

(** A cell without extent along its first axis, around an atom with both
    kinds of position. *)
Definition docZeroLengthCell : Json.Value :=
  document [cellMember 0 4 8 90 90 90;
            atomsMember [11] [("3d", reals [1; 2; 3]%float); ("2d", reals [1; 2]%float)]].

(** ** Further documents and notions *)

(** The other messages of the decoder. *)
Definition msgNotObject : string := "Error: Input is not a JSON object.".
Definition msgBadCell : string :=
  "Invalid unit cell specification: a, b, c, alpha, beta, gamma"
  +:+ " must be present and numeric.".
Definition msgNoAtoms : string := "Error: no " +:+ dq +:+ "atom" +:+ dq +:+ " key found".
Definition msgAtomsNotObject : string :=
  "Error: " +:+ dq +:+ "atom" +:+ dq +:+ " is not of type object".
Definition msgNoElements : string :=
  "Error: no " +:+ dq +:+ "atoms.elements" +:+ dq +:+ " key found".
Definition msgElementsNotObject : string :=
  "Error: " +:+ dq +:+ "atoms.elements" +:+ dq +:+ " is not of type object".
Definition msgNoNumber : string :=
  "Error: no " +:+ dq +:+ "atoms.elements.number" +:+ dq +:+ " key found".
Definition msgNumberNotArray : string :=
  "Error: " +:+ dq +:+ "atoms.elements.number" +:+ dq +:+ " is not of type array".
Definition msg2d : string := "Error: number of elements != number of 2D coordinates.".
Definition msgFractional : string :=
  "Error: number of elements != number of fractional " +:+ "coordinates.".
Definition msgNoConnections : string :=
  "Error: no " +:+ dq +:+ "bonds.connections" +:+ dq +:+ " key found".

(** What lines 77-82 make of the molecule for one key: the member is stored
    when it is a string. *)
Definition storeText (root : Json.Value) (key : string) (m : Molecule) : Molecule :=
  let value := Json.at_ root key in
  if negb (Json.empty value) && Json.isString value
  then setData key (VString (Json.asString value)) m
  else m.

(** The two ends of a bond. *)
Definition ends (bd : Bond) : Z * Z := (atom1 bd, atom2 bd).

(** A valid document wrapped in an array. *)
Definition docArray : Json.Value :=
  Json.arrayValue [document [atomsMember [8; 1; 1] []]].

(** A name, and a unit cell without gamma. *)
Definition docCellWithoutGamma : Json.Value :=
  document [("name", Json.stringValue "ice");
            ("unit cell",
             Json.objectValue [("a", Json.realValue 3); ("b", Json.realValue 4);
                               ("c", Json.realValue 5); ("alpha", Json.realValue 90);
                               ("beta", Json.realValue 90)]);
            atomsMember [8; 1; 1] []].

(** A name that is a number and an inchi that is a string. *)
Definition docNumericName : Json.Value :=
  document [("name", Json.intValue 5); ("inchi", Json.stringValue "InChI=1S/H2O/h1H2");
            atomsMember [8; 1; 1] []].

(** A document whose number array is empty. *)
Definition docNoNumbers : Json.Value :=
  document [("atoms", Json.objectValue [("elements", Json.objectValue [("number", ints [])])])].

(** Atomic numbers beyond a byte. *)
Definition docLargeNumbers : Json.Value := document [atomsMember [257; -1; 8] []].

(** One atom and six numbers under 3d. *)
Definition docSixCoordinates : Json.Value :=
  document [atomsMember [1] [("3d", reals [1; 2; 3; 4; 5; 6]%float)]].

(** Atoms with an empty 3d array and an empty 2d array. *)
Definition docEmptyCoordinates : Json.Value :=
  document [atomsMember [8; 1] [("3d", Json.arrayValue []); ("2d", Json.arrayValue [])]].

(** A rectangular cell, of lengths 2, 4 and 8. *)
Definition rectangularCell : UnitCell.t :=
  UnitCell.make 2 4 8 (90 * DEG_TO_RAD) (90 * DEG_TO_RAD) (90 * DEG_TO_RAD).

(** Cartesian and fractional coordinates for the one atom of a cell. *)
Definition coordsBoth : Json.Value :=
  Json.objectValue [("3d", reals [9; 9; 9]%float);
                    ("3d fractional", reals [0.5; 0.5; 0.5]%float)].

(** Bonds with orders and no connections. *)
Definition docOrdersOnly : Json.Value :=
  document [atomsMember [8; 1] []; ("bonds", Json.objectValue [("order", ints [1])])].

(** Two bonds with orders 2 and 257. *)
Definition docBondOrders : Json.Value :=
  document [atomsMember [6; 8; 8] [];
            bondsMember (ints [0; 1; 0; 2]) [("order", ints [2; 257])]].

(** The order that the decoder stores for an element of the order array. *)
Definition orderOf (v : Json.Value) : Z := to_uchar (default 0 (Json.asInt v)).

(** The members that the encoder may write at the top of the document. *)
Definition writtenKeys : list string :=
  ["chemical json"; "name"; "inchi"; "unit cell"; "basisSet"; "atoms"; "bonds"].

(** The NUL character. *)
Definition nul : Ascii.ascii := Ascii.ascii_of_nat 0.

(** A molecule whose name is a number, with an inchi, one more metadata entry
    and a basis set that is not Gaussian. *)
Definition moleculeWithData : Molecule :=
  mkMolecule [mkAtom 8 None None] [] None (Some OtherSet)
    (<["name" := VInt 5]> (<["inchi" := VString "InChI=1S/O"]> (<["charge" := VInt 0]> ∅))).

(** Three atoms, of which the second has no 3D position and the third no 2D
    position. *)
Definition moleculePartial : Molecule :=
  mkMolecule [mkAtom 8 (Some (mkVector3 0 0 0)) (Some (mkVector2 0 0));
              mkAtom 1 None (Some (mkVector2 1 0));
              mkAtom 1 (Some (mkVector3 0 1 0)) None] [] None None ∅.

(** A molecule without atoms, with a name and a unit cell. *)
Definition moleculeNoAtoms : Molecule :=
  mkMolecule [] [] (Some rectangularCell) None {["name" := VString "void"]}.

(** The members that the decoder reads at the top of the document. *)
Definition readKeys : list string :=
  ["chemical json"; "name"; "inchi"; "unit cell"; "atoms"; "bonds"].

(** A valid document with members the decoder does not know. *)
Definition docWithVendorData : Json.Value :=
  Json.set docCrystal "vendor" (Json.objectValue [("atoms", Json.intValue 0)]).

(** The error messages that go with a failure of [read] on a document that is
    an object, and all its error messages. *)
Definition objectMessages : list string :=
  [msgNoMarker; msgBadCell; msgNoAtoms; msgAtomsNotObject; msgNoElements;
   msgElementsNotObject; msgNoNumber; msgNumberNotArray; msg3d; msg2d; msgNoCell;
   msgFractional; msgNoConnections; msgOrders].

Definition errorMessages : list string := msgNotObject :: objectMessages.

Definition isObjectMessage (msg : string) : Prop := In msg objectMessages.

(** A molecule with a Gaussian basis set of the restricted open-shell kind. *)
Definition moleculeRohf : Molecule :=
  mkMolecule [mkAtom 8 None None] [] None (Some (GaussianSet Rohf)) ∅.

(** The positions that the loops read where an array holds no element. *)
Definition origin3 : Vector3 := mkVector3 0 0 0.
Definition origin2 : Vector2 := mkVector2 0 0.

(** Null and the empty array: what the coordinate loops read as an array
    without elements, every element asked for being the default. *)
Definition blank (v : Json.Value) : Prop :=
  v = Json.nullValue \/ v = Json.arrayValue [].

(** The atoms of [m] all have a 3D position exactly when they all have a 2D
    position (the two tests of the encoder, lines 292 and 321, agree). *)
Definition positionsTogether (m : Molecule) : Prop :=
  (length (atomPositions3d m) =? atomCount m)%nat
  = (length (atomPositions2d m) =? atomCount m)%nat.

(** The 3d and the 2d member of the coords member of a document are arrays
    where they are present. *)
Definition coordsAreArrays (root : Json.Value) : Prop :=
  forall key, key = "3d" \/ key = "2d" ->
    let value := Json.at_ (Json.at_ (Json.at_ root "atoms") "coords") key in
    value = Json.nullValue \/ Json.isArrayValue value = true.

(** The 3D position that is read back for an atom of [m].  When every atom
    of [m] has one, it is that position, sent to fractional coordinates and
    back when there is a unit cell.  Otherwise there is none, unless the 2d
    array is written and the library takes the absent 3d member for an array:
    then it is (0, 0, 0). *)
Definition keptPosition3d (lib : Json.Library)
    (toCartesian toFractional : UnitCell.t -> Vector3 -> Vector3)
    (m : Molecule) (at0 : Atom) : option Vector3 :=
  if (length (atomPositions3d m) =? atomCount m)%nat then
    match unitCell m with
    | Some cell =>
        option_map (fun p => toCartesian (recode cell) (toFractional cell p)) (position3d at0)
    | None => position3d at0
    end
  else if Json.nullIsArray lib && (length (atomPositions2d m) =? atomCount m)%nat
       then Some origin3
       else None.

(** The 2D position that is read back: the one of the atom when every atom
    has one; otherwise none, unless a 3D array is written and the library
    takes the absent 2d member for an array: then it is (0, 0). *)
Definition keptPosition2d (lib : Json.Library) (m : Molecule) (at0 : Atom) : option Vector2 :=
  if (length (atomPositions2d m) =? atomCount m)%nat then position2d at0
  else if Json.nullIsArray lib && (length (atomPositions3d m) =? atomCount m)%nat
       then Some origin2
       else None.

(** What reading the document written for [m] makes of a fresh molecule. *)
Definition writtenThenRead (lib : Json.Library)
    (toCartesian toFractional : UnitCell.t -> Vector3 -> Vector3) (m : Molecule) : Molecule :=
  mkMolecule
    (map (fun at0 => mkAtom (atomicNumber at0)
                            (keptPosition3d lib toCartesian toFractional m at0)
                            (keptPosition2d lib m at0))
         (atoms m))
    (bonds m) (option_map recode (unitCell m)) None
    (restore m "inchi" (restore m "name" ∅)).

(** The codec run with the lossless library and the Coordinate Transformer of
    rectangular cells: the stream that [decode] reads and that [encode]
    leaves is a document. *)
Definition decode (lib : Json.Library) (file : Json.Value) : Stmt unit :=
  readStream lib Lossless.parse Rectangular.toCartesian file.

Definition encode (m : Molecule) : Json.Value :=
  fst (writeStream Lossless.print Rectangular.toFractional m).

(** A name with a NUL character in it. *)
Definition docNameWithNul : Json.Value :=
  document [("name", Json.stringValue ("wat" +:+ String nul "er")); atomsMember [8; 1; 1] []].

(** A bond to the index -1, with its order. *)
Definition docNegativeIndex : Json.Value :=
  document [atomsMember [6] []; bondsMember (ints [7; -1]) [("order", ints [1])]].

(** A stream that the lossless library does not parse. *)
Definition streamNotANumber : Lossless.Stream := Json.arrayValue [Json.realValue nan].

(** The JSON libraries: every pair of answers of the two tests on null. *)
Definition libraries : list Json.Library :=
  [Json.strict; Json.mkLibrary false true; Json.mkLibrary true false; Json.lenient].

(** One atom, without coordinates. *)
Definition docHydrogen : Json.Value := document [atomsMember [1] []].

(** One atom and a 3d member that is a number. *)
Definition docScalarCoordinates : Json.Value :=
  document [atomsMember [1] [("3d", Json.intValue 5)]].

(** A molecule that already holds an atom with a 3D position. *)
Definition carbonState : State :=
  mkState (mkMolecule [mkAtom 6 (Some (mkVector3 1 2 3)) None] [] None None ∅) [].

(** ** The type tests of the library *)

(** Whatever the library, its tests hold of the values of the type, and agree
    with the type tag on every value but null. *)
Lemma isObject_object lib v : Json.isObjectValue v = true -> Json.isObject lib v = true.
Proof. now destruct v. Qed.

Lemma isArray_array lib v : Json.isArrayValue v = true -> Json.isArray lib v = true.
Proof. now destruct v. Qed.

Lemma isObject_not_null lib v :
  v <> Json.nullValue -> Json.isObject lib v = Json.isObjectValue v.
Proof. destruct v; try reflexivity. now intros []. Qed.

Lemma isArray_not_null lib v :
  v <> Json.nullValue -> Json.isArray lib v = Json.isArrayValue v.
Proof. destruct v; try reflexivity. now intros []. Qed.

Lemma isArray_not_empty lib v :
  Json.empty v = false -> Json.isArray lib v = Json.isArrayValue v.
Proof. destruct v; try reflexivity. discriminate. Qed.

Lemma isArray_null lib : Json.isArray lib Json.nullValue = Json.nullIsArray lib.
Proof. reflexivity. Qed.

(** ** Control-flow lemmas *)

Lemma bind_Next {A B} (m : Stmt A) (k : A -> Stmt B) s x s' :
  m s = Next x s' -> bind m k s = k x s'.
Proof. intros H. unfold bind. now rewrite H. Qed.

Lemma bind_Return {A B} (m : Stmt A) (k : A -> Stmt B) s status s' :
  m s = Return status s' -> bind m k s = Return status s'.
Proof. intros H. unfold bind. now rewrite H. Qed.

Lemma bind_Raise {A B} (m : Stmt A) (k : A -> Stmt B) s s' :
  m s = Raise s' -> bind m k s = Raise s'.
Proof. intros H. unfold bind. now rewrite H. Qed.

Lemma bind_assoc {A B C} (m : Stmt A) (f : A -> Stmt B) (g : B -> Stmt C) s :
  bind (bind m f) g s = bind m (fun x => bind (f x) g) s.
Proof. unfold bind. now destruct (m s). Qed.

Lemma call_Some {A} (o : option A) x s : o = Some x -> call o s = Next x s.
Proof. now intros ->. Qed.

(** *** Properties of the state that a statement keeps *)

Definition preserves {A} (P : State -> Prop) (m : Stmt A) : Prop :=
  forall s, P s -> P (finalState (m s)).

Lemma preserves_next {A} P (x : A) : preserves P (next x).
Proof. now intros s H. Qed.

Lemma preserves_return {A} P status : preserves P (@return_ A status).
Proof. now intros s H. Qed.

Lemma preserves_call {A} P (o : option A) : preserves P (call o).
Proof. intros s H. now destruct o. Qed.

Lemma preserves_bind {A B} P (m : Stmt A) (k : A -> Stmt B) :
  preserves P m -> (forall x, preserves P (k x)) -> preserves P (bind m k).
Proof.
  intros Hm Hk s H. unfold bind. specialize (Hm s H).
  destruct (m s) as [x s'|status s'|s']; simpl in *; auto.
  now apply Hk.
Qed.

Lemma preserves_appendError P msg :
  (forall s, P s -> P (logged msg s)) -> preserves P (appendError msg).
Proof. intros Hl s H. now apply Hl. Qed.

Lemma preserves_update P f :
  (forall s, P s -> P (mkState (f (molecule s)) (errors s))) -> preserves P (update f).
Proof. intros Hf s H. now apply Hf. Qed.

Lemma preserves_forFrom P body n :
  (forall i, preserves P (body i)) -> forall i, preserves P (forFrom i n body).
Proof.
  intros Hb. induction n as [|n IH]; intros i; simpl.
  - apply preserves_next.
  - apply preserves_bind; [apply Hb | intros _; apply IH].
Qed.

Lemma preserves_if {A} P (c : bool) (m1 m2 : Stmt A) :
  preserves P m1 -> preserves P m2 -> preserves P (if c then m1 else m2).
Proof. now destruct c. Qed.

(** A failing check: the message is logged and [read] returns false. *)
Lemma preserves_fail {A} P msg :
  (forall s, P s -> P (logged msg s)) ->
  preserves P (run appendError msg; @return_ A false).
Proof.
  intros H. apply preserves_bind; [now apply preserves_appendError | intros _; apply preserves_return].
Qed.

(** *** Statements that never return success *)

Definition neverSucceeds {A} (m : Stmt A) : Prop := forall s, notSuccess (m s).

Lemma neverSucceeds_next {A} (x : A) : neverSucceeds (next x).
Proof. now intros s. Qed.

Lemma neverSucceeds_false {A} : neverSucceeds (@return_ A false).
Proof. now intros s. Qed.

Lemma neverSucceeds_call {A} (o : option A) : neverSucceeds (call o).
Proof. intros s. now destruct o. Qed.

Lemma neverSucceeds_appendError msg : neverSucceeds (appendError msg).
Proof. now intros s. Qed.

Lemma neverSucceeds_update f : neverSucceeds (update f).
Proof. now intros s. Qed.

Lemma neverSucceeds_bind {A B} (m : Stmt A) (k : A -> Stmt B) :
  neverSucceeds m -> (forall x, neverSucceeds (k x)) -> neverSucceeds (bind m k).
Proof.
  intros Hm Hk s. unfold bind. specialize (Hm s).
  destruct (m s) as [x s'|status s'|s']; simpl in *; auto.
  apply Hk.
Qed.

Lemma neverSucceeds_if {A} (c : bool) (m1 m2 : Stmt A) :
  neverSucceeds m1 -> neverSucceeds m2 -> neverSucceeds (if c then m1 else m2).
Proof. now destruct c. Qed.

Lemma neverSucceeds_forFrom body n :
  (forall i, neverSucceeds (body i)) -> forall i, neverSucceeds (forFrom i n body).
Proof.
  intros Hb. induction n as [|n IH]; intros i; simpl.
  - apply neverSucceeds_next.
  - apply neverSucceeds_bind; [apply Hb | intros _; apply IH].
Qed.

Ltac never_succeeds :=
  repeat first
    [ apply neverSucceeds_next | apply neverSucceeds_false | apply neverSucceeds_call
    | apply neverSucceeds_appendError | apply neverSucceeds_update
    | apply neverSucceeds_forFrom; intros
    | apply neverSucceeds_bind; [|intros]
    | apply neverSucceeds_if ].

Lemma readRoot_neverSucceeds {lib} root : neverSucceeds (readRoot lib root).
Proof. unfold readRoot. never_succeeds. Qed.

Lemma readMetadata_neverSucceeds root : neverSucceeds (readMetadata root).
Proof. unfold readMetadata. never_succeeds. Qed.

Lemma readUnitCell_neverSucceeds root : neverSucceeds (readUnitCell root).
Proof. unfold readUnitCell. never_succeeds. Qed.

Lemma readAtoms_neverSucceeds {lib} root : neverSucceeds (readAtoms lib root).
Proof. unfold readAtoms, for_. never_succeeds. Qed.

Lemma readCoords3d_neverSucceeds {lib} coords n : neverSucceeds (readCoords3d lib coords n).
Proof. unfold readCoords3d, for_. never_succeeds. Qed.

Lemma readCoords2d_neverSucceeds {lib} coords n : neverSucceeds (readCoords2d lib coords n).
Proof. unfold readCoords2d, for_. never_succeeds. Qed.

Lemma readUpToAtoms_neverSucceeds {lib} root : neverSucceeds (readUpToAtoms lib root).
Proof.
  unfold readUpToAtoms.
  repeat (apply neverSucceeds_bind; [|intros _]);
    auto using readRoot_neverSucceeds, readMetadata_neverSucceeds,
               readUnitCell_neverSucceeds, readAtoms_neverSucceeds.
Qed.

(** *** The unit cell is attached by the unit cell block only *)

Definition cellIs (u : option UnitCell.t) (s : State) : Prop :=
  unitCell (molecule s) = u.

Ltac keeps_cell :=
  repeat first
    [ apply preserves_next | apply preserves_return | apply preserves_call
    | apply preserves_fail; intros ? ?; assumption
    | apply preserves_appendError; intros ? ?; assumption
    | apply preserves_update; intros ? ?; assumption
    | apply preserves_forFrom; intros
    | apply preserves_bind; [|intros]
    | apply preserves_if ].

Lemma readRoot_cell {lib} u root : preserves (cellIs u) (readRoot lib root).
Proof. unfold readRoot. keeps_cell. Qed.

Lemma readMetadata_cell u root : preserves (cellIs u) (readMetadata root).
Proof. unfold readMetadata. keeps_cell. Qed.

Lemma readAtoms_cell {lib} u root : preserves (cellIs u) (readAtoms lib root).
Proof. unfold readAtoms, for_. keeps_cell. Qed.

Lemma readCoords3d_cell {lib} u coords n : preserves (cellIs u) (readCoords3d lib coords n).
Proof. unfold readCoords3d, for_. keeps_cell. Qed.

Lemma readCoords2d_cell {lib} u coords n : preserves (cellIs u) (readCoords2d lib coords n).
Proof. unfold readCoords2d, for_. keeps_cell. Qed.

Lemma readConnections_cell {lib} u value : preserves (cellIs u) (readConnections lib value).
Proof. unfold readConnections, for_. keeps_cell. Qed.

Lemma readOrders_cell {lib} u value n : preserves (cellIs u) (readOrders lib value n).
Proof. unfold readOrders, for_. keeps_cell. Qed.

Lemma readBonds_cell {lib} u root : preserves (cellIs u) (readBonds lib root).
Proof.
  unfold readBonds. apply preserves_bind; [apply preserves_call|].
  intros bonds. apply preserves_if; [|apply preserves_next].
  apply preserves_bind; [apply preserves_call|].
  intros value. apply preserves_if; [apply preserves_fail; intros ? ?; assumption|].
  apply preserves_bind; [apply preserves_call|]. intros index.
  apply preserves_bind; [apply readConnections_cell|]. intros bondCount.
  apply preserves_bind; [apply preserves_call|]. intros order.
  apply readOrders_cell.
Qed.

(** A unit cell value that is not an object leaves the state as it is. *)
Lemma readUnitCell_skip root s :
  Json.isObjectValue root = true ->
  Json.isObjectValue (Json.at_ root "unit cell") = false ->
  readUnitCell root s = Next tt s.
Proof.
  intros Hroot Hcell. destruct root; try discriminate.
  unfold readUnitCell, Json.at_ in *. simpl in *.
  unfold bind, call, next. simpl. now rewrite Hcell.
Qed.

Section Properties.

Context {lib : Json.Library}.

Variable toCartesian : UnitCell.t -> Vector3 -> Vector3.
Variable toFractional : UnitCell.t -> Vector3 -> Vector3.

Lemma setPositionsFrom_unitCell ps : forall i m,
  unitCell (setPositionsFrom i ps m) = unitCell m.
Proof. induction ps as [|p ps IH]; intros i m; simpl; [easy | now rewrite IH]. Qed.

Lemma setFractionalCoordinates_unitCell fcoords m :
  unitCell (setFractionalCoordinates toCartesian fcoords m) = unitCell m.
Proof.
  unfold setFractionalCoordinates. destruct (unitCell m) eqn:E; [|easy].
  now rewrite setPositionsFrom_unitCell.
Qed.

Lemma readCoordsFractional_cell u coords n :
  preserves (cellIs u) (readCoordsFractional toCartesian coords n).
Proof.
  unfold readCoordsFractional. apply preserves_bind; [apply preserves_call|].
  intros value. apply preserves_if; [|apply preserves_next].
  intros s H. destruct (unitCell (molecule s)) eqn:E.
  - revert s H E.
    assert (Hp : preserves (cellIs u)
      (if negb (Json.size value =? 0)%nat && negb (n =? Json.size value / 3)%nat
       then run appendError ("Error: number of elements != number of fractional "
                              +:+ "coordinates."); return_ false
       else do fcoords <- call (collectFrom 0 n (fractionalAt value));
            update (setFractionalCoordinates toCartesian fcoords))).
    { keeps_cell. apply preserves_update. intros s H. unfold cellIs in *. simpl.
      now rewrite setFractionalCoordinates_unitCell. }
    intros s H _. now apply Hp.
  - revert H. now apply preserves_fail.
Qed.

Lemma readCoords_cell u atoms n :
  preserves (cellIs u) (readCoords lib toCartesian atoms n).
Proof.
  unfold readCoords. apply preserves_bind; [apply preserves_call|].
  intros coords. apply preserves_if; [|apply preserves_next].
  apply preserves_bind; [apply readCoords3d_cell|]. intros _.
  apply preserves_bind; [apply readCoords2d_cell|]. intros _.
  apply readCoordsFractional_cell.
Qed.

(** [read] ends by a return or an exception, never by falling through. *)
Lemma read_not_Next root s x s' : read lib toCartesian root s <> Next x s'.
Proof.
  unfold read, bind.
  repeat match goal with
         | |- context [match ?m ?st with _ => _ end] => destruct (m st); try discriminate
         end.
Qed.

End Properties.

(** ** The decoder *)

Section Decoder.

Context {lib : Json.Library}.

Variable toCartesian : UnitCell.t -> Vector3 -> Vector3.

(** [read] is the statements up to the atoms, then the coordinates, the
    bonds and the final return. *)
Lemma read_after_atoms root s :
  read lib toCartesian root s =
  (do r <- readUpToAtoms lib root;
   run readCoords lib toCartesian (fst r) (snd r);
   run readBonds lib root;
   return_ true) s.
Proof.
  unfold read, readUpToAtoms, bind.
  repeat (match goal with
         | |- context [match ?m ?st with _ => _ end] => destruct (m st); try reflexivity
         end).
Qed.

(** [read] is the statements before the bonding data, then the bonds and the
    final return. *)
Lemma read_after_head root s :
  read lib toCartesian root s =
  (run readHead lib toCartesian root; run readBonds lib root; return_ true) s.
Proof.
  unfold read, readHead, bind.
  repeat (match goal with
         | |- context [match ?m ?st with _ => _ end] => destruct (m st); try reflexivity
         end).
Qed.

(** What [readAtoms] yields when it falls through: the atoms member and the
    length of its number array, which is not empty; the state is the one the
    loop over the numbers leaves. *)
Lemma readAtoms_Next root s r s' :
  readAtoms lib root s = Next r s' ->
  exists numbers,
    Json.member root "atoms" = Some (fst r) /\
    Json.at_ (Json.at_ (fst r) "elements") "number" = Json.arrayValue numbers /\
    snd r = length numbers /\
    numbers <> [] /\
    for_ (length numbers) (fun i =>
        do n <- call (Json.asInt (Json.get (Json.arrayValue numbers) i (Json.intValue 0)));
        update (addAtom (to_uchar n))) s = Next tt s'.
Proof.
  unfold readAtoms, bind, call, next, raise, return_, appendError.
  intros H.
  destruct (Json.member root "atoms") as [atoms|] eqn:Ea; [|discriminate].
  destruct (Json.empty atoms); [discriminate|].
  destruct (Json.isObjectValue atoms) eqn:Eo; [|discriminate].
  destruct atoms as [| | | | | | |ms]; try discriminate Eo. simpl in H.
  destruct (default Json.nullValue (Json.find "elements" ms)) as [| | | | | | |es] eqn:Ee;
    try (destruct (Json.empty _); discriminate H).
  destruct (Json.empty (Json.objectValue es)); [discriminate|].
  simpl in H.
  destruct (default Json.nullValue (Json.find "number" es)) as [| | | | | |numbers|] eqn:En;
    try (simpl in H; discriminate H);
    try (destruct (Json.empty _); simpl in H; discriminate H).
  destruct (Json.empty (Json.arrayValue numbers)) eqn:Em; [discriminate|].
  simpl in H.
  destruct (for_ _ _ _) as [[] s1|status s1|s1] eqn:El; try discriminate.
  injection H as <- <-. exists numbers. unfold Json.at_. simpl.
  rewrite Ee. simpl. rewrite En.
  repeat split; [now destruct numbers | exact El].
Qed.

Lemma readUpToAtoms_Next root s r s' :
  readUpToAtoms lib root s = Next r s' ->
  exists s1 s2 s3,
    readRoot lib root s = Next tt s1 /\ readMetadata root s1 = Next tt s2 /\
    readUnitCell root s2 = Next tt s3 /\ readAtoms lib root s3 = Next r s'.
Proof.
  unfold readUpToAtoms, bind. intros H.
  destruct (readRoot lib root s) as [[] s1|status s1|s1] eqn:E1; try discriminate.
  destruct (readMetadata root s1) as [[] s2|status s2|s2] eqn:E2; try discriminate.
  destruct (readUnitCell root s2) as [[] s3|status s3|s3] eqn:E3; try discriminate.
  now exists s1, s2, s3.
Qed.

Lemma readRoot_Next root s x s' :
  readRoot lib root s = Next x s' ->
  Json.isObjectValue root = true /\ Json.empty (Json.at_ root "chemical json") = false /\ s' = s.
Proof.
  unfold readRoot. destruct root; simpl; try discriminate.
  - destruct (Json.nullIsObject lib); discriminate.
  - unfold bind, call, next, Json.at_. simpl.
    destruct (Json.empty _); [discriminate|]. now intros [= _ <-].
Qed.

(** Without a unit cell object in the document, the molecule has after the
    atoms the unit cell it had before. *)
Lemma readUpToAtoms_no_cell root s r s' :
  Json.isObjectValue (Json.at_ root "unit cell") = false ->
  readUpToAtoms lib root s = Next r s' ->
  unitCell (molecule s') = unitCell (molecule s).
Proof.
  intros Hcell H.
  destruct (readUpToAtoms_Next _ _ _ _ H) as (s1 & s2 & s3 & H1 & H2 & H3 & H4).
  destruct (readRoot_Next _ _ _ _ H1) as (Hroot & _ & ->).
  rewrite (readUnitCell_skip _ _ Hroot Hcell) in H3. injection H3 as <-.
  pose proof (readAtoms_cell (lib:=lib) (unitCell (molecule s)) root s2) as Pa.
  rewrite H4 in Pa. simpl in Pa. apply Pa.
  pose proof (readMetadata_cell (unitCell (molecule s)) root s) as Pm.
  rewrite H2 in Pm. now apply Pm.
Qed.

(** The fractional block without a unit cell: the check fails before any
    element of the array is read. *)
Lemma readCoordsFractional_no_cell coords l n s :
  Json.member coords "3d fractional" = Some (Json.arrayValue l) ->
  unitCell (molecule s) = None ->
  readCoordsFractional toCartesian coords n s = Return false (logged msgNoCell s).
Proof.
  intros Hm Hc. unfold readCoordsFractional.
  rewrite (bind_Next _ _ _ _ _ (call_Some _ _ s Hm)). simpl.
  now rewrite Hc.
Qed.

(** A value with an array member is an object that is not empty. *)
Lemma member_array_nonempty v key l :
  Json.member v key = Some (Json.arrayValue l) -> Json.empty v = false.
Proof.
  destruct v as [| | | | | | |ms]; simpl; try discriminate.
  destruct ms; [discriminate | easy].
Qed.

(** C4. A document with a 3d fractional array and no unit cell object, read
    into a molecule without a unit cell, is never decoded with success; when the
    decoder reaches the fractional block it returns failure with the
    unit cell message as the last entry of the log, and the block itself fails
    whatever the array holds, leaving the molecule as it was. *)
Theorem fractional_requires_unit_cell root s0 atoms coords l :
  unitCell (molecule s0) = None ->
  Json.isObjectValue (Json.at_ root "unit cell") = false ->
  Json.member root "atoms" = Some atoms ->
  Json.member atoms "coords" = Some coords ->
  Json.member coords "3d fractional" = Some (Json.arrayValue l) ->
  notSuccess (read lib toCartesian root s0)
  /\ (forall r s1 s2,
        readUpToAtoms lib root s0 = Next r s1 ->
        (run readCoords3d lib coords (snd r); readCoords2d lib coords (snd r)) s1 = Next tt s2 ->
        read lib toCartesian root s0 = Return false (logged msgNoCell s2))
  /\ (forall n s,
        unitCell (molecule s) = None ->
        readCoordsFractional toCartesian coords n s = Return false (logged msgNoCell s)).
Proof.
  intros Hc0 Hcell Ha Hco Hf.
  assert (Hne : Json.empty coords = false) by (eapply member_array_nonempty; eauto).
  assert (Hreach : forall r s1,
             readUpToAtoms lib root s0 = Next r s1 ->
             fst r = atoms /\ unitCell (molecule s1) = None).
  { intros r s1 H. split.
    - destruct (readUpToAtoms_Next _ _ _ _ H) as (? & ? & s3 & _ & _ & _ & H4).
      destruct (readAtoms_Next _ _ _ _ H4) as (? & Hm & _). congruence.
    - rewrite (readUpToAtoms_no_cell _ _ _ _ Hcell H). exact Hc0. }
  assert (Hcoords : forall n s1,
             readCoords lib toCartesian atoms n s1 =
             (run readCoords3d lib coords n; run readCoords2d lib coords n;
              readCoordsFractional toCartesian coords n) s1).
  { intros n s1. unfold readCoords.
    rewrite (bind_Next _ _ _ _ _ (call_Some _ _ s1 Hco)). now rewrite Hne. }
  split; [|split].
  - rewrite read_after_atoms. unfold bind at 1.
    pose proof (readUpToAtoms_neverSucceeds (lib:=lib) root s0) as Hn.
    destruct (readUpToAtoms lib root s0) as [r s1|status s1|s1] eqn:E; [| exact Hn | exact I].
    destruct (Hreach _ _ eq_refl) as [-> Hc1].
    unfold bind at 1. rewrite Hcoords. unfold bind at 1.
    pose proof (readCoords3d_neverSucceeds (lib:=lib) coords (snd r) s1) as H3.
    pose proof (readCoords3d_cell (lib:=lib) None coords (snd r) s1 Hc1) as P3.
    destruct (readCoords3d lib coords (snd r) s1) as [[] s2|status s2|s2]; [| exact H3 | exact I].
    unfold bind at 1.
    pose proof (readCoords2d_neverSucceeds (lib:=lib) coords (snd r) s2) as H2.
    pose proof (readCoords2d_cell (lib:=lib) None coords (snd r) s2 P3) as P2.
    destruct (readCoords2d lib coords (snd r) s2) as [[] s3|status s3|s3]; [| exact H2 | exact I].
    now rewrite (readCoordsFractional_no_cell _ _ _ _ Hf P2).
  - intros r s1 s2 Hup H32.
    destruct (Hreach _ _ Hup) as [Hr Hc1].
    rewrite read_after_atoms. rewrite (bind_Next _ _ _ _ _ Hup). rewrite Hr.
    unfold bind at 1. rewrite Hcoords.
    assert (Hc2 : unitCell (molecule s2) = None).
    { pose proof (preserves_bind (cellIs None) _ _ (readCoords3d_cell (lib:=lib) None coords (snd r))
                    (fun _ => readCoords2d_cell (lib:=lib) None coords (snd r)) s1 Hc1) as P.
      now rewrite H32 in P. }
    unfold bind in H32 |- *.
    destruct (readCoords3d lib coords (snd r) s1) as [[] s2'|status s2'|s2']; try discriminate.
    rewrite H32. now rewrite (readCoordsFractional_no_cell _ _ _ _ Hf Hc2).
  - intros n s Hc. now apply readCoordsFractional_no_cell with (l := l).
Qed.

End Decoder.

Lemma fractional_requires_unit_cell_witness :
  read Json.strict Rectangular.toCartesian docFractionalNoCell freshState =
  Return false (logged msgNoCell (mkState (mkMolecule [mkAtom 6 None None] [] None None ∅) [])).
Proof.
  eapply (proj1 (proj2 (fractional_requires_unit_cell Rectangular.toCartesian
                          docFractionalNoCell freshState _ _ _
                          eq_refl eq_refl eq_refl eq_refl eq_refl))).
  - vm_compute. reflexivity.
  - vm_compute. reflexivity.
Defined.

Section IdentityAndUnitCell.

Context {lib : Json.Library}.

Variable toCartesian : UnitCell.t -> Vector3 -> Vector3.

(** C2, as the code has it. For a document that is a JSON object, the decoder
    gets past the identity check exactly when the value under the marker key is
    not empty, that is when the key is there and its value is not null, not an
    empty array and not an empty object; otherwise, and so whenever the key is
    absent, [read] returns failure with the marker message appended to the log
    and the molecule untouched, whatever else the document holds. *)
Theorem read_identity_check root s :
  Json.isObjectValue root = true ->
  (continues (readRoot lib root) s s <-> Json.empty (Json.at_ root "chemical json") = false)
  /\ (Json.empty (Json.at_ root "chemical json") = true ->
      read lib toCartesian root s = Return false (logged msgNoMarker s))
  /\ (Json.hasKey root "chemical json" = false ->
      Json.empty (Json.at_ root "chemical json") = true).
Proof.
  intros Hroot. destruct root as [| | | | | | |ms]; try discriminate.
  assert (Hr : readRoot lib (Json.objectValue ms) s =
               if Json.empty (Json.at_ (Json.objectValue ms) "chemical json")
               then Return false (logged msgNoMarker s) else Next tt s).
  { unfold readRoot, Json.at_, bind, call, next. simpl.
    now destruct (Json.empty _). }
  unfold continues. rewrite Hr.
  destruct (Json.empty (Json.at_ (Json.objectValue ms) "chemical json")) eqn:E.
  - split; [|split].
    + split; [intros [x H]; discriminate | discriminate].
    + intros _. unfold read. now rewrite (bind_Return _ _ _ _ _ Hr).
    + reflexivity.
  - split; [|split].
    + split; [reflexivity | intros _; now exists tt].
    + discriminate.
    + intros Hk. apply bool_decide_eq_false in Hk.
      unfold Json.at_ in E. simpl in E.
      destruct (Json.find "chemical json" ms); [|discriminate E].
      exfalso. apply Hk. eauto.
Qed.

(** C10. A unit cell value that is not a JSON object is skipped: the unit cell
    block falls through with the state (molecule and log) as it was, and
    whichever way [read] ends, the molecule has the unit cell it had before. *)
Theorem unit_cell_not_object_skipped root s :
  Json.isObjectValue root = true ->
  Json.hasKey root "unit cell" = true ->
  Json.isObjectValue (Json.at_ root "unit cell") = false ->
  readUnitCell root s = Next tt s
  /\ unitCell (molecule (finalState (read lib toCartesian root s))) = unitCell (molecule s).
Proof.
  intros Hroot _ Hcell. split; [now apply readUnitCell_skip|].
  assert (P : preserves (cellIs (unitCell (molecule s))) (read lib toCartesian root)).
  { unfold read.
    apply preserves_bind; [apply readRoot_cell|]. intros _.
    apply preserves_bind; [apply readMetadata_cell|]. intros _.
    apply preserves_bind.
    { intros s1 H1. now rewrite (readUnitCell_skip _ _ Hroot Hcell). }
    intros _. apply preserves_bind; [apply readAtoms_cell|]. intros r.
    apply preserves_bind; [apply readCoords_cell|]. intros _.
    apply preserves_bind; [apply readBonds_cell|]. intros _.
    apply preserves_return. }
  now apply P.
Qed.

End IdentityAndUnitCell.

Lemma read_identity_check_witness :
  read Json.strict Rectangular.toCartesian docEmptyMarker freshState =
  Return false (logged msgNoMarker freshState).
Proof.
  exact (proj1 (proj2 (read_identity_check Rectangular.toCartesian docEmptyMarker
                         freshState eq_refl)) eq_refl).
Defined.

(** C2, as it is worded, fails: the marker key is present, with an empty
    object as its value, and the decoder stops at the identity check, whatever
    the JSON library. *)
Lemma marker_present_but_empty_fails :
  Json.hasKey docEmptyMarker "chemical json" = true
  /\ Forall (fun lib =>
              ~ continues (readRoot lib docEmptyMarker) freshState freshState
              /\ read lib Rectangular.toCartesian docEmptyMarker freshState =
                 Return false (logged msgNoMarker freshState))
            libraries.
Proof.
  split; [reflexivity|].
  repeat constructor; try reflexivity; intros [x H]; vm_compute in H; discriminate.
Qed.

Lemma unit_cell_not_object_skipped_witness :
  readUnitCell docCellNotObject freshState = Next tt freshState
  /\ unitCell (molecule (finalState (read Json.strict Rectangular.toCartesian docCellNotObject freshState)))
     = unitCell (molecule freshState).
Proof.
  apply (unit_cell_not_object_skipped Rectangular.toCartesian docCellNotObject freshState);
    reflexivity.
Defined.

(** C3, at a document with one atom and four numbers under 3d: the length is
    not 3, the decoder returns success and has written a position, whatever
    the JSON library (the 2d member is absent: the atom has no 2D position
    when [isArray()] is false on null, and the position (0, 0) when it is
    true). *)
Theorem trailing_coordinate_accepted lib :
  read lib Rectangular.toCartesian docTrailingCoordinate freshState =
  Return true
    (mkState (mkMolecule [mkAtom 1 (Some (mkVector3 1 2 3))
                                 (if Json.nullIsArray lib then Some origin2 else None)]
                         [] None None ∅) []).
Proof. destruct lib as [[] []]; vm_compute; reflexivity. Qed.

(** ** The bonding data *)

Lemma withBonds_nil s : withBonds [] s = s.
Proof.
  destruct s as [[ats bds u bs d] es]. unfold withBonds. simpl. now rewrite app_nil_r.
Qed.

Lemma withBonds_app bs1 bs2 s : withBonds bs2 (withBonds bs1 s) = withBonds (bs1 ++ bs2) s.
Proof. unfold withBonds. simpl. now rewrite app_assoc. Qed.

Lemma get_allInts l i d : allInts l -> is_Some (Json.asInt (Json.get (Json.arrayValue l) i (Json.intValue d))) \/
                                      Json.get (Json.arrayValue l) i (Json.intValue d) = Json.intValue d.
Proof.
  intros H. simpl. destruct (l !! i) as [v|] eqn:E; simpl; [left | now right].
  unfold allInts in H. rewrite Forall_lookup in H. eauto.
Qed.

Lemma asInt_get l i d :
  allInts l -> Json.minInt <= d <= Json.maxInt ->
  Json.asInt (Json.get (Json.arrayValue l) i (Json.intValue d)) =
  Some (intAt (Json.arrayValue l) i d).
Proof.
  intros H Hd. unfold intAt.
  destruct (get_allInts l i d H) as [[z Hz]|Hz].
  - now rewrite Hz.
  - rewrite Hz. simpl.
    destruct (Z.leb_spec Json.minInt d); [|lia].
    destruct (Z.leb_spec d Json.maxInt); [|lia]. reflexivity.
Qed.

(** The loop over the pairs appends one bond per pair, built from the two
    integers as they are. *)
Lemma connections_loop l n : allInts l -> forall k s,
  forFrom k n (fun k =>
      let i := (2 * k)%nat in
      do i1 <- call (Json.asInt (Json.get (Json.arrayValue l) (i + 0) (Json.intValue 0)));
      do i2 <- call (Json.asInt (Json.get (Json.arrayValue l) (i + 1) (Json.intValue 0)));
      update (addBond (to_Index i1) (to_Index i2))) s
  = Next tt (withBonds (map (bondAt (Json.arrayValue l)) (seq k n)) s).
Proof.
  intros Hl. induction n as [|n IH]; intros k s.
  - simpl. now rewrite withBonds_nil.
  - cbn [forFrom seq map].
    assert (H0 : Json.minInt <= 0 <= Json.maxInt) by (unfold Json.minInt, Json.maxInt; lia).
    unfold bind at 1. cbv zeta. unfold bind at 1.
    rewrite (call_Some _ _ _ (asInt_get l (2 * k + 0) 0 Hl H0)).
    unfold bind at 1.
    rewrite (call_Some _ _ _ (asInt_get l (2 * k + 1) 0 Hl H0)).
    unfold update. rewrite IH.
    replace (2 * k + 0)%nat with (2 * k)%nat by lia.
    f_equal. unfold withBonds, addBond, bondAt. simpl.
    now rewrite <- app_assoc.
Qed.

Lemma readConnections_array {lib} l s :
  allInts l ->
  readConnections lib (Json.arrayValue l) s = Next (length l / 2)%nat (withBonds (bondsOf l) s).
Proof.
  intros Hl. unfold readConnections. simpl. unfold for_.
  now rewrite (bind_Next _ _ _ _ _ (connections_loop l _ Hl 0%nat s)).
Qed.

Lemma readConnections_not_array {lib} value s :
  Json.isArray lib value = false ->
  readConnections lib value s = Next 0%nat (logged msgWarning s).
Proof. intros H. unfold readConnections. now rewrite H. Qed.

Lemma readOrders_not_array {lib} value n s :
  Json.isArray lib value = false -> readOrders lib value n s = Next tt s.
Proof. intros H. unfold readOrders. now rewrite H. Qed.

Lemma readOrders_mismatch {lib} lo n s :
  length lo <> n ->
  readOrders lib (Json.arrayValue lo) n s = Return false (logged msgOrders s).
Proof.
  intros H. unfold readOrders. simpl.
  destruct (Nat.eqb_spec n (length lo)); [congruence | reflexivity].
Qed.

(** A value one of whose members is not null is an object that is not empty. *)
Lemma member_not_null v key x :
  Json.member v key = Some x -> x <> Json.nullValue -> Json.empty v = false.
Proof.
  destruct v as [| | | | | | |ms]; simpl; try discriminate.
  - intros [= <-] H. now destruct H.
  - destruct ms; simpl; [|easy]. intros [= <-] H. now destruct H.
Qed.

Lemma hasKey_member v key :
  Json.hasKey v key = true -> Json.empty v = false /\ v <> Json.nullValue.
Proof.
  destruct v as [| | | | | | |ms]; simpl; try discriminate.
  intros H. apply bool_decide_eq_true in H. destruct ms; [|easy].
  destruct H as [x H]. discriminate.
Qed.

Lemma member_no_key v key :
  Json.isObjectValue v = true -> Json.hasKey v key = false ->
  Json.member v key = Some Json.nullValue.
Proof.
  destruct v as [| | | | | | |ms]; simpl; try discriminate.
  intros _ H. apply bool_decide_eq_false in H.
  destruct (Json.find key ms); [|reflexivity]. exfalso. apply H. eauto.
Qed.

Lemma member_isObject v key x :
  Json.member v key = Some x -> x <> Json.nullValue -> Json.isObjectValue v = true.
Proof.
  destruct v; simpl; try discriminate; [|easy]. intros [= <-] H. now destruct H.
Qed.

(** The bonds block on a document whose bonds member holds a connections
    member with an index: the pairs, then the orders. *)
Lemma readBonds_index {lib} root bonds conn index s :
  Json.member root "bonds" = Some bonds ->
  Json.member bonds "connections" = Some conn ->
  Json.member conn "index" = Some index ->
  conn <> Json.nullValue -> Json.empty conn = false ->
  readBonds lib root s =
  (do bondCount <- readConnections lib index;
   do value <- call (Json.member bonds "order");
   readOrders lib value bondCount) s.
Proof.
  intros Hb Hc Hi Hn He. unfold readBonds.
  rewrite (bind_Next _ _ _ _ _ (call_Some _ _ s Hb)).
  rewrite (member_not_null _ _ _ Hc Hn). simpl.
  rewrite (bind_Next _ _ _ _ _ (call_Some _ _ s Hc)). rewrite He.
  now rewrite (bind_Next _ _ _ _ _ (call_Some _ _ s Hi)).
Qed.

Section Bonding.

Context {lib : Json.Library}.

Variable toCartesian : UnitCell.t -> Vector3 -> Vector3.

(** [read] from the bonding data on, once the statements before it have
    fallen through. *)
Lemma read_bonds root s0 s1 bonds conn index :
  readHead lib toCartesian root s0 = Next tt s1 ->
  Json.member root "bonds" = Some bonds ->
  Json.member bonds "connections" = Some conn ->
  Json.member conn "index" = Some index ->
  conn <> Json.nullValue -> Json.empty conn = false ->
  read lib toCartesian root s0 =
  (run (do bondCount <- readConnections lib index;
        do value <- call (Json.member bonds "order");
        readOrders lib value bondCount);
   return_ true) s1.
Proof.
  intros Hh Hb Hc Hi Hn He. rewrite read_after_head.
  rewrite (bind_Next _ _ _ _ _ Hh). unfold bind at 1.
  rewrite (readBonds_index _ _ _ _ _ Hb Hc Hi Hn He). reflexivity.
Qed.

Lemma bonds_block index bonds order s n s' :
  readConnections lib index s = Next n s' ->
  Json.member bonds "order" = Some order ->
  (do bondCount <- readConnections lib index;
   do value <- call (Json.member bonds "order");
   readOrders lib value bondCount) s = readOrders lib order n s'.
Proof.
  intros Hc Ho. rewrite (bind_Next _ _ _ _ _ Hc).
  now rewrite (bind_Next _ _ _ _ _ (call_Some _ _ s' Ho)).
Qed.

(** An index array of integers and no order, which reads as null.  With a
    library whose [isArray()] is false on null: success, the bonds appended. *)
Lemma read_bonds_no_order root s0 s1 bonds conn l :
  readHead lib toCartesian root s0 = Next tt s1 ->
  Json.member root "bonds" = Some bonds ->
  Json.member bonds "connections" = Some conn ->
  Json.member conn "index" = Some (Json.arrayValue l) ->
  allInts l ->
  Json.hasKey bonds "order" = false ->
  Json.nullIsArray lib = false ->
  read lib toCartesian root s0 = Return true (withBonds (bondsOf l) s1).
Proof.
  intros Hh Hb Hc Hi Hl Hk Hlib.
  assert (Hn : conn <> Json.nullValue) by (intros ->; discriminate).
  assert (He : Json.empty conn = false) by (eapply member_not_null; eauto; discriminate).
  assert (Hob : Json.isObjectValue bonds = true) by (eapply member_isObject; eauto).
  rewrite (read_bonds _ _ _ _ _ _ Hh Hb Hc Hi Hn He). unfold bind at 1.
  rewrite (bonds_block _ _ _ _ _ _ (readConnections_array _ _ Hl) (member_no_key _ _ Hob Hk)).
  now rewrite readOrders_not_array by exact Hlib.
Qed.

(** With a library whose [isArray()] holds of null, the absent order is taken
    for an array, of size 0: the bond count is compared with 0. *)
Lemma read_bonds_no_order_null root s0 s1 bonds conn l :
  readHead lib toCartesian root s0 = Next tt s1 ->
  Json.member root "bonds" = Some bonds ->
  Json.member bonds "connections" = Some conn ->
  Json.member conn "index" = Some (Json.arrayValue l) ->
  allInts l ->
  Json.hasKey bonds "order" = false ->
  Json.nullIsArray lib = true ->
  read lib toCartesian root s0 =
  if (length l / 2 =? 0)%nat then Return true s1
  else Return false (logged msgOrders (withBonds (bondsOf l) s1)).
Proof.
  intros Hh Hb Hc Hi Hl Hk Hlib.
  assert (Hn : conn <> Json.nullValue) by (intros ->; discriminate).
  assert (He : Json.empty conn = false) by (eapply member_not_null; eauto; discriminate).
  assert (Hob : Json.isObjectValue bonds = true) by (eapply member_isObject; eauto).
  rewrite (read_bonds _ _ _ _ _ _ Hh Hb Hc Hi Hn He). unfold bind at 1.
  rewrite (bonds_block _ _ _ _ _ _ (readConnections_array _ _ Hl) (member_no_key _ _ Hob Hk)).
  unfold readOrders. rewrite isArray_null, Hlib. cbn [Json.size].
  unfold bondsOf. destruct (length l / 2)%nat as [|n]; [|reflexivity].
  cbn [Nat.eqb negb seq map for_ forFrom next return_]. now rewrite withBonds_nil.
Qed.

Lemma bondsOf_order l : Forall (fun bd => order bd = 1) (bondsOf l).
Proof. unfold bondsOf. apply Forall_map. now apply Forall_forall. Qed.

Lemma bondsOf_length l : length (bondsOf l) = (length l / 2)%nat.
Proof. unfold bondsOf. now rewrite length_map, length_seq. Qed.



(** The integer read at a position of an array of integers. *)
Lemma intAt_ints zs i :
  Forall (fun z => Json.minInt <= z <= Json.maxInt) zs ->
  intAt (ints zs) i 0 = nth i zs 0.
Proof.
  intros H. unfold intAt, ints. simpl. rewrite list_lookup_fmap.
  destruct (zs !! i) as [z|] eqn:E; simpl.
  - rewrite (nth_lookup_Some _ _ _ _ E).
    rewrite Forall_lookup in H. specialize (H _ _ E). simpl in H.
    destruct (Z.leb_spec Json.minInt z); [|lia].
    destruct (Z.leb_spec z Json.maxInt); [|lia]. reflexivity.
  - apply lookup_ge_None in E. now rewrite nth_overflow by lia.
Qed.

Lemma allInts_ints zs :
  Forall (fun z => Json.minInt <= z <= Json.maxInt) zs -> allInts (map Json.intValue zs).
Proof.
  intros H. unfold allInts. apply Forall_map. eapply Forall_impl; [exact H|].
  intros z Hz. simpl in *.
  destruct (Z.leb_spec Json.minInt z); [|lia].
  destruct (Z.leb_spec z Json.maxInt); [|lia]. simpl. eauto.
Qed.

(** C9. For an index array of integers (of the [int] range, whatever their
    sign and whatever the number of atoms of the molecule), the pair loop
    falls through with one bond per pair, whose ends are the two integers cast
    to [Index], and with the log as it was; and when the decoder reaches the
    bonding data of a document with such an index and no order, [read] returns
    success with exactly these bonds appended (the library being one whose
    [isArray()] is false on the null that the absent order reads as). *)
Theorem bond_indices_not_validated (zs : list Z) :
  Forall (fun z => Json.minInt <= z <= Json.maxInt) zs ->
  let added :=
    map (fun k => mkBond (to_Index (nth (2 * k) zs 0)) (to_Index (nth (2 * k + 1) zs 0)) 1)
        (seq 0 (length zs / 2)) in
  (forall s, readConnections lib (ints zs) s = Next (length zs / 2)%nat (withBonds added s))
  /\ (forall root s0 s1 bonds conn,
        readHead lib toCartesian root s0 = Next tt s1 ->
        Json.member root "bonds" = Some bonds ->
        Json.member bonds "connections" = Some conn ->
        Json.member conn "index" = Some (ints zs) ->
        Json.hasKey bonds "order" = false ->
        Json.nullIsArray lib = false ->
        read lib toCartesian root s0 = Return true (withBonds added s1)).
Proof.
  intros Hz added.
  assert (Hadd : bondsOf (map Json.intValue zs) = added).
  { unfold bondsOf, added. rewrite length_map. apply map_ext. intros k.
    unfold bondAt. fold (ints zs). now rewrite !intAt_ints. }
  pose proof (allInts_ints _ Hz) as Hl.
  split.
  - intros s. unfold ints. rewrite (readConnections_array _ _ Hl).
    now rewrite Hadd, length_map.
  - intros root s0 s1 bonds conn Hh Hb Hc Hi Hk Hlib.
    rewrite (read_bonds_no_order root s0 s1 bonds conn _ Hh Hb Hc Hi Hl Hk Hlib).
    now rewrite Hadd.
Qed.

End Bonding.





Lemma bond_indices_not_validated_witness :
  read Json.strict Rectangular.toCartesian docBondOutOfRange freshState =
  Return true
    (mkState (mkMolecule [mkAtom 6 None None] [mkBond 7 (2 ^ 64 - 1) 1] None None ∅) []).
Proof.
  assert (Hz : Forall (fun z => Json.minInt <= z <= Json.maxInt) [7; -1]).
  { repeat constructor; vm_compute; discriminate. }
  destruct (bond_indices_not_validated (lib:=Json.strict) Rectangular.toCartesian [7; -1] Hz) as [_ H].
  exact (H docBondOutOfRange freshState
            (mkState (mkMolecule [mkAtom 6 None None] [] None None ∅) [])
            _ _ eq_refl eq_refl eq_refl eq_refl eq_refl eq_refl).
Defined.

(** ** Assigning members of a document *)

(** Null or an object: what [v[key] = x] may be applied to. *)
Definition isContainer (v : Json.Value) : bool :=
  match v with Json.nullValue | Json.objectValue _ => true | _ => false end.

Lemma find_replace_eq k x ms : Json.find k (Json.replace k x ms) = Some x.
Proof.
  induction ms as [|[k' v] ms IH]; simpl.
  - now rewrite String.eqb_refl.
  - destruct (String.eqb k' k) eqn:E; simpl; now rewrite E.
Qed.

Lemma find_replace_ne k k' x ms :
  k <> k' -> Json.find k' (Json.replace k x ms) = Json.find k' ms.
Proof.
  intros Hne. induction ms as [|[k0 v] ms IH]; simpl.
  - destruct (String.eqb_spec k k'); [contradiction | reflexivity].
  - destruct (String.eqb_spec k0 k) as [->|Hk]; simpl.
    + destruct (String.eqb_spec k k'); [contradiction | reflexivity].
    + now rewrite IH.
Qed.

Lemma set_isObject v k x : isContainer v = true -> Json.isObjectValue (Json.set v k x) = true.
Proof. now destruct v. Qed.

Lemma isObject_isContainer v : Json.isObjectValue v = true -> isContainer v = true.
Proof. now destruct v. Qed.

Lemma at_set_eq v k x : isContainer v = true -> Json.at_ (Json.set v k x) k = x.
Proof.
  destruct v; try discriminate; intros _; unfold Json.at_; simpl.
  - now rewrite String.eqb_refl.
  - now rewrite find_replace_eq.
Qed.

Lemma at_set_ne v k k' x :
  isContainer v = true -> k <> k' -> Json.at_ (Json.set v k x) k' = Json.at_ v k'.
Proof.
  destruct v; try discriminate; intros _ Hne; unfold Json.at_; simpl.
  - destruct (String.eqb_spec k k'); [contradiction | reflexivity].
  - now rewrite find_replace_ne.
Qed.

Lemma member_at v k : isContainer v = true -> Json.member v k = Some (Json.at_ v k).
Proof. now destruct v. Qed.

Lemma hasKey_set_eq v k x : isContainer v = true -> Json.hasKey (Json.set v k x) k = true.
Proof.
  destruct v; try discriminate; intros _; simpl; apply bool_decide_eq_true.
  - rewrite String.eqb_refl. eauto.
  - rewrite find_replace_eq. eauto.
Qed.

Lemma hasKey_set_ne v k k' x :
  isContainer v = true -> k <> k' -> Json.hasKey (Json.set v k x) k' = Json.hasKey v k'.
Proof.
  destruct v; try discriminate; intros _ Hne; simpl.
  - destruct (String.eqb_spec k k'); [contradiction|].
    apply bool_decide_eq_false. intros [y Hy]. discriminate.
  - now rewrite find_replace_ne.
Qed.

Lemma at_isContainer_set v k x :
  isContainer v = true -> isContainer (Json.set v k x) = true.
Proof. now destruct v. Qed.

Lemma at_set2_eq v k1 k2 x :
  isContainer v = true -> Json.at_ (Json.set2 v k1 k2 x) k1 = Json.set (Json.at_ v k1) k2 x.
Proof. intros H. unfold Json.set2. now rewrite at_set_eq. Qed.

Lemma at_set2_ne v k1 k2 k' x :
  isContainer v = true -> k1 <> k' -> Json.at_ (Json.set2 v k1 k2 x) k' = Json.at_ v k'.
Proof. intros H Hne. unfold Json.set2. now rewrite at_set_ne. Qed.

Lemma at_set3_eq v k1 k2 k3 x :
  isContainer v = true ->
  Json.at_ (Json.set3 v k1 k2 k3 x) k1 = Json.set2 (Json.at_ v k1) k2 k3 x.
Proof. intros H. unfold Json.set3. now rewrite at_set_eq. Qed.

Lemma at_set3_ne v k1 k2 k3 k' x :
  isContainer v = true -> k1 <> k' -> Json.at_ (Json.set3 v k1 k2 k3 x) k' = Json.at_ v k'.
Proof. intros H Hne. unfold Json.set3. now rewrite at_set_ne. Qed.

Lemma set2_isObject v k1 k2 x :
  isContainer v = true -> Json.isObjectValue (Json.set2 v k1 k2 x) = true.
Proof. apply set_isObject. Qed.

Lemma set3_isObject v k1 k2 k3 x :
  isContainer v = true -> Json.isObjectValue (Json.set3 v k1 k2 k3 x) = true.
Proof. apply set_isObject. Qed.

Ltac is_object :=
  repeat first
    [ assumption | reflexivity
    | apply set3_isObject | apply set2_isObject | apply set_isObject
    | apply isObject_isContainer ].

Ltac side := solve [ is_object | congruence ].

(** ** The encoder *)

Section Encoder.

Context {lib : Json.Library}.

Variable toFractional : UnitCell.t -> Vector3 -> Vector3.

Lemma writeMetadata_isObject m root :
  Json.isObjectValue root = true -> Json.isObjectValue (writeMetadata m root) = true.
Proof.
  intros H. unfold writeMetadata.
  repeat (destruct (isVString _)); auto using set_isObject, isObject_isContainer.
Qed.

Lemma writeMetadata_other m root k :
  Json.isObjectValue root = true -> k <> "name" -> k <> "inchi" ->
  Json.at_ (writeMetadata m root) k = Json.at_ root k.
Proof.
  intros H H1 H2. unfold writeMetadata.
  repeat (destruct (isVString _));
    rewrite ?at_set_ne by side; reflexivity.
Qed.

Lemma writeUnitCell_isObject m root :
  Json.isObjectValue root = true -> Json.isObjectValue (writeUnitCell m root) = true.
Proof.
  intros H. unfold writeUnitCell.
  destruct (unitCell m); auto using set_isObject, isObject_isContainer.
Qed.

Lemma writeUnitCell_other m root k :
  Json.isObjectValue root = true -> k <> "unit cell" ->
  Json.at_ (writeUnitCell m root) k = Json.at_ root k.
Proof.
  intros H H1. unfold writeUnitCell.
  destruct (unitCell m); [|reflexivity].
  now rewrite at_set_ne by side.
Qed.

Lemma writeBasisSet_isObject m root :
  Json.isObjectValue root = true -> Json.isObjectValue (writeBasisSet m root) = true.
Proof.
  intros H. unfold writeBasisSet.
  destruct (basisSet m) as [[scf|]|]; auto using set_isObject, isObject_isContainer.
Qed.

Lemma writeBasisSet_other m root k :
  Json.isObjectValue root = true -> k <> "basisSet" ->
  Json.at_ (writeBasisSet m root) k = Json.at_ root k.
Proof.
  intros H H1. unfold writeBasisSet.
  destruct (basisSet m) as [[scf|]|]; try reflexivity.
  now rewrite at_set_ne by side.
Qed.

Lemma writeAtoms_isObject m root :
  Json.isObjectValue root = true -> Json.isObjectValue (writeAtoms toFractional m root) = true.
Proof.
  intros H. unfold writeAtoms. cbv zeta.
  repeat match goal with
         | |- context [if ?c then _ else _] => destruct c
         | |- context [match unitCell m with _ => _ end] => destruct (unitCell m)
         end; is_object.
Qed.

Lemma writeAtoms_other m root k :
  Json.isObjectValue root = true -> k <> "atoms" ->
  Json.at_ (writeAtoms toFractional m root) k = Json.at_ root k.
Proof.
  intros H H1. unfold writeAtoms. cbv zeta.
  repeat match goal with
         | |- context [if ?c then _ else _] => destruct c
         | |- context [match unitCell m with _ => _ end] => destruct (unitCell m)
         end;
    rewrite ?at_set3_ne by side; reflexivity.
Qed.

Lemma writeBonds_isObject m root :
  Json.isObjectValue root = true -> Json.isObjectValue (writeBonds m root) = true.
Proof.
  intros H. unfold writeBonds.
  destruct (negb _); auto using set2_isObject, set3_isObject, isObject_isContainer.
Qed.

Lemma writeBonds_other m root k :
  Json.isObjectValue root = true -> k <> "bonds" ->
  Json.at_ (writeBonds m root) k = Json.at_ root k.
Proof.
  intros H H1. unfold writeBonds.
  destruct (negb _); [|reflexivity].
  rewrite at_set2_ne, at_set3_ne by side.
  reflexivity.
Qed.

(** The atoms member that [writeAtoms] leaves in a document that had none. *)
Definition atomsValue (m : Molecule) : Json.Value :=
  if negb (atomCount m =? 0)%nat then
    let v := Json.set2 Json.nullValue "elements" "number"
               (Json.arrayValue (map (fun at0 => Json.intValue (atomicNumber at0)) (atoms m))) in
    let v :=
      if (length (atomPositions3d m) =? atomCount m)%nat then
        match unitCell m with
        | Some cell =>
            Json.set2 v "coords" "3d fractional"
              (Json.arrayValue
                 (flatten3 (fractionalCoordinates toFractional cell (atomPositions3d m))))
        | None =>
            Json.set2 v "coords" "3d" (Json.arrayValue (flatten3 (atomPositions3d m)))
        end
      else v in
    if (length (atomPositions2d m) =? atomCount m)%nat then
      Json.set2 v "coords" "2d" (Json.arrayValue (flatten2 (atomPositions2d m)))
    else v
  else Json.nullValue.

Lemma writeAtoms_atoms m root :
  Json.isObjectValue root = true -> Json.at_ root "atoms" = Json.nullValue ->
  Json.at_ (writeAtoms toFractional m root) "atoms" = atomsValue m.
Proof.
  intros H Ha. unfold writeAtoms, atomsValue.
  destruct (negb (atomCount m =? 0)%nat); [|exact Ha]. cbv zeta.
  repeat match goal with
         | |- context [if ?c then _ else _] => destruct c
         | |- context [match unitCell m with _ => _ end] => destruct (unitCell m)
         end;
    rewrite ?at_set3_eq by is_object;
    rewrite ?at_set3_eq by is_object;
    rewrite ?at_set3_eq by is_object;
    now rewrite Ha.
Qed.

(** The document before the atoms are written. *)
Definition rootBeforeAtoms (m : Molecule) : Json.Value :=
  writeBasisSet m
    (writeUnitCell m
       (writeMetadata m (Json.set Json.nullValue "chemical json" (Json.intValue 0)))).

Lemma rootBeforeAtoms_isObject m : Json.isObjectValue (rootBeforeAtoms m) = true.
Proof.
  unfold rootBeforeAtoms.
  apply writeBasisSet_isObject, writeUnitCell_isObject, writeMetadata_isObject. reflexivity.
Qed.

Lemma write_root m :
  fst (write toFractional m) = writeBonds m (writeAtoms toFractional m (rootBeforeAtoms m)).
Proof. reflexivity. Qed.

Lemma write_isObject m : Json.isObjectValue (fst (write toFractional m)) = true.
Proof.
  rewrite write_root.
  apply writeBonds_isObject, writeAtoms_isObject, rootBeforeAtoms_isObject.
Qed.

Lemma write_atoms m : Json.at_ (fst (write toFractional m)) "atoms" = atomsValue m.
Proof.
  rewrite write_root.
  rewrite writeBonds_other by (auto using writeAtoms_isObject, rootBeforeAtoms_isObject).
  apply writeAtoms_atoms; [apply rootBeforeAtoms_isObject|].
  unfold rootBeforeAtoms.
  rewrite writeBasisSet_other, writeUnitCell_other, writeMetadata_other;
    auto using writeUnitCell_isObject, writeMetadata_isObject.
Qed.

End Encoder.

(** The list of positions that are set is as long as the atom list exactly
    when every atom has one, and then it is the list of the positions. *)
Lemma length_omap_le {A B} (f : A -> option B) l : (length (omap f l) <= length l)%nat.
Proof.
  induction l as [|x l IH]; [reflexivity|].
  change (omap f (x :: l)) with (match f x with Some y => y :: omap f l | None => omap f l end).
  destruct (f x); simpl length; lia.
Qed.

Lemma length_omap_all {A B} (f : A -> option B) l :
  length (omap f l) = length l <-> Forall (fun x => is_Some (f x)) l.
Proof.
  induction l as [|x l IH].
  - split; [constructor | reflexivity].
  - pose proof (length_omap_le f l) as Hle.
    change (omap f (x :: l)) with (match f x with Some y => y :: omap f l | None => omap f l end).
    destruct (f x) as [y|] eqn:E; simpl length.
    + split.
      * intros [= H]. constructor; [rewrite E; eauto | now apply IH].
      * intros H. inversion H; subst. f_equal. now apply IH.
    + split; [intros H; lia|]. intros H. inversion H as [|? ? [y Hy] _]; subst. congruence.
Qed.

Lemma omap_all_some {A B} (f : A -> option B) l :
  Forall (fun x => is_Some (f x)) l -> map Some (omap f l) = map f l.
Proof.
  induction 1 as [|x l [y Hy] _ IH]; [reflexivity|].
  change (omap f (x :: l)) with (match f x with Some y => y :: omap f l | None => omap f l end).
  simpl map. rewrite Hy. simpl. now rewrite IH.
Qed.

Lemma omap_all_none {A B} (f : A -> option B) l :
  Forall (fun x => f x = None) l -> omap f l = [].
Proof.
  induction 1 as [|x l Hx _ IH]; [reflexivity|].
  change (omap f (x :: l)) with (match f x with Some y => y :: omap f l | None => omap f l end).
  now rewrite Hx.
Qed.

Section Coordinates.

Context {lib : Json.Library}.

Variable toFractional : UnitCell.t -> Vector3 -> Vector3.

(** The coords member of the document written for [m]. *)
Definition writtenCoords (m : Molecule) : Json.Value :=
  Json.at_ (Json.at_ (fst (write toFractional m)) "atoms") "coords".

(** C7, as the code has it. The written document never holds both the 3d and
    the 3d fractional key.  For a molecule with at least one atom whose atoms
    all have a 3D position, it holds exactly one of them: 3d fractional when a
    unit cell is attached, 3d when none is.  For a molecule without atoms it
    holds neither. *)
Theorem coordinates_exclusive (m : Molecule) :
  ~ (Json.hasKey (writtenCoords m) "3d" = true /\
     Json.hasKey (writtenCoords m) "3d fractional" = true)
  /\ (atoms m <> [] ->
      Forall (fun at0 => is_Some (position3d at0)) (atoms m) ->
      Json.hasKey (writtenCoords m) "3d fractional" = bool_decide (is_Some (unitCell m))
      /\ Json.hasKey (writtenCoords m) "3d" = negb (bool_decide (is_Some (unitCell m))))
  /\ (atoms m = [] ->
      Json.hasKey (writtenCoords m) "3d" = false /\
      Json.hasKey (writtenCoords m) "3d fractional" = false).
Proof.
  unfold writtenCoords. rewrite write_atoms. unfold atomsValue. cbv zeta.
  split; [|split].
  - destruct (negb _); [|now intros [H _]].
    destruct (length (atomPositions3d m) =? atomCount m)%nat;
      destruct (unitCell m);
      destruct (length (atomPositions2d m) =? atomCount m)%nat;
      intros [H1 H2]; vm_compute in H1, H2; first [discriminate H1 | discriminate H2].
  - intros Hne Hall.
    apply length_omap_all in Hall. fold (atomPositions3d m) in Hall.
    unfold atomCount. rewrite Hall, Nat.eqb_refl.
    destruct (atoms m) as [|at0 ats] eqn:Ea; [contradiction|].
    simpl negb. cbv iota.
    destruct (unitCell m); destruct (length (atomPositions2d m) =? _)%nat;
      split; reflexivity.
  - intros Ha. unfold atomCount. rewrite Ha. split; reflexivity.
Qed.

End Coordinates.

(** A molecule of one atom with a 3D position and no unit cell. *)
Definition oneAtomMolecule : Molecule :=
  mkMolecule [mkAtom 6 (Some (mkVector3 1 2 3)) None] [] None None ∅.

Lemma coordinates_exclusive_witness :
  Json.hasKey (writtenCoords Rectangular.toFractional oneAtomMolecule) "3d fractional" = false
  /\ Json.hasKey (writtenCoords Rectangular.toFractional oneAtomMolecule) "3d" = true.
Proof.
  apply (proj1 (proj2 (coordinates_exclusive Rectangular.toFractional oneAtomMolecule))).
  - discriminate.
  - repeat constructor. simpl. eauto.
Defined.

(** C7, as it is worded, fails: in the molecule without atoms every atom has
    a 3D position, and the written document holds neither key. *)
Lemma no_atoms_no_coordinates :
  Forall (fun at0 => is_Some (position3d at0)) (atoms emptyMolecule)
  /\ length (atomPositions3d emptyMolecule) = atomCount emptyMolecule
  /\ Json.hasKey (writtenCoords Rectangular.toFractional emptyMolecule) "3d" = false
  /\ Json.hasKey (writtenCoords Rectangular.toFractional emptyMolecule) "3d fractional" = false.
Proof. repeat split; constructor. Qed.

(** ** Degrees and radians *)

Lemma asDouble_numeric v :
  Json.isNumeric v = true -> Json.asDouble v = Some (default 0%float (Json.asDouble v)).
Proof. now destruct v. Qed.

(** The unit cell block on a unit cell object with six numeric fields. *)
Lemma readUnitCell_numeric root value s :
  Json.isObjectValue root = true ->
  Json.at_ root "unit cell" = value ->
  Json.isObjectValue value = true ->
  numericCell value = true ->
  readUnitCell root s =
  Next tt (mkState
             (setUnitCell
                (UnitCell.make (numberAt value "a") (numberAt value "b") (numberAt value "c")
                   (numberAt value "alpha" * DEG_TO_RAD)
                   (numberAt value "beta" * DEG_TO_RAD)
                   (numberAt value "gamma" * DEG_TO_RAD))
                (molecule s))
             (errors s)).
Proof.
  intros Hroot Hv Hobj Hnum. unfold readUnitCell.
  rewrite (bind_Next _ _ _ _ _ (call_Some _ _ s (member_at _ "unit cell" (isObject_isContainer _ Hroot)))).
  rewrite Hv, Hobj.
  pose proof (isObject_isContainer _ Hobj) as Hc.
  rewrite !(bind_Next _ _ _ _ _ (call_Some _ _ s (member_at _ _ Hc))).
  unfold numericCell in Hnum.
  repeat (apply andb_prop in Hnum; destruct Hnum as [Hnum ?]).
  repeat match goal with
         | H : Json.isNumeric _ = true |- _ =>
             rewrite H; pose proof (asDouble_numeric _ H); clear H
         end.
  cbn [negb orb].
  repeat match goal with
         | H : Json.asDouble _ = Some _ |- _ =>
             rewrite (bind_Next _ _ _ _ _ (call_Some _ _ s H)); clear H
         end.
  reflexivity.
Qed.

(** The unit cell member that [writeUnitCell] writes. *)
Lemma writeUnitCell_cell m cell root :
  Json.isObjectValue root = true -> unitCell m = Some cell ->
  Json.at_ (writeUnitCell m root) "unit cell" = cellValue cell.
Proof.
  intros H Hc. unfold writeUnitCell. rewrite Hc. cbv zeta.
  now rewrite at_set_eq by side.
Qed.



(** ** Loops *)

Lemma state_eta s : mkState (molecule s) (errors s) = s.
Proof. now destruct s. Qed.

Lemma collectFrom_length {V} (f : nat -> option V) n : forall k vs,
  collectFrom k n f = Some vs -> length vs = n.
Proof.
  induction n as [|n IH]; intros k vs; simpl.
  - now intros [= <-].
  - destruct (f k) as [v|]; [|discriminate].
    destruct (collectFrom (S k) n f) as [vs'|] eqn:E; [|discriminate].
    intros [= <-]. simpl. f_equal. now apply IH with (k := S k).
Qed.

Lemma collectFrom_pointwise {V} (f : nat -> option V) (vs : list V) : forall k,
  (forall i v, vs !! i = Some v -> f (k + i)%nat = Some v) ->
  collectFrom k (length vs) f = Some vs.
Proof.
  induction vs as [|v vs IH]; intros k H; simpl; [reflexivity|].
  rewrite <- (Nat.add_0_r k) at 1. rewrite (H 0%nat v eq_refl).
  rewrite IH; [reflexivity|].
  intros i w Hi. replace (S k + i)%nat with (k + S i)%nat by lia. now apply H.
Qed.

(** A loop whose body reads a value and updates the molecule with it: it
    falls through with the updates applied in order when every read returns,
    and is left by an exception otherwise. *)
Lemma forFrom_updates {V} (f : nat -> option V) (g : nat -> V -> Molecule -> Molecule) body :
  (forall i s, body i s = match f i with
                          | Some v => Next tt (mkState (g i v (molecule s)) (errors s))
                          | None => Raise s
                          end) ->
  forall n k s,
    match collectFrom k n f with
    | Some vs =>
        forFrom k n body s = Next tt (mkState (applyFrom g k vs (molecule s)) (errors s))
    | None => exists s', forFrom k n body s = Raise s'
    end.
Proof.
  intros Hb. induction n as [|n IH]; intros k s; simpl.
  - unfold next. now rewrite state_eta.
  - unfold bind. rewrite Hb. destruct (f k) as [v|]; [|eauto].
    specialize (IH (S k) (mkState (g k v (molecule s)) (errors s))).
    destruct (collectFrom (S k) n f) as [vs|]; simpl; [|exact IH].
    exact IH.
Qed.

Lemma forFrom_updates_Next {V} (f : nat -> option V) g body n k s x s' :
  (forall i s, body i s = match f i with
                          | Some v => Next tt (mkState (g i v (molecule s)) (errors s))
                          | None => Raise s
                          end) ->
  forFrom k n body s = Next x s' ->
  exists vs, collectFrom k n f = Some vs /\ length vs = n /\
             s' = mkState (applyFrom g k vs (molecule s)) (errors s).
Proof.
  intros Hb H. pose proof (forFrom_updates f g body Hb n k s) as Hl.
  destruct (collectFrom k n f) as [vs|] eqn:E.
  - exists vs. split; [reflexivity|]. split; [eapply collectFrom_length; eauto|].
    rewrite Hl in H. now injection H as <-.
  - destruct Hl as [s1 Hl]. rewrite Hl in H. discriminate.
Qed.

(** *** What the updates of each loop amount to *)

Lemma applyFrom_addAtom (h : Z -> Z) vs : forall k m,
  applyFrom (fun _ v => addAtom (h v)) k vs m =
  withAtoms (atoms m ++ map (fun v => mkAtom (h v) None None) vs) m.
Proof.
  induction vs as [|v vs IH]; intros k m; simpl.
  - unfold withAtoms. rewrite app_nil_r. now destruct m.
  - rewrite IH. unfold withAtoms, addAtom. simpl. now rewrite <- app_assoc.
Qed.

Lemma applyFrom_setPosition3d vs : forall k m,
  applyFrom setPosition3d k vs m = withAtoms (alterFrom withPosition3d k vs (atoms m)) m.
Proof.
  induction vs as [|v vs IH]; intros k m; simpl.
  - now destruct m.
  - now rewrite IH.
Qed.

Lemma applyFrom_setPosition2d vs : forall k m,
  applyFrom setPosition2d k vs m = withAtoms (alterFrom withPosition2d k vs (atoms m)) m.
Proof.
  induction vs as [|v vs IH]; intros k m; simpl.
  - now destruct m.
  - now rewrite IH.
Qed.

Lemma applyFrom_setOrder (h : Z -> Z) vs : forall k m,
  applyFrom (fun i v => setOrder i (h v)) k vs m =
  withBondList (alterFrom (fun v => withOrder (h v)) k vs (bonds m)) m.
Proof.
  induction vs as [|v vs IH]; intros k m; simpl.
  - now destruct m.
  - now rewrite IH.
Qed.

Lemma setPositionsFrom_alterFrom ps : forall k m,
  setPositionsFrom k ps m = withAtoms (alterFrom withPosition3d k ps (atoms m)) m.
Proof.
  induction ps as [|p ps IH]; intros k m; simpl.
  - now destruct m.
  - now rewrite IH.
Qed.

(** Altering a whole list position by position. *)
Lemma alterFrom_app {A V} (h : V -> A -> A) vs : forall pre suf,
  length vs = length suf ->
  alterFrom h (length pre) vs (pre ++ suf) = pre ++ zip_with h vs suf.
Proof.
  induction vs as [|v vs IH]; intros pre suf Hlen; destruct suf as [|x suf]; try discriminate.
  - reflexivity.
  - simpl. rewrite <- (Nat.add_0_r (length pre)). rewrite alter_app_r. simpl.
    replace (S (length pre + 0)) with (length (pre ++ [h v x])) by (rewrite length_app; simpl; lia).
    replace (pre ++ h v x :: suf) with ((pre ++ [h v x]) ++ suf) by now rewrite <- app_assoc.
    rewrite IH by (simpl in Hlen; lia). now rewrite <- app_assoc.
Qed.

Lemma alterFrom_zip {A V} (h : V -> A -> A) vs l :
  length vs = length l -> alterFrom h 0 vs l = zip_with h vs l.
Proof. intros H. exact (alterFrom_app h vs [] l H). Qed.

(** Looking up a list flattened in groups of [c]. *)
Lemma lookup_flat_map_const {A B} (f : A -> list B) (c : nat) l : forall i j x,
  (forall y, length (f y) = c) -> l !! i = Some x -> (j < c)%nat ->
  flat_map f l !! (c * i + j)%nat = f x !! j.
Proof.
  induction l as [|a l IH]; intros i j x Hc Hi Hj; [discriminate|].
  destruct i as [|i]; simpl in *.
  - injection Hi as ->. rewrite Nat.mul_0_r. simpl. apply lookup_app_l. now rewrite Hc.
  - replace (c * S i + j)%nat with (length (f a) + (c * i + j))%nat by (rewrite Hc; lia).
    rewrite lookup_app_r by lia.
    replace (length (f a) + (c * i + j) - length (f a))%nat with (c * i + j)%nat by lia.
    now apply IH.
Qed.

(** ** The shape of a decoded molecule *)

Lemma alterFrom_length {A V} (h : V -> A -> A) vs : forall k l,
  length (alterFrom h k vs l) = length l.
Proof.
  induction vs as [|v vs IH]; intros k l; simpl; [reflexivity|].
  now rewrite IH, length_alter.
Qed.

Lemma alterFrom_Forall {A V} (P : A -> Prop) (h : V -> A -> A) vs :
  (forall v x, P x -> P (h v x)) ->
  forall k l, Forall P l -> Forall P (alterFrom h k vs l).
Proof.
  intros Hh. induction vs as [|v vs IH]; intros k l Hl; simpl; [exact Hl|].
  apply IH. apply Forall_alter; [exact Hl|]. intros x _. apply Hh.
Qed.

Lemma map_alter_id {A B} (proj : A -> B) (f : A -> A) :
  (forall x, proj (f x) = proj x) ->
  forall l k, map proj (alter f k l) = map proj l.
Proof.
  intros Hf. induction l as [|x l IH]; intros [|k]; simpl; try reflexivity.
  - now rewrite Hf.
  - f_equal. apply IH.
Qed.

Lemma alterFrom_map {A B V} (proj : A -> B) (h : V -> A -> A) vs :
  (forall v x, proj (h v x) = proj x) ->
  forall k l, map proj (alterFrom h k vs l) = map proj l.
Proof.
  intros Hh. induction vs as [|v vs IH]; intros k l; simpl; [reflexivity|].
  rewrite IH. apply map_alter_id. intros x. apply Hh.
Qed.

Lemma zip_with_map_proj {A B V} (proj : A -> B) (h : V -> A -> A) (e : V -> B) :
  (forall v x, proj (h v x) = e v) ->
  forall vs l, length vs = length l -> map proj (zip_with h vs l) = map e vs.
Proof.
  intros Hh. induction vs as [|v vs IH]; intros [|x l] Hlen; try discriminate; simpl.
  - reflexivity.
  - rewrite Hh. f_equal. apply IH. simpl in Hlen. lia.
Qed.

Lemma uniform_Some {A} (vs : list A) : uniform (map Some vs).
Proof. left. apply Forall_map. apply Forall_forall. intros x _. simpl. eauto. Qed.

Lemma nameAndInchi_empty : nameAndInchi ∅.
Proof. intros k v H. now rewrite lookup_empty in H. Qed.

Lemma nameAndInchi_insert k s d :
  k = "name" \/ k = "inchi" -> nameAndInchi d -> nameAndInchi (<[k := VString s]> d).
Proof.
  intros Hk Hd k' v. rewrite lookup_insert. case_decide as E.
  - intros [= <-]. now subst.
  - apply Hd.
Qed.

(** *** Reading back how a statement has fallen through *)

Lemma bind_Next_inv {A B} (m : Stmt A) (k : A -> Stmt B) s y s2 :
  bind m k s = Next y s2 -> exists x s1, m s = Next x s1 /\ k x s1 = Next y s2.
Proof.
  unfold bind. destruct (m s) as [x s1|status s1|s1]; try discriminate. eauto.
Qed.

Lemma call_Next_inv {A} (o : option A) s x s1 :
  call o s = Next x s1 -> o = Some x /\ s1 = s.
Proof. destruct o; simpl; [|discriminate]. now intros [= -> ->]. Qed.

Lemma update_Next_inv f s x s1 :
  update f s = Next x s1 -> s1 = mkState (f (molecule s)) (errors s).
Proof. now intros [= _ <-]. Qed.

Lemma next_Next_inv {A} (x y : A) s s1 : next x s = Next y s1 -> y = x /\ s1 = s.
Proof. now intros [= -> ->]. Qed.

Ltac inv_stmt :=
  repeat match goal with
         | H : bind _ _ _ = Next _ _ |- _ =>
             apply bind_Next_inv in H; destruct H as (? & ? & ? & H)
         | H : call _ _ = Next _ _ |- _ =>
             apply call_Next_inv in H; destruct H as [? ?]; subst
         | H : update _ _ = Next _ _ |- _ => apply update_Next_inv in H; subst
         | H : next _ _ = Next _ _ |- _ =>
             apply next_Next_inv in H; destruct H as [? ?]; subst
         | H : return_ _ _ = Next _ _ |- _ => discriminate H
         | H : (if ?c then _ else _) _ = Next _ _ |- _ => destruct c eqn:?
         end.

Lemma readMetadata_Next root s x s' :
  readMetadata root s = Next x s' ->
  errors s' = errors s /\
  atoms (molecule s') = atoms (molecule s) /\ bonds (molecule s') = bonds (molecule s) /\
  unitCell (molecule s') = unitCell (molecule s) /\
  basisSet (molecule s') = basisSet (molecule s) /\
  (nameAndInchi (data (molecule s)) -> nameAndInchi (data (molecule s'))).
Proof.
  unfold readMetadata. intros H. inv_stmt; simpl;
    repeat apply conj; auto using nameAndInchi_insert.
Qed.

Lemma readUnitCell_Next root s x s' :
  readUnitCell root s = Next x s' ->
  errors s' = errors s /\
  atoms (molecule s') = atoms (molecule s) /\ bonds (molecule s') = bonds (molecule s) /\
  basisSet (molecule s') = basisSet (molecule s) /\
  data (molecule s') = data (molecule s).
Proof.
  unfold readUnitCell. intros H. inv_stmt; simpl; repeat apply conj; reflexivity.
Qed.

Lemma to_uchar_range z : 0 <= to_uchar z < 256.
Proof. unfold to_uchar. apply Z.mod_pos_bound. lia. Qed.

Lemma to_Index_range z : 0 <= to_Index z < 2 ^ 64.
Proof. unfold to_Index. apply Z.mod_pos_bound. lia. Qed.

Lemma uniform_None {A B} (l : list B) : uniform (map (fun _ => @None A) l).
Proof. right. apply Forall_map. now apply Forall_forall. Qed.

(** The atoms block on a molecule without atoms. *)
Lemma readAtoms_shape {lib} root s r s' :
  beforeAtoms (molecule s) ->
  readAtoms lib root s = Next r s' ->
  beforeBonds (snd r) (molecule s') /\ snd r <> 0%nat /\
  unitCell (molecule s') = unitCell (molecule s) /\ errors s' = errors s.
Proof.
  intros (Ha & Hb & Hbs & Hd) H.
  destruct (readAtoms_Next _ _ _ _ H) as (numbers & _ & _ & Hn & Hne & Hloop).
  unfold for_ in Hloop.
  apply (forFrom_updates_Next
           (fun i => Json.asInt (Json.get (Json.arrayValue numbers) i (Json.intValue 0)))
           (fun _ v => addAtom (to_uchar v))) in Hloop.
  2:{ intros i s1. unfold bind, call. now destruct (Json.asInt _). }
  destruct Hloop as (vs & _ & Hlen & ->). simpl.
  rewrite applyFrom_addAtom, Ha. simpl. unfold beforeBonds. simpl.
  rewrite !map_map. simpl.
  repeat apply conj; auto.
  - rewrite length_map. congruence.
  - apply Forall_map. apply Forall_forall. intros z _. apply to_uchar_range.
  - apply uniform_None.
  - apply uniform_None.
  - rewrite Hn. now destruct numbers.
Qed.

Lemma beforeBonds_withAtoms n m ats :
  beforeBonds n m ->
  length ats = n ->
  map atomicNumber ats = map atomicNumber (atoms m) ->
  uniform (map position3d ats) -> uniform (map position2d ats) ->
  beforeBonds n (withAtoms ats m).
Proof.
  intros (H1 & H2 & H3 & H4 & H5 & H6 & H7) Hl Hn H3' H2'.
  unfold beforeBonds. simpl. rewrite Hn. repeat apply conj; auto.
Qed.

(** Setting the 3D position of every atom. *)
Lemma beforeBonds_positions3d n m ps :
  beforeBonds n m -> length ps = n ->
  beforeBonds n (withAtoms (alterFrom withPosition3d 0 ps (atoms m)) m).
Proof.
  intros Hm Hl. pose proof Hm as (H1 & H2 & H3 & H4 & _).
  apply beforeBonds_withAtoms; auto.
  - now rewrite alterFrom_length.
  - now apply alterFrom_map.
  - rewrite alterFrom_zip by congruence.
    rewrite (zip_with_map_proj position3d withPosition3d Some) by (auto; congruence).
    apply uniform_Some.
  - now rewrite alterFrom_map.
Qed.

Lemma beforeBonds_positions2d n m ps :
  beforeBonds n m -> length ps = n ->
  beforeBonds n (withAtoms (alterFrom withPosition2d 0 ps (atoms m)) m).
Proof.
  intros Hm Hl. pose proof Hm as (H1 & H2 & H3 & H4 & _).
  apply beforeBonds_withAtoms; auto.
  - now rewrite alterFrom_length.
  - now apply alterFrom_map.
  - now rewrite alterFrom_map.
  - rewrite alterFrom_zip by congruence.
    rewrite (zip_with_map_proj position2d withPosition2d Some) by (auto; congruence).
    apply uniform_Some.
Qed.

Lemma coords3d_body value i s :
  (do x <- call (Json.asDouble (Json.get value (3 * i + 0) (Json.intValue 0)));
   do y <- call (Json.asDouble (Json.get value (3 * i + 1) (Json.intValue 0)));
   do z <- call (Json.asDouble (Json.get value (3 * i + 2) (Json.intValue 0)));
   update (setPosition3d i (mkVector3 x y z))) s =
  match coords3dAt value i with
  | Some v => Next tt (mkState (setPosition3d i v (molecule s)) (errors s))
  | None => Raise s
  end.
Proof.
  unfold coords3dAt, bind, call.
  destruct (Json.asDouble _); simpl; [|reflexivity].
  destruct (Json.asDouble _); simpl; [|reflexivity].
  destruct (Json.asDouble _); simpl; reflexivity.
Qed.

Lemma coords2d_body value i s :
  (do x <- call (Json.asDouble (Json.get value (2 * i + 0) (Json.intValue 0)));
   do y <- call (Json.asDouble (Json.get value (2 * i + 1) (Json.intValue 0)));
   update (setPosition2d i (mkVector2 x y))) s =
  match coords2dAt value i with
  | Some v => Next tt (mkState (setPosition2d i v (molecule s)) (errors s))
  | None => Raise s
  end.
Proof.
  unfold coords2dAt, bind, call.
  destruct (Json.asDouble _); simpl; [|reflexivity].
  destruct (Json.asDouble _); simpl; reflexivity.
Qed.

Lemma beforeBonds_eta n s :
  beforeBonds n (molecule s) -> beforeBonds n (molecule (mkState (molecule s) (errors s))).
Proof. now intros H. Qed.

Lemma readCoords3d_shape {lib} coords n s x s' :
  beforeBonds n (molecule s) ->
  readCoords3d lib coords n s = Next x s' ->
  beforeBonds n (molecule s') /\ unitCell (molecule s') = unitCell (molecule s).
Proof.
  intros Hm H. unfold readCoords3d, for_ in H. inv_stmt; [|now split].
  match goal with
  | H0 : Json.member coords _ = Some ?v |- _ =>
      apply (forFrom_updates_Next (coords3dAt v) setPosition3d) in H
  end.
  2:{ intros i s1. apply coords3d_body. }
  destruct H as (vs & _ & Hlen & ->). simpl.
  rewrite applyFrom_setPosition3d. split; [|reflexivity].
  now apply beforeBonds_positions3d.
Qed.

Lemma readCoords2d_shape {lib} coords n s x s' :
  beforeBonds n (molecule s) ->
  readCoords2d lib coords n s = Next x s' ->
  beforeBonds n (molecule s') /\ unitCell (molecule s') = unitCell (molecule s).
Proof.
  intros Hm H. unfold readCoords2d, for_ in H. inv_stmt; [|now split].
  match goal with
  | H0 : Json.member coords _ = Some ?v |- _ =>
      apply (forFrom_updates_Next (coords2dAt v) setPosition2d) in H
  end.
  2:{ intros i s1. apply coords2d_body. }
  destruct H as (vs & _ & Hlen & ->). simpl.
  rewrite applyFrom_setPosition2d. split; [|reflexivity].
  now apply beforeBonds_positions2d.
Qed.

Section Shape.

Context {lib : Json.Library}.

Variable toCartesian : UnitCell.t -> Vector3 -> Vector3.

Lemma readCoordsFractional_shape coords n s x s' :
  beforeBonds n (molecule s) ->
  readCoordsFractional toCartesian coords n s = Next x s' ->
  beforeBonds n (molecule s') /\ unitCell (molecule s') = unitCell (molecule s).
Proof.
  intros Hm H. unfold readCoordsFractional in H. inv_stmt; [|now split].
  cbv beta in H. destruct (unitCell (molecule s)) as [cell|] eqn:Ec.
  - inv_stmt. cbn [molecule errors]. split; [|now rewrite setFractionalCoordinates_unitCell].
    unfold setFractionalCoordinates. rewrite Ec, setPositionsFrom_alterFrom.
    apply beforeBonds_positions3d; [exact Hm|].
    rewrite length_map. eapply collectFrom_length; eauto.
  - inv_stmt.
Qed.

Lemma readCoords_shape atoms n s x s' :
  beforeBonds n (molecule s) ->
  readCoords lib toCartesian atoms n s = Next x s' ->
  beforeBonds n (molecule s') /\ unitCell (molecule s') = unitCell (molecule s).
Proof.
  intros Hm H. unfold readCoords in H. inv_stmt; [|now split].
  match goal with H3 : readCoords3d lib _ _ _ = _ |- _ =>
    destruct (readCoords3d_shape _ _ _ _ _ Hm H3) as [Hm3 Hc3] end.
  match goal with H2 : readCoords2d lib _ _ _ = _ |- _ =>
    destruct (readCoords2d_shape _ _ _ _ _ Hm3 H2) as [Hm2 Hc2] end.
  destruct (readCoordsFractional_shape _ _ _ _ _ Hm2 H) as [Hmf Hcf].
  split; [exact Hmf | congruence].
Qed.

End Shape.

Lemma pair_body value k s :
  (let i := (2 * k)%nat in
   do i1 <- call (Json.asInt (Json.get value (i + 0) (Json.intValue 0)));
   do i2 <- call (Json.asInt (Json.get value (i + 1) (Json.intValue 0)));
   update (addBond (to_Index i1) (to_Index i2))) s =
  match pairAt value k with
  | Some v => Next tt (mkState (addBond (to_Index (fst v)) (to_Index (snd v)) (molecule s))
                               (errors s))
  | None => Raise s
  end.
Proof.
  unfold pairAt, bind, call. cbv zeta.
  destruct (Json.asInt _); simpl; [|reflexivity].
  destruct (Json.asInt _); simpl; reflexivity.
Qed.

Lemma order_body value i s :
  (do o <- call (Json.asInt (Json.get value i (Json.intValue 1)));
   update (setOrder i (to_uchar o))) s =
  match Json.asInt (Json.get value i (Json.intValue 1)) with
  | Some v => Next tt (mkState (setOrder i (to_uchar v) (molecule s)) (errors s))
  | None => Raise s
  end.
Proof. unfold bind, call. now destruct (Json.asInt _). Qed.

Lemma applyFrom_addBond vs : forall k m,
  applyFrom (fun (_ : nat) (v : Z * Z) => addBond (to_Index (fst v)) (to_Index (snd v))) k vs m =
  withBondList (bonds m ++ map bondOfPair vs) m.
Proof.
  induction vs as [|v vs IH]; intros k m; simpl.
  - unfold withBondList. rewrite app_nil_r. now destruct m.
  - rewrite IH. unfold withBondList, addBond. simpl. now rewrite <- app_assoc.
Qed.

(** What the pair loop and the order loop leave, when they fall through. *)
Lemma readConnections_Next {lib} value s n s' :
  readConnections lib value s = Next n s' ->
  (exists vs, length vs = n /\
              s' = mkState (withBondList (bonds (molecule s) ++ map bondOfPair vs) (molecule s))
                           (errors s))
  \/ (n = 0%nat /\ s' = logged msgWarning s).
Proof.
  intros H. unfold readConnections, for_ in H. cbv zeta in H. inv_stmt.
  - left.
    match goal with H1 : forFrom _ _ _ _ = _ |- _ =>
      apply (forFrom_updates_Next (pairAt value)
               (fun _ v => addBond (to_Index (fst v)) (to_Index (snd v)))) in H1;
      [destruct H1 as (vs & _ & Hlen & ->) | intros i s1; apply pair_body]
    end.
    exists vs. split; [exact Hlen|]. simpl. now rewrite applyFrom_addBond.
  - right. unfold appendError in *. 
    match goal with H1 : Next _ _ = Next _ _ |- _ => injection H1 as <- end.
    now split.
Qed.

Lemma readOrders_Next {lib} value n s x s' :
  readOrders lib value n s = Next x s' ->
  s' = s \/
  exists vs, s' = mkState (withBondList
                             (alterFrom (fun v => withOrder (to_uchar v)) 0 vs
                                        (bonds (molecule s))) (molecule s))
                          (errors s).
Proof.
  intros H. unfold readOrders, for_ in H. inv_stmt; [|now left].
  right.
  apply (forFrom_updates_Next
           (fun i => Json.asInt (Json.get value i (Json.intValue 1)))
           (fun i v => setOrder i (to_uchar v))) in H;
    [|intros i s1; apply order_body].
  destruct H as (vs & _ & _ & ->). exists vs.
  now rewrite (applyFrom_setOrder to_uchar).
Qed.

Definition bondInRange (bd : Bond) : Prop :=
  0 <= atom1 bd /\ 0 <= atom2 bd /\ 0 <= order bd < 256.

Lemma bondOfPair_inRange vs : Forall bondInRange (map bondOfPair vs).
Proof.
  apply Forall_map, Forall_forall. intros p _. unfold bondInRange, bondOfPair. simpl.
  pose proof (to_Index_range (fst p)). pose proof (to_Index_range (snd p)). lia.
Qed.

Lemma readBonds_shape {lib} root n s x s' :
  beforeBonds n (molecule s) -> n <> 0%nat ->
  readBonds lib root s = Next x s' ->
  decoded (molecule s') /\ unitCell (molecule s') = unitCell (molecule s).
Proof.
  intros (H1 & H2 & H3 & H4 & H5 & H6 & H7) Hn H.
  assert (Hdec : forall bds, Forall bondInRange bds ->
                   decoded (withBondList bds (molecule s))).
  { intros bds Hb. unfold decoded. simpl. repeat apply conj; auto.
    intros E. apply Hn. rewrite <- H1, E. reflexivity. }
  assert (Hsame : decoded (molecule s)).
  { specialize (Hdec [] (List.Forall_nil _)). unfold withBondList in Hdec.
    rewrite <- H5 in Hdec. now destruct (molecule s). }
  unfold readBonds in H. inv_stmt; [|now split].
  match goal with Hc : readConnections lib _ _ = _ |- _ =>
    apply readConnections_Next in Hc; destruct Hc as [(vs & _ & ->)|[-> ->]] end;
    apply readOrders_Next in H; destruct H as [->|(os & ->)]; simpl;
    try (split; [|reflexivity]).
  - apply Hdec. rewrite H5. simpl. apply bondOfPair_inRange.
  - rewrite H5. simpl.
    change (decoded (withBondList
                       (alterFrom (fun v => withOrder (to_uchar v)) 0 os (map bondOfPair vs))
                       (molecule s))).
    apply Hdec. apply alterFrom_Forall; [|apply bondOfPair_inRange].
    intros v bd (Ha1 & Ha2 & _). unfold bondInRange. simpl.
    pose proof (to_uchar_range v). lia.
  - exact Hsame.
  - rewrite H5. simpl.
    change (decoded (withBondList
                       (alterFrom (fun v => withOrder (to_uchar v)) 0 os []) (molecule s))).
    apply Hdec. apply alterFrom_Forall; [|constructor].
    intros v bd (Ha1 & Ha2 & _). unfold bondInRange. simpl.
    pose proof (to_uchar_range v). lia.
Qed.

(** ** A successful decoding *)

Lemma bind_success_inv {A B} (m : Stmt A) (k : A -> Stmt B) s s2 :
  neverSucceeds m ->
  bind m k s = Return true s2 -> exists x s1, m s = Next x s1 /\ k x s1 = Return true s2.
Proof.
  intros Hn. unfold bind. specialize (Hn s).
  destruct (m s) as [x s1|[] s1|s1]; try discriminate; [eauto | contradiction].
Qed.

Lemma readConnections_neverSucceeds {lib} value : neverSucceeds (readConnections lib value).
Proof. unfold readConnections, for_. never_succeeds. Qed.

Lemma readOrders_neverSucceeds {lib} value n : neverSucceeds (readOrders lib value n).
Proof. unfold readOrders, for_. never_succeeds. Qed.

Lemma readBonds_neverSucceeds {lib} root : neverSucceeds (readBonds lib root).
Proof.
  unfold readBonds.
  apply neverSucceeds_bind; [apply neverSucceeds_call|]. intros bonds.
  apply neverSucceeds_if; [|apply neverSucceeds_next].
  apply neverSucceeds_bind; [apply neverSucceeds_call|]. intros value.
  apply neverSucceeds_if.
  { apply neverSucceeds_bind; [apply neverSucceeds_appendError|]. intros _.
    apply neverSucceeds_false. }
  apply neverSucceeds_bind; [apply neverSucceeds_call|]. intros index.
  apply neverSucceeds_bind; [apply readConnections_neverSucceeds|]. intros bondCount.
  apply neverSucceeds_bind; [apply neverSucceeds_call|]. intros order.
  apply readOrders_neverSucceeds.
Qed.

Section Success.

Context {lib : Json.Library}.

Variable toCartesian : UnitCell.t -> Vector3 -> Vector3.

Lemma readCoordsFractional_neverSucceeds coords n :
  neverSucceeds (readCoordsFractional toCartesian coords n).
Proof.
  unfold readCoordsFractional.
  apply neverSucceeds_bind; [apply neverSucceeds_call|]. intros value.
  apply neverSucceeds_if; [|apply neverSucceeds_next].
  intros s. destruct (unitCell (molecule s));
    match goal with
    | |- notSuccess (?m s) =>
        let Hx := fresh in assert (Hx : neverSucceeds m) by never_succeeds; apply Hx
    end.
Qed.

Lemma readCoords_neverSucceeds atoms n : neverSucceeds (readCoords lib toCartesian atoms n).
Proof.
  unfold readCoords.
  apply neverSucceeds_bind; [apply neverSucceeds_call|]. intros coords.
  apply neverSucceeds_if; [|apply neverSucceeds_next].
  apply neverSucceeds_bind; [apply readCoords3d_neverSucceeds|]. intros _.
  apply neverSucceeds_bind; [apply readCoords2d_neverSucceeds|]. intros _.
  apply readCoordsFractional_neverSucceeds.
Qed.

(** A successful [read] has fallen through every block. *)
Lemma read_success root s0 s :
  read lib toCartesian root s0 = Return true s ->
  exists s1 s2 s3 r s4 s5,
    readRoot lib root s0 = Next tt s1 /\ readMetadata root s1 = Next tt s2 /\
    readUnitCell root s2 = Next tt s3 /\ readAtoms lib root s3 = Next r s4 /\
    readCoords lib toCartesian (fst r) (snd r) s4 = Next tt s5 /\
    readBonds lib root s5 = Next tt s.
Proof.
  unfold read. intros H.
  apply bind_success_inv in H; [|apply readRoot_neverSucceeds].
  destruct H as ([] & s1 & H1 & H).
  apply bind_success_inv in H; [|apply readMetadata_neverSucceeds].
  destruct H as ([] & s2 & H2 & H).
  apply bind_success_inv in H; [|apply readUnitCell_neverSucceeds].
  destruct H as ([] & s3 & H3 & H).
  apply bind_success_inv in H; [|apply readAtoms_neverSucceeds].
  destruct H as (r & s4 & H4 & H).
  apply bind_success_inv in H; [|apply readCoords_neverSucceeds].
  destruct H as ([] & s5 & H5 & H).
  apply bind_success_inv in H; [|apply readBonds_neverSucceeds].
  destruct H as ([] & s6 & H6 & H).
  injection H as <-. now exists s1, s2, s3, r, s4, s5.
Qed.

(** The molecule that a successful [read] makes of a fresh one. *)
Lemma read_decoded root s :
  read lib toCartesian root freshState = Return true s -> decoded (molecule s).
Proof.
  intros H. destruct (read_success _ _ _ H) as (s1 & s2 & s3 & r & s4 & s5 & H1 & H2 & H3 & H4 & H5 & H6).
  destruct (readRoot_Next _ _ _ _ H1) as (_ & _ & ->).
  destruct (readMetadata_Next _ _ _ _ H2) as (_ & Ma & Mb & _ & Mbs & Md).
  destruct (readUnitCell_Next _ _ _ _ H3) as (_ & Ua & Ub & Ubs & Ud).
  assert (Hpre : beforeAtoms (molecule s3)).
  { unfold beforeAtoms. rewrite Ua, Ub, Ubs, Ud, Ma, Mb, Mbs.
    repeat apply conj; try reflexivity. apply Md. apply nameAndInchi_empty. }
  destruct (readAtoms_shape _ _ _ _ Hpre H4) as (Hmid & Hn & _).
  destruct (readCoords_shape _ _ _ _ _ _ Hmid H5) as (Hmid' & _).
  now destruct (readBonds_shape _ _ _ _ _ Hmid' Hn H6).
Qed.

End Success.

(** ** Reading what was written *)

Lemma flatten3_length ps : length (flatten3 ps) = (3 * length ps)%nat.
Proof. unfold flatten3. induction ps as [|p ps IH]; simpl; [reflexivity|]. rewrite IH. lia. Qed.

Lemma flatten2_length ps : length (flatten2 ps) = (2 * length ps)%nat.
Proof. unfold flatten2. induction ps as [|p ps IH]; simpl; [reflexivity|]. rewrite IH. lia. Qed.

Lemma coords3dAt_flatten3 ps i p :
  ps !! i = Some p -> coords3dAt (Json.arrayValue (flatten3 ps)) i = Some p.
Proof.
  intros H. unfold coords3dAt, flatten3. simpl.
  rewrite !(lookup_flat_map_const _ 3 ps i _ p) by (auto; lia).
  simpl. now destruct p.
Qed.

Lemma fractionalAt_flatten3 ps i p :
  ps !! i = Some p -> fractionalAt (Json.arrayValue (flatten3 ps)) i = Some p.
Proof.
  intros H. unfold fractionalAt, flatten3. simpl.
  rewrite (Nat.mul_comm i 3).
  rewrite !(lookup_flat_map_const _ 3 ps i _ p) by (auto; lia).
  simpl. now destruct p.
Qed.

Lemma coords2dAt_flatten2 ps i p :
  ps !! i = Some p -> coords2dAt (Json.arrayValue (flatten2 ps)) i = Some p.
Proof.
  intros H. unfold coords2dAt, flatten2. simpl.
  rewrite !(lookup_flat_map_const _ 2 ps i _ p) by (auto; lia).
  simpl. now destruct p.
Qed.

Lemma size_check_passes (c n : nat) :
  c <> 0%nat -> negb (c * n =? 0)%nat && negb (n =? (c * n) / c)%nat = false.
Proof.
  intros Hc. rewrite Nat.mul_comm, Nat.div_mul by exact Hc.
  rewrite Nat.eqb_refl. simpl. apply andb_false_r.
Qed.

Lemma forFrom_updates_eval {V} (f : nat -> option V) g body (vs : list V) s :
  (forall i s, body i s = match f i with
                          | Some v => Next tt (mkState (g i v (molecule s)) (errors s))
                          | None => Raise s
                          end) ->
  (forall i v, vs !! i = Some v -> f i = Some v) ->
  forFrom 0 (length vs) body s = Next tt (mkState (applyFrom g 0 vs (molecule s)) (errors s)).
Proof.
  intros Hb Hf. pose proof (forFrom_updates f g body Hb (length vs) 0%nat s) as H.
  rewrite (collectFrom_pointwise f vs 0%nat) in H; [exact H|].
  intros i v Hi. now apply Hf.
Qed.

Lemma readCoords3d_written {lib} coords ps s :
  Json.member coords "3d" = Some (Json.arrayValue (flatten3 ps)) ->
  readCoords3d lib coords (length ps) s =
  Next tt (mkState (withAtoms (alterFrom withPosition3d 0 ps (atoms (molecule s))) (molecule s))
                   (errors s)).
Proof.
  intros Hm. unfold readCoords3d.
  rewrite (bind_Next _ _ _ _ _ (call_Some _ _ s Hm)). cbn [Json.isArray Json.isArrayValue Json.size].
  rewrite flatten3_length, size_check_passes by lia.
  unfold for_.
  rewrite (forFrom_updates_eval (coords3dAt (Json.arrayValue (flatten3 ps))) setPosition3d _ ps).
  - now rewrite applyFrom_setPosition3d.
  - intros i s1. apply coords3d_body.
  - intros i v. apply coords3dAt_flatten3.
Qed.

Lemma readCoords3d_none {lib} coords v n s :
  Json.member coords "3d" = Some v -> Json.isArray lib v = false ->
  readCoords3d lib coords n s = Next tt s.
Proof.
  intros Hm Ha. unfold readCoords3d.
  rewrite (bind_Next _ _ _ _ _ (call_Some _ _ s Hm)). now rewrite Ha.
Qed.

Lemma readCoords2d_written {lib} coords ps s :
  Json.member coords "2d" = Some (Json.arrayValue (flatten2 ps)) ->
  readCoords2d lib coords (length ps) s =
  Next tt (mkState (withAtoms (alterFrom withPosition2d 0 ps (atoms (molecule s))) (molecule s))
                   (errors s)).
Proof.
  intros Hm. unfold readCoords2d.
  rewrite (bind_Next _ _ _ _ _ (call_Some _ _ s Hm)). cbn [Json.isArray Json.isArrayValue Json.size].
  rewrite flatten2_length, size_check_passes by lia.
  unfold for_.
  rewrite (forFrom_updates_eval (coords2dAt (Json.arrayValue (flatten2 ps))) setPosition2d _ ps).
  - now rewrite applyFrom_setPosition2d.
  - intros i s1. apply coords2d_body.
  - intros i v. apply coords2dAt_flatten2.
Qed.

Lemma readCoords2d_none {lib} coords v n s :
  Json.member coords "2d" = Some v -> Json.isArray lib v = false ->
  readCoords2d lib coords n s = Next tt s.
Proof.
  intros Hm Ha. unfold readCoords2d.
  rewrite (bind_Next _ _ _ _ _ (call_Some _ _ s Hm)). now rewrite Ha.
Qed.

Section ReadWritten.

Context {lib : Json.Library}.

Variable toCartesian : UnitCell.t -> Vector3 -> Vector3.

Lemma readCoordsFractional_written coords fs cell s :
  Json.member coords "3d fractional" = Some (Json.arrayValue (flatten3 fs)) ->
  unitCell (molecule s) = Some cell ->
  readCoordsFractional toCartesian coords (length fs) s =
  Next tt (mkState (withAtoms (alterFrom withPosition3d 0 (map (toCartesian cell) fs)
                                         (atoms (molecule s))) (molecule s))
                   (errors s)).
Proof.
  intros Hm Hc. unfold readCoordsFractional.
  rewrite (bind_Next _ _ _ _ _ (call_Some _ _ s Hm)). cbn [Json.isArray Json.isArrayValue Json.size].
  rewrite Hc. rewrite flatten3_length, size_check_passes by lia.
  rewrite (collectFrom_pointwise (fractionalAt (Json.arrayValue (flatten3 fs))) fs 0%nat)
    by (intros i v; apply fractionalAt_flatten3).
  unfold bind, call, update. simpl.
  unfold setFractionalCoordinates. now rewrite Hc, setPositionsFrom_alterFrom.
Qed.

Lemma readCoordsFractional_none coords v n s :
  Json.member coords "3d fractional" = Some v -> Json.isArrayValue v = false ->
  readCoordsFractional toCartesian coords n s = Next tt s.
Proof.
  intros Hm Ha. unfold readCoordsFractional.
  rewrite (bind_Next _ _ _ _ _ (call_Some _ _ s Hm)). now rewrite Ha.
Qed.

End ReadWritten.

Lemma zip_with_map_same {A B C D} (h : B -> C -> D) (e : A -> B) (g : A -> C) (l : list A) :
  zip_with h (map e l) (map g l) = map (fun x => h (e x) (g x)) l.
Proof. induction l as [|x l IH]; simpl; [reflexivity|]. now rewrite IH. Qed.

Lemma omap_default {A B} (f : A -> option B) (d : B) l :
  Forall (fun x => is_Some (f x)) l -> omap f l = map (fun x => default d (f x)) l.
Proof.
  induction 1 as [|x l [y Hy] _ IH]; [reflexivity|].
  change (omap f (x :: l)) with (match f x with Some y => y :: omap f l | None => omap f l end).
  simpl map. rewrite Hy. simpl. now rewrite IH.
Qed.

Lemma asInt_ints zs i z :
  Forall (fun z => Json.minInt <= z <= Json.maxInt) zs -> zs !! i = Some z ->
  Json.asInt (Json.get (ints zs) i (Json.intValue 0)) = Some z.
Proof.
  intros Hz Hi. unfold ints. simpl. rewrite list_lookup_fmap, Hi. simpl.
  rewrite Forall_lookup in Hz. specialize (Hz _ _ Hi). simpl in Hz.
  destruct (Z.leb_spec Json.minInt z); [|lia].
  destruct (Z.leb_spec z Json.maxInt); [|lia]. reflexivity.
Qed.

(** The atoms block on a document whose number array holds the integers
    [zs]. *)
Lemma readAtoms_eval {lib} root atomsV zs s :
  Json.member root "atoms" = Some atomsV ->
  Json.isObjectValue atomsV = true -> Json.empty atomsV = false ->
  Json.at_ atomsV "elements" = Json.objectValue [("number", ints zs)] ->
  zs <> [] ->
  Forall (fun z => Json.minInt <= z <= Json.maxInt) zs ->
  readAtoms lib root s =
  Next (atomsV, length zs)
       (mkState (withAtoms (atoms (molecule s) ++ map (fun z => mkAtom (to_uchar z) None None) zs)
                           (molecule s))
                (errors s)).
Proof.
  intros Hm Ho He Hel Hne Hz. unfold readAtoms.
  rewrite (bind_Next _ _ _ _ _ (call_Some _ _ s Hm)). rewrite He, Ho.
  cbn [negb].
  rewrite (bind_Next _ _ _ _ _ (call_Some _ _ s (member_at _ "elements" (isObject_isContainer _ Ho)))).
  rewrite Hel. cbn [Json.empty Json.size length Nat.eqb Json.isObjectValue negb].
  assert (Hnum : Json.member (Json.objectValue [("number", ints zs)]) "number" = Some (ints zs))
    by reflexivity.
  rewrite (bind_Next _ _ _ _ _ (call_Some _ _ s Hnum)).
  assert (Hem : Json.empty (ints zs) = false) by now destruct zs.
  assert (Hsz : Json.size (ints zs) = length zs) by apply length_map.
  rewrite Hem, Hsz. change (Json.isArray lib (ints zs)) with true. cbv iota.
  unfold for_.
  assert (Hb : forall i s1,
             (do n <- call (Json.asInt (Json.get (ints zs) i (Json.intValue 0)));
              update (addAtom (to_uchar n))) s1 =
             match Json.asInt (Json.get (ints zs) i (Json.intValue 0)) with
             | Some v => Next tt (mkState (addAtom (to_uchar v) (molecule s1)) (errors s1))
             | None => Raise s1
             end).
  { intros i s1. unfold bind, call. now destruct (Json.asInt _). }
  rewrite (bind_Next _ _ _ _ _
             (forFrom_updates_eval _ (fun _ v => addAtom (to_uchar v)) _ zs s Hb
                (fun i v Hi => asInt_ints zs i v Hz Hi))).
  unfold next. now rewrite applyFrom_addAtom.
Qed.

(** *** The members of the written document *)

Section Written.

Context {lib : Json.Library}.

Variable toFractional : UnitCell.t -> Vector3 -> Vector3.

Lemma writeMetadata_name m root :
  Json.isObjectValue root = true -> Json.at_ root "name" = Json.nullValue ->
  Json.at_ (writeMetadata m root) "name" = metadataValue m "name".
Proof.
  intros H Hn. unfold writeMetadata, metadataValue.
  destruct (isVString (getData m "name")); destruct (isVString (getData m "inchi"));
    rewrite ?at_set_ne by side; rewrite ?at_set_eq by side; auto.
Qed.

Lemma writeMetadata_inchi m root :
  Json.isObjectValue root = true -> Json.at_ root "inchi" = Json.nullValue ->
  Json.at_ (writeMetadata m root) "inchi" = metadataValue m "inchi".
Proof.
  intros H Hn. unfold writeMetadata, metadataValue.
  destruct (isVString (getData m "name")); destruct (isVString (getData m "inchi"));
    rewrite ?at_set_eq by side; rewrite ?at_set_ne by side; auto.
Qed.

Lemma writeUnitCell_none m root :
  Json.at_ root "unit cell" = Json.nullValue -> unitCell m = None ->
  Json.at_ (writeUnitCell m root) "unit cell" = Json.nullValue.
Proof. intros H Hc. unfold writeUnitCell. now rewrite Hc. Qed.

Lemma writeBonds_bonds m root :
  Json.isObjectValue root = true -> Json.at_ root "bonds" = Json.nullValue ->
  Json.at_ (writeBonds m root) "bonds" =
  if negb (bondCount m =? 0)%nat then bondsValue (bonds m) else Json.nullValue.
Proof.
  intros H Hb. unfold writeBonds, bondsValue.
  destruct (negb _); [|exact Hb]. cbv zeta.
  rewrite at_set2_eq, at_set3_eq by side. now rewrite Hb.
Qed.

Definition markedRoot : Json.Value :=
  Json.set Json.nullValue "chemical json" (Json.intValue 0).

Ltac through_writers :=
  rewrite ?write_root; unfold rootBeforeAtoms; fold markedRoot;
  repeat first
    [ rewrite writeBonds_other by
        (first [ congruence
               | apply writeAtoms_isObject, writeBasisSet_isObject, writeUnitCell_isObject,
                   writeMetadata_isObject; reflexivity ])
    | rewrite writeAtoms_other by
        (first [ congruence
               | apply writeBasisSet_isObject, writeUnitCell_isObject,
                   writeMetadata_isObject; reflexivity ])
    | rewrite writeBasisSet_other by
        (first [ congruence
               | apply writeUnitCell_isObject, writeMetadata_isObject; reflexivity ])
    | rewrite writeUnitCell_other by
        (first [ congruence | apply writeMetadata_isObject; reflexivity ])
    | rewrite writeMetadata_other by (first [ congruence | reflexivity ]) ].

Lemma write_marker m :
  Json.at_ (fst (write toFractional m)) "chemical json" = Json.intValue 0.
Proof. through_writers. reflexivity. Qed.

Lemma write_name m : Json.at_ (fst (write toFractional m)) "name" = metadataValue m "name".
Proof. through_writers. now apply writeMetadata_name. Qed.

Lemma write_inchi m : Json.at_ (fst (write toFractional m)) "inchi" = metadataValue m "inchi".
Proof. through_writers. now apply writeMetadata_inchi. Qed.

Lemma write_cell m :
  Json.at_ (fst (write toFractional m)) "unit cell" =
  match unitCell m with Some cell => cellValue cell | None => Json.nullValue end.
Proof.
  through_writers. destruct (unitCell m) as [cell|] eqn:E.
  - apply writeUnitCell_cell; [apply writeMetadata_isObject; reflexivity | exact E].
  - apply writeUnitCell_none; [|exact E]. now rewrite writeMetadata_other.
Qed.

Lemma write_bonds m :
  Json.at_ (fst (write toFractional m)) "bonds" =
  if negb (bondCount m =? 0)%nat then bondsValue (bonds m) else Json.nullValue.
Proof.
  rewrite write_root. rewrite writeBonds_bonds; [reflexivity | |].
  - apply writeAtoms_isObject, rootBeforeAtoms_isObject.
  - through_writers. reflexivity.
Qed.

End Written.

(** *** The blocks of [read] on the written members *)

Lemma readRoot_marked {lib} root s :
  Json.isObjectValue root = true -> Json.at_ root "chemical json" = Json.intValue 0 ->
  readRoot lib root s = Next tt s.
Proof.
  intros Ho Hm. unfold readRoot. rewrite (isObject_object lib _ Ho). cbn [negb].
  rewrite (bind_Next _ _ _ _ _ (call_Some _ _ s (member_at _ _ (isObject_isContainer _ Ho)))).
  now rewrite Hm.
Qed.

Lemma readMetadata_written m root s :
  Json.isObjectValue root = true ->
  Json.at_ root "name" = metadataValue m "name" ->
  Json.at_ root "inchi" = metadataValue m "inchi" ->
  readMetadata root s =
  Next tt (mkState (mkMolecule (atoms (molecule s)) (bonds (molecule s))
                               (unitCell (molecule s)) (basisSet (molecule s))
                               (restore m "inchi" (restore m "name" (data (molecule s)))))
                   (errors s)).
Proof.
  intros Ho Hn Hi. unfold readMetadata.
  pose proof (isObject_isContainer _ Ho) as Hc.
  rewrite (bind_Next _ _ _ _ _ (call_Some _ _ s (member_at _ _ Hc))).
  rewrite Hn. unfold bind at 1.
  assert (Hstep : forall key,
            negb (Json.empty (metadataValue m key)) && Json.isString (metadataValue m key)
            = isVString (getData m key)).
  { intros key. unfold metadataValue. now destruct (isVString _). }
  assert (Hstr : forall key, isVString (getData m key) = true ->
            Json.asString (metadataValue m key) = c_str (toString (getData m key))).
  { intros key Hk. unfold metadataValue. now rewrite Hk. }
  rewrite Hstep. unfold restore.
  destruct (isVString (getData m "name")) eqn:En; cbn [update next];
    rewrite (bind_Next _ _ _ _ _ (call_Some _ _ _ (member_at _ _ Hc)));
    rewrite Hi, Hstep;
    destruct (isVString (getData m "inchi")) eqn:Ei; cbn [update next molecule errors];
    rewrite ?Hstr by assumption; unfold setData; cbn [atoms bonds unitCell basisSet data];
    try reflexivity.
  now destruct s as [[] ?].
Qed.

Lemma restore_data m :
  nameAndInchi (data m) -> metadataIsText m ->
  restore m "inchi" (restore m "name" ∅) = data m.
Proof.
  intros Hd [Hn Hi]. unfold restore. rewrite Hn, Hi. clear Hn Hi.
  apply map_eq. intros k.
  assert (Hother : k <> "name" -> k <> "inchi" -> data m !! k = None).
  { intros H1 H2. destruct (data m !! k) as [v|] eqn:E; [|reflexivity].
    destruct (Hd _ _ E) as [[->| ->] _]; contradiction. }
  unfold getData.
  destruct (data m !! "name") as [vn|] eqn:En;
    destruct (data m !! "inchi") as [vi|] eqn:Ei; simpl;
    repeat match goal with
           | H : data m !! _ = Some ?v |- _ =>
               let Hs := fresh in
               destruct (Hd _ _ H) as [_ Hs]; destruct v; try discriminate Hs;
               clear Hs; revert H
           end; intros; simpl;
    (destruct (decide (k = "name")) as [Hk1|N1];
     [subst k | destruct (decide (k = "inchi")) as [Hk2|N2]; [subst k|]]);
    rewrite ?lookup_insert_eq, ?lookup_insert_ne, ?lookup_empty by congruence;
    rewrite ?lookup_insert_eq, ?lookup_insert_ne, ?lookup_empty by congruence;
    try congruence; symmetry; auto.
Qed.

Lemma readUnitCell_written root cell s :
  Json.isObjectValue root = true -> Json.at_ root "unit cell" = cellValue cell ->
  readUnitCell root s = Next tt (mkState (setUnitCell (recode cell) (molecule s)) (errors s)).
Proof.
  intros Ho Hc.
  now rewrite (readUnitCell_numeric root (cellValue cell) s Ho Hc eq_refl eq_refl).
Qed.

Lemma to_UInt_fit z : 0 <= z <= Json.maxInt -> to_UInt z = z.
Proof. unfold Json.maxInt, to_UInt. intros H. apply Z.mod_small. lia. Qed.

Lemma to_Index_fit z : 0 <= z <= Json.maxInt -> to_Index z = z.
Proof. unfold Json.maxInt, to_Index. intros H. apply Z.mod_small. lia. Qed.

Lemma to_uchar_fit z : 0 <= z < 256 -> to_uchar z = z.
Proof. unfold to_uchar. intros H. now apply Z.mod_small. Qed.

Definition bondFits (bd : Bond) : Prop :=
  0 <= atom1 bd <= Json.maxInt /\ 0 <= atom2 bd <= Json.maxInt /\ 0 <= order bd < 256.

Definition endsValue (bds : list Bond) : Json.Value :=
  Json.arrayValue
    (flat_map (fun bd => [Json.uintValue (to_UInt (atom1 bd));
                          Json.uintValue (to_UInt (atom2 bd))]) bds).

Definition ordersValue (bds : list Bond) : Json.Value :=
  Json.arrayValue (map (fun bd => Json.intValue (order bd)) bds).

Lemma pairAt_written bds i bd :
  Forall bondFits bds -> bds !! i = Some bd ->
  pairAt (endsValue bds) i = Some (atom1 bd, atom2 bd).
Proof.
  intros Hf Hi. rewrite Forall_lookup in Hf. destruct (Hf _ _ Hi) as (H1 & H2 & _).
  unfold pairAt, endsValue. simpl.
  rewrite !(lookup_flat_map_const _ 2 bds i _ bd) by (auto; lia). simpl.
  rewrite !to_UInt_fit by assumption.
  destruct (Z.leb_spec (atom1 bd) Json.maxInt); [|lia].
  destruct (Z.leb_spec (atom2 bd) Json.maxInt); [|lia]. reflexivity.
Qed.

Lemma orderAt_written bds i bd :
  Forall bondFits bds -> bds !! i = Some bd ->
  Json.asInt (Json.get (ordersValue bds) i (Json.intValue 1)) = Some (order bd).
Proof.
  intros Hf Hi. rewrite Forall_lookup in Hf. destruct (Hf _ _ Hi) as (_ & _ & H3).
  unfold ordersValue. simpl. rewrite list_lookup_fmap, Hi. simpl.
  unfold Json.minInt, Json.maxInt.
  destruct (Z.leb_spec (- 2 ^ 31) (order bd)); [|lia].
  destruct (Z.leb_spec (order bd) (2 ^ 31 - 1)); [|lia]. reflexivity.
Qed.

Lemma endsValue_length bds : Json.size (endsValue bds) = (2 * length bds)%nat.
Proof.
  unfold endsValue. simpl. induction bds as [|bd bds IH]; simpl; [reflexivity|].
  rewrite IH. lia.
Qed.

Lemma readConnections_written {lib} bds s :
  Forall bondFits bds ->
  readConnections lib (endsValue bds) s =
  Next (length bds)
       (mkState (withBondList (bonds (molecule s) ++ map bondOfPair
                                 (map (fun bd => (atom1 bd, atom2 bd)) bds)) (molecule s))
                (errors s)).
Proof.
  intros Hf. unfold readConnections. change (Json.isArray lib (endsValue bds)) with true.
  cbv iota zeta. rewrite endsValue_length.
  rewrite (Nat.mul_comm 2), Nat.div_mul by lia.
  unfold for_.
  assert (Hb : forall k s1,
             (let i := (2 * k)%nat in
              do i1 <- call (Json.asInt (Json.get (endsValue bds) (i + 0) (Json.intValue 0)));
              do i2 <- call (Json.asInt (Json.get (endsValue bds) (i + 1) (Json.intValue 0)));
              update (addBond (to_Index i1) (to_Index i2))) s1 =
             match pairAt (endsValue bds) k with
             | Some v => Next tt (mkState (addBond (to_Index (fst v)) (to_Index (snd v))
                                             (molecule s1)) (errors s1))
             | None => Raise s1
             end) by (intros k s1; apply pair_body).
  pose proof (forFrom_updates_eval (pairAt (endsValue bds))
                (fun _ v => addBond (to_Index (fst v)) (to_Index (snd v))) _
                (map (fun bd => (atom1 bd, atom2 bd)) bds) s Hb) as Hl.
  rewrite length_map in Hl.
  rewrite (bind_Next _ _ _ _ _ (Hl ltac:(
     intros i v Hi; rewrite list_lookup_fmap in Hi;
     destruct (bds !! i) as [bd|] eqn:E; [|discriminate];
     injection Hi as <-; now apply pairAt_written))).
  unfold next. now rewrite applyFrom_addBond.
Qed.

Lemma readOrders_written {lib} bds s :
  Forall bondFits bds ->
  readOrders lib (ordersValue bds) (length bds) s =
  Next tt (mkState (withBondList
                      (alterFrom (fun v => withOrder (to_uchar v)) 0 (map order bds)
                                 (bonds (molecule s))) (molecule s))
                   (errors s)).
Proof.
  intros Hf. unfold readOrders. change (Json.isArray lib (ordersValue bds)) with true.
  cbv iota. assert (Hsz : Json.size (ordersValue bds) = length bds) by apply length_map.
  rewrite Hsz, Nat.eqb_refl. cbn [negb]. unfold for_.
  pose proof (forFrom_updates_eval
                (fun i => Json.asInt (Json.get (ordersValue bds) i (Json.intValue 1)))
                (fun i v => setOrder i (to_uchar v))
                (fun i => do o <- call (Json.asInt (Json.get (ordersValue bds) i
                                                      (Json.intValue 1)));
                          update (setOrder i (to_uchar o)))
                (map order bds) s (order_body (ordersValue bds))) as Hl.
  rewrite length_map in Hl. rewrite Hl.
  - now rewrite (applyFrom_setOrder to_uchar).
  - intros i v Hi. rewrite list_lookup_fmap in Hi.
    destruct (bds !! i) as [bd|] eqn:E; [|discriminate].
    injection Hi as <-. now apply orderAt_written.
Qed.

(** The bonds block on the bonds member written for bonds that fit. *)
Lemma readBonds_written {lib} root bds s :
  Json.isObjectValue root = true ->
  Json.at_ root "bonds" = (if negb (length bds =? 0)%nat then bondsValue bds else Json.nullValue) ->
  Forall bondFits bds ->
  bonds (molecule s) = [] ->
  readBonds lib root s = Next tt (mkState (withBondList bds (molecule s)) (errors s)).
Proof.
  intros Ho Hb Hf Hnil.
  pose proof (member_at _ "bonds" (isObject_isContainer _ Ho)) as Hm. rewrite Hb in Hm.
  destruct bds as [|bd0 bds'].
  - simpl in Hm. unfold readBonds.
    rewrite (bind_Next _ _ _ _ _ (call_Some _ _ s Hm)). simpl.
    unfold next, withBondList. rewrite <- Hnil. now destruct s as [[] ?].
  - set (bds := bd0 :: bds') in *. cbn [length Nat.eqb negb] in Hm.
    rewrite (readBonds_index root (bondsValue bds)
               (Json.objectValue [("index", endsValue bds)]) (endsValue bds) s Hm
               eq_refl eq_refl ltac:(discriminate) eq_refl).
    rewrite (bind_Next _ _ _ _ _ (readConnections_written bds s Hf)).
    assert (Hord : Json.member (bondsValue bds) "order" = Some (ordersValue bds)) by reflexivity.
    rewrite (bind_Next _ _ _ _ _ (call_Some _ _ _ Hord)).
    rewrite (readOrders_written bds _ Hf). cbn [molecule errors withBondList bonds].
    rewrite Hnil. cbn [app].
    rewrite alterFrom_zip by (now rewrite !length_map).
    rewrite map_map, zip_with_map_same. unfold withBondList. cbn [atoms unitCell basisSet data].
    do 3 f_equal. rewrite <- (map_id bds) at 2.
    apply map_ext_Forall. eapply Forall_impl; [exact Hf|].
    intros bd (H1 & H2 & H3). unfold withOrder, bondOfPair. simpl.
    rewrite !to_Index_fit, to_uchar_fit by assumption. now destruct bd.
Qed.

(** ** Arrays without elements *)

Lemma alterFrom_replicate {A V} (h : V -> A -> A) (v : V) (l : list A) :
  alterFrom h 0 (replicate (length l) v) l = map (h v) l.
Proof.
  rewrite alterFrom_zip by now rewrite length_replicate.
  induction l as [|x l IH]; simpl; [reflexivity | now rewrite IH].
Qed.

Lemma blank_size v : blank v -> Json.size v = 0%nat.
Proof. now intros [-> | ->]. Qed.

Lemma coords3dAt_blank v i : blank v -> coords3dAt v i = Some origin3.
Proof. now intros [-> | ->]. Qed.

Lemma coords2dAt_blank v i : blank v -> coords2dAt v i = Some origin2.
Proof. now intros [-> | ->]. Qed.

(** The 3d block on a value that is read as an array without elements: the
    count check is skipped, and every atom is given the position (0, 0, 0). *)
Lemma readCoords3d_blank {lib} coords v n s :
  Json.member coords "3d" = Some v ->
  blank v -> Json.isArray lib v = true ->
  length (atoms (molecule s)) = n ->
  readCoords3d lib coords n s =
  Next tt (mkState (withAtoms (map (withPosition3d origin3) (atoms (molecule s))) (molecule s))
                   (errors s)).
Proof.
  intros Hm Hb Ha Hn. unfold readCoords3d.
  rewrite (bind_Next _ _ _ _ _ (call_Some _ _ s Hm)). rewrite Ha, (blank_size _ Hb).
  cbn [Nat.eqb negb andb]. unfold for_.
  rewrite <- (alterFrom_replicate withPosition3d origin3). rewrite Hn.
  rewrite <- (length_replicate n origin3) at 1.
  rewrite (forFrom_updates_eval (coords3dAt v) setPosition3d _ (replicate n origin3)).
  - now rewrite applyFrom_setPosition3d.
  - intros i s1. apply coords3d_body.
  - intros i p Hi. apply lookup_replicate_1 in Hi. destruct Hi as [-> _].
    now apply coords3dAt_blank.
Qed.

Lemma readCoords2d_blank {lib} coords v n s :
  Json.member coords "2d" = Some v ->
  blank v -> Json.isArray lib v = true ->
  length (atoms (molecule s)) = n ->
  readCoords2d lib coords n s =
  Next tt (mkState (withAtoms (map (withPosition2d origin2) (atoms (molecule s))) (molecule s))
                   (errors s)).
Proof.
  intros Hm Hb Ha Hn. unfold readCoords2d.
  rewrite (bind_Next _ _ _ _ _ (call_Some _ _ s Hm)). rewrite Ha, (blank_size _ Hb).
  cbn [Nat.eqb negb andb]. unfold for_.
  rewrite <- (alterFrom_replicate withPosition2d origin2). rewrite Hn.
  rewrite <- (length_replicate n origin2) at 1.
  rewrite (forFrom_updates_eval (coords2dAt v) setPosition2d _ (replicate n origin2)).
  - now rewrite applyFrom_setPosition2d.
  - intros i s1. apply coords2d_body.
  - intros i p Hi. apply lookup_replicate_1 in Hi. destruct Hi as [-> _].
    now apply coords2dAt_blank.
Qed.

(** ** Positions that come together

    With a library whose [isArray()] holds of null, the 3d and the 2d block
    both run their loop as soon as the coords member is there. *)

Lemma positionsTogether_atoms m m' :
  atoms m' = atoms m -> positionsTogether m -> positionsTogether m'.
Proof.
  unfold positionsTogether, atomPositions3d, atomPositions2d, atomCount. now intros ->.
Qed.

Lemma positionsTogether_all m :
  Forall (fun a => is_Some (position3d a)) (atoms m) ->
  Forall (fun a => is_Some (position2d a)) (atoms m) ->
  positionsTogether m.
Proof.
  intros H3 H2. unfold positionsTogether, atomPositions3d, atomPositions2d, atomCount.
  apply length_omap_all in H3, H2. now rewrite H3, H2.
Qed.

Lemma positionsTogether_none m :
  Forall (fun a => position3d a = None) (atoms m) ->
  Forall (fun a => position2d a = None) (atoms m) ->
  positionsTogether m.
Proof.
  intros H3 H2. unfold positionsTogether, atomPositions3d, atomPositions2d.
  now rewrite (omap_all_none _ _ H3), (omap_all_none _ _ H2).
Qed.

Lemma zip_with_all_some {A V B} (proj : A -> option B) (h : V -> A -> A) (e : V -> B) :
  (forall v x, proj (h v x) = Some (e v)) ->
  forall vs l, length vs = length l ->
    Forall (fun a => is_Some (proj a)) (zip_with h vs l).
Proof.
  intros Hh. induction vs as [|v vs IH]; intros [|x l] Hlen; try discriminate; simpl.
  - constructor.
  - constructor; [rewrite Hh; eauto | apply IH; simpl in Hlen; lia].
Qed.

Lemma Forall_is_Some_map {A B} (proj : A -> option B) (l l' : list A) :
  map proj l' = map proj l ->
  Forall (fun a => is_Some (proj a)) l -> Forall (fun a => is_Some (proj a)) l'.
Proof.
  intros E H. apply Forall_map with (f := proj) (P := is_Some).
  rewrite E. now apply Forall_map.
Qed.

(** What the coordinate blocks leave when they fall through. *)
Lemma readCoords3d_all {lib} coords n s x s' :
  length (atoms (molecule s)) = n ->
  (forall v, Json.member coords "3d" = Some v -> Json.isArray lib v = true) ->
  readCoords3d lib coords n s = Next x s' ->
  Forall (fun a => is_Some (position3d a)) (atoms (molecule s'))
  /\ map position2d (atoms (molecule s')) = map position2d (atoms (molecule s))
  /\ length (atoms (molecule s')) = n.
Proof.
  intros Hn Hv H. unfold readCoords3d, for_ in H.
  destruct (Json.member coords "3d") as [v|] eqn:Hm; [|discriminate].
  rewrite (bind_Next _ _ _ _ _ (call_Some _ _ s eq_refl)) in H.
  rewrite (Hv v eq_refl) in H.
  destruct (negb _ && negb _); [discriminate|].
  apply (forFrom_updates_Next (coords3dAt v) setPosition3d) in H;
    [|intros i s1; apply coords3d_body].
  destruct H as (vs & _ & Hlen & ->). cbn [molecule errors].
  rewrite applyFrom_setPosition3d. cbn [withAtoms atoms].
  split; [|split].
  - rewrite alterFrom_zip by congruence.
    apply (zip_with_all_some position3d withPosition3d id); [reflexivity | congruence].
  - now apply alterFrom_map.
  - now rewrite alterFrom_length.
Qed.

Lemma readCoords2d_all {lib} coords n s x s' :
  length (atoms (molecule s)) = n ->
  (forall v, Json.member coords "2d" = Some v -> Json.isArray lib v = true) ->
  readCoords2d lib coords n s = Next x s' ->
  Forall (fun a => is_Some (position2d a)) (atoms (molecule s'))
  /\ map position3d (atoms (molecule s')) = map position3d (atoms (molecule s))
  /\ length (atoms (molecule s')) = n.
Proof.
  intros Hn Hv H. unfold readCoords2d, for_ in H.
  destruct (Json.member coords "2d") as [v|] eqn:Hm; [|discriminate].
  rewrite (bind_Next _ _ _ _ _ (call_Some _ _ s eq_refl)) in H.
  rewrite (Hv v eq_refl) in H.
  destruct (negb _ && negb _); [discriminate|].
  apply (forFrom_updates_Next (coords2dAt v) setPosition2d) in H;
    [|intros i s1; apply coords2d_body].
  destruct H as (vs & _ & Hlen & ->). cbn [molecule errors].
  rewrite applyFrom_setPosition2d. cbn [withAtoms atoms].
  split; [|split].
  - rewrite alterFrom_zip by congruence.
    apply (zip_with_all_some position2d withPosition2d id); [reflexivity | congruence].
  - now apply alterFrom_map.
  - now rewrite alterFrom_length.
Qed.

(** The bonds block leaves the atoms as they are. *)
Lemma readBonds_atoms {lib} root s x s' :
  readBonds lib root s = Next x s' -> atoms (molecule s') = atoms (molecule s).
Proof.
  intros H. unfold readBonds in H. inv_stmt; [|reflexivity].
  match goal with Hc : readConnections _ _ _ = _ |- _ =>
    apply readConnections_Next in Hc; destruct Hc as [(vs & _ & ->)|[-> ->]] end;
    apply readOrders_Next in H; destruct H as [->|(os & ->)]; reflexivity.
Qed.

(** ** The round trip *)

Section RoundTrip.

Context {lib : Json.Library} {Stream : Type}.
Variable parse : Stream -> Json.Value + string.
Variable print : Json.Value -> Stream.
Variable toCartesian : UnitCell.t -> Vector3 -> Vector3.
Variable toFractional : UnitCell.t -> Vector3 -> Vector3.

(** What writing and reading back makes of an atom: with a unit cell [cell],
    its 3D position goes to fractional coordinates of [cell] and back to
    Cartesian ones in the cell read back. *)
Definition roundTripAtom (u : option UnitCell.t) (at0 : Atom) : Atom :=
  match u with
  | Some cell =>
      mkAtom (atomicNumber at0)
             (option_map (fun p => toCartesian (recode cell) (toFractional cell p))
                         (position3d at0))
             (position2d at0)
  | None => at0
  end.

(** What writing and reading back makes of a molecule. *)
Definition roundTrip (m : Molecule) : Molecule :=
  mkMolecule (map (roundTripAtom (unitCell m)) (atoms m)) (bonds m)
             (option_map recode (unitCell m)) (basisSet m) (data m).

(** [readStream] on text that the reader takes for a document. *)
Lemma readStream_parsed file root s :
  parse file = inl root ->
  readStream lib parse toCartesian file s = read lib toCartesian root s.
Proof. intros H. unfold readStream. now rewrite H. Qed.

Lemma readStream_success file s0 s :
  readStream lib parse toCartesian file s0 = Return true s ->
  exists root, parse file = inl root /\ read lib toCartesian root s0 = Return true s.
Proof.
  unfold readStream. destruct (parse file) as [root|messages]; [eauto | discriminate].
Qed.

Lemma readCoordsFractional_keeps coords n s x s' :
  length (atoms (molecule s)) = n ->
  readCoordsFractional toCartesian coords n s = Next x s' ->
  Forall (fun a => is_Some (position3d a)) (atoms (molecule s)) ->
  Forall (fun a => is_Some (position3d a)) (atoms (molecule s'))
  /\ map position2d (atoms (molecule s')) = map position2d (atoms (molecule s)).
Proof.
  intros Hn H H3. unfold readCoordsFractional in H. inv_stmt; [|now split].
  cbv beta in H. destruct (unitCell (molecule s)) as [cell|] eqn:Ec; inv_stmt.
  cbn [molecule errors]. unfold setFractionalCoordinates.
  rewrite Ec, setPositionsFrom_alterFrom. cbn [withAtoms atoms].
  match goal with Hc : collectFrom _ _ _ = Some ?fs |- _ =>
    pose proof (collectFrom_length _ _ _ _ Hc) as Hlen end.
  split.
  - rewrite alterFrom_zip by (rewrite length_map; congruence).
    apply (zip_with_all_some position3d withPosition3d id); [reflexivity|].
    rewrite length_map. congruence.
  - now apply alterFrom_map.
Qed.

(** With a library whose [isArray()] holds of null, and 3d and 2d members
    that are arrays where they are present, the coordinates block gives every
    atom of a molecule both positions, or leaves the molecule as it is. *)
Lemma readCoords_together atomsV n s x s' :
  Json.nullIsArray lib = true ->
  (forall key, key = "3d" \/ key = "2d" ->
     let value := Json.at_ (Json.at_ atomsV "coords") key in
     value = Json.nullValue \/ Json.isArrayValue value = true) ->
  length (atoms (molecule s)) = n ->
  positionsTogether (molecule s) ->
  readCoords lib toCartesian atomsV n s = Next x s' ->
  positionsTogether (molecule s').
Proof.
  intros Hlib Hv Hn Ht H. unfold readCoords in H.
  destruct (Json.member atomsV "coords") as [coords|] eqn:Hc; [|discriminate].
  rewrite (bind_Next _ _ _ _ _ (call_Some _ _ s eq_refl)) in H.
  assert (Hat : Json.at_ atomsV "coords" = coords) by (unfold Json.at_; now rewrite Hc).
  rewrite Hat in Hv.
  destruct (negb (Json.empty coords));
    [|apply next_Next_inv in H; destruct H as [_ ->]; exact Ht].
  assert (Harr : forall key v, key = "3d" \/ key = "2d" ->
            Json.member coords key = Some v -> Json.isArray lib v = true).
  { intros key v Hk Hm. specialize (Hv key Hk). cbv zeta in Hv.
    unfold Json.at_ in Hv. rewrite Hm in Hv. simpl in Hv.
    destruct Hv as [-> | Hv]; [exact Hlib | now apply isArray_array]. }
  apply bind_Next_inv in H. destruct H as ([] & s3 & H3 & H).
  apply bind_Next_inv in H. destruct H as ([] & s2 & H2 & H).
  destruct (readCoords3d_all _ _ _ _ _ Hn (fun v => Harr "3d" v (or_introl eq_refl)) H3)
    as (A3 & _ & L3).
  destruct (readCoords2d_all _ _ _ _ _ L3 (fun v => Harr "2d" v (or_intror eq_refl)) H2)
    as (A2 & E3 & L2).
  destruct (readCoordsFractional_keeps _ _ _ _ _ L2 H
              (Forall_is_Some_map position3d _ _ E3 A3)) as (A3' & E2).
  apply positionsTogether_all; [exact A3'|].
  apply (Forall_is_Some_map position2d _ _ E2 A2).
Qed.

(** A document whose 3d and 2d members are arrays where they are there,
    decoded with such a library into a fresh molecule: the atoms have their
    3D and their 2D positions together. *)
Lemma read_together root s :
  Json.nullIsArray lib = true ->
  coordsAreArrays root ->
  read lib toCartesian root freshState = Return true s ->
  positionsTogether (molecule s).
Proof.
  intros Hlib Hv H.
  destruct (read_success _ _ _ _ H) as (s1 & s2 & s3 & r & s4 & s5 & H1 & H2 & H3 & H4 & H5 & H6).
  destruct (readRoot_Next _ _ _ _ H1) as (_ & _ & ->).
  destruct (readMetadata_Next _ _ _ _ H2) as (_ & Ma & _).
  destruct (readUnitCell_Next _ _ _ _ H3) as (_ & Ua & _).
  destruct (readAtoms_Next _ _ _ _ H4) as (numbers & Hm & _ & Hn & _ & Hloop).
  unfold for_ in Hloop.
  apply (forFrom_updates_Next
           (fun i => Json.asInt (Json.get (Json.arrayValue numbers) i (Json.intValue 0)))
           (fun _ v => addAtom (to_uchar v))) in Hloop.
  2:{ intros i st. unfold bind, call. now destruct (Json.asInt _). }
  destruct Hloop as (vs & _ & Hlen & ->).
  assert (Hat : Json.at_ root "atoms" = fst r) by (unfold Json.at_; now rewrite Hm).
  unfold coordsAreArrays in Hv. rewrite Hat in Hv.
  assert (Ha4 : atoms (applyFrom (fun _ v => addAtom (to_uchar v)) 0 vs (molecule s3)) =
                map (fun v => mkAtom (to_uchar v) None None) vs).
  { rewrite applyFrom_addAtom. cbn [withAtoms atoms]. rewrite Ua, Ma. reflexivity. }
  apply (positionsTogether_atoms (molecule s5)); [exact (readBonds_atoms _ _ _ _ H6)|].
  refine (readCoords_together _ _ _ _ _ Hlib Hv _ _ H5).
  - cbn [molecule]. rewrite Ha4, length_map. congruence.
  - cbn [molecule]. apply positionsTogether_none; rewrite Ha4;
      apply Forall_map, Forall_forall; now intros.
Qed.

Lemma readCoords_eval atomsV coords n s s3 s2 s' :
  Json.member atomsV "coords" = Some coords -> Json.empty coords = false ->
  readCoords3d lib coords n s = Next tt s3 ->
  readCoords2d lib coords n s3 = Next tt s2 ->
  readCoordsFractional toCartesian coords n s2 = Next tt s' ->
  readCoords lib toCartesian atomsV n s = Next tt s'.
Proof.
  intros Hm He H3 H2 Hf. unfold readCoords.
  rewrite (bind_Next _ _ _ _ _ (call_Some _ _ s Hm)). rewrite He. cbn [negb].
  rewrite (bind_Next _ _ _ _ _ H3). now rewrite (bind_Next _ _ _ _ _ H2).
Qed.

Lemma readCoords_absent atomsV coords n s :
  Json.member atomsV "coords" = Some coords -> Json.empty coords = true ->
  readCoords lib toCartesian atomsV n s = Next tt s.
Proof.
  intros Hm He. unfold readCoords.
  rewrite (bind_Next _ _ _ _ _ (call_Some _ _ s Hm)). now rewrite He.
Qed.

Lemma readCoords3d_written_n coords ps n s :
  length ps = n ->
  Json.member coords "3d" = Some (Json.arrayValue (flatten3 ps)) ->
  readCoords3d lib coords n s =
  Next tt (mkState (withAtoms (alterFrom withPosition3d 0 ps (atoms (molecule s))) (molecule s))
                   (errors s)).
Proof. intros <-. apply readCoords3d_written. Qed.

Lemma readCoords2d_written_n coords ps n s :
  length ps = n ->
  Json.member coords "2d" = Some (Json.arrayValue (flatten2 ps)) ->
  readCoords2d lib coords n s =
  Next tt (mkState (withAtoms (alterFrom withPosition2d 0 ps (atoms (molecule s))) (molecule s))
                   (errors s)).
Proof. intros <-. apply readCoords2d_written. Qed.

Lemma readCoordsFractional_written_n coords fs cell n s :
  length fs = n ->
  Json.member coords "3d fractional" = Some (Json.arrayValue (flatten3 fs)) ->
  unitCell (molecule s) = Some cell ->
  readCoordsFractional toCartesian coords n s =
  Next tt (mkState (withAtoms (alterFrom withPosition3d 0 (map (toCartesian cell) fs)
                                         (atoms (molecule s))) (molecule s))
                   (errors s)).
Proof. intros <-. apply readCoordsFractional_written. Qed.

(** All positions set, or none: how the encoder's test comes out. *)
Lemma positions_test {B} (f : Atom -> option B) (ats : list Atom) :
  ats <> [] -> uniform (map f ats) ->
  (Forall (fun x => is_Some (f x)) ats /\ (length (omap f ats) =? length ats)%nat = true)
  \/ (Forall (fun x => f x = None) ats /\ (length (omap f ats) =? length ats)%nat = false).
Proof.
  intros Hne [H|H]; rewrite Forall_map in H.
  - left. split; [exact H|]. apply Nat.eqb_eq. now apply length_omap_all.
  - right. split; [exact H|]. rewrite (omap_all_none _ _ H). simpl.
    now destruct ats.
Qed.

Lemma state_withAtoms s : mkState (withAtoms (atoms (molecule s)) (molecule s)) (errors s) = s.
Proof. now destruct s as [[] ?]. Qed.

Lemma Forall_both {A} (P Q : A -> Prop) l :
  Forall P l -> Forall Q l -> Forall (fun x => P x /\ Q x) l.
Proof. intros HP HQ. induction HP; inversion HQ; subst; constructor; auto. Qed.

Lemma Forall_true {A} (l : list A) : Forall (fun _ => True) l.
Proof. now apply Forall_forall. Qed.

(** The coordinates block on the atoms member written for [m], run on the
    bare atoms of [m]. *)
Lemma readCoords_any m s :
  atoms m <> [] ->
  atoms (molecule s) = map bare (atoms m) ->
  unitCell (molecule s) = option_map recode (unitCell m) ->
  readCoords lib toCartesian (atomsValue toFractional m) (length (atoms m)) s =
  Next tt (mkState (withAtoms
                      (map (fun at0 => mkAtom (atomicNumber at0)
                                              (keptPosition3d lib toCartesian toFractional m at0)
                                              (keptPosition2d lib m at0)) (atoms m))
                      (molecule s))
                   (errors s)).
Proof.
  intros Hne Ha Hc.
  assert (Hn0 : (length (atoms m) =? 0)%nat = false).
  { apply Nat.eqb_neq. now destruct (atoms m). }
  assert (Hlen : length (atoms (molecule s)) = length (atoms m))
    by (now rewrite Ha, length_map).
  unfold atomsValue, keptPosition3d, keptPosition2d, atomCount, atomPositions3d,
    atomPositions2d, fractionalCoordinates.
  rewrite Hn0. cbn [negb]. cbv zeta.
  assert (A3 : (length (omap position3d (atoms m)) =? length (atoms m))%nat = true ->
               Forall (fun x => is_Some (position3d x)) (atoms m)).
  { intros E. apply length_omap_all. now apply Nat.eqb_eq. }
  assert (A2 : (length (omap position2d (atoms m)) =? length (atoms m))%nat = true ->
               Forall (fun x => is_Some (position2d x)) (atoms m)).
  { intros E. apply length_omap_all. now apply Nat.eqb_eq. }
  destruct (Json.nullIsArray lib) eqn:Hlib;
    destruct (length (omap position3d (atoms m)) =? length (atoms m))%nat eqn:T3;
    destruct (length (omap position2d (atoms m)) =? length (atoms m))%nat eqn:T2;
    destruct (unitCell m) as [cell|] eqn:Ec; cbn [option_map andb] in Hc |- *.
  all: try specialize (A3 eq_refl).
  all: try specialize (A2 eq_refl).
  all: try rewrite (omap_default position3d origin3 _ A3).
  all: try rewrite (omap_default position2d origin2 _ A2).
  all: first
         [ (erewrite readCoords_absent; [ | reflexivity | reflexivity ]);
           rewrite <- (state_withAtoms s) at 1
         | erewrite readCoords_eval;
           [ | reflexivity | reflexivity
             | first [ (eapply readCoords3d_written_n; [ | reflexivity ]);
                       now rewrite ?length_map
                     | eapply readCoords3d_none; [ reflexivity | exact Hlib ]
                     | eapply readCoords3d_blank;
                       [ reflexivity | now left | exact Hlib | exact Hlen ] ]
             | first [ (eapply readCoords2d_written_n; [ | reflexivity ]);
                       now rewrite ?length_map
                     | eapply readCoords2d_none; [ reflexivity | exact Hlib ]
                     | eapply readCoords2d_blank;
                       [ reflexivity | now left | exact Hlib
                       | cbn [molecule withAtoms atoms];
                         now rewrite ?alterFrom_length, ?length_map, ?Ha, ?length_map ] ]
             | first [ (eapply readCoordsFractional_written_n; [ | reflexivity | exact Hc ]);
                       now rewrite ?length_map
                     | eapply readCoordsFractional_none; reflexivity ] ] ].
  all: unfold withAtoms; cbn [molecule errors atoms bonds unitCell basisSet data].
  all: rewrite ?Ha.
  all: repeat rewrite alterFrom_zip
         by (now rewrite ?alterFrom_length, ?length_zip_with, ?length_map, ?Nat.min_id).
  all: rewrite ?map_map.
  all: repeat rewrite zip_with_map_same.
  all: rewrite ?map_map.
  all: repeat rewrite zip_with_map_same.
  all: do 3 f_equal.
  all: apply map_ext_Forall.
  all: first
         [ pose proof (Forall_both _ _ _ A3 A2) as Hall
         | pose proof (Forall_both _ _ _ A3 (Forall_true (atoms m))) as Hall
         | pose proof (Forall_both _ _ _ (Forall_true (atoms m)) A2) as Hall
         | pose proof (Forall_both _ _ _ (Forall_true (atoms m)) (Forall_true (atoms m)))
             as Hall ].
  all: eapply Forall_impl; [exact Hall|].
  all: intros [z p3 p2] [H3 H2]; cbn in *.
  all: repeat match goal with
              | H : is_Some _ |- _ => destruct H as [? ->]
              end; try reflexivity.
Qed.

Lemma atomsValue_shape m :
  atoms m <> [] ->
  Json.isObjectValue (atomsValue toFractional m) = true /\
  Json.empty (atomsValue toFractional m) = false /\
  Json.at_ (atomsValue toFractional m) "elements" =
  Json.objectValue [("number", ints (map atomicNumber (atoms m)))].
Proof.
  intros Hne.
  assert (Hn0 : (length (atoms m) =? 0)%nat = false).
  { apply Nat.eqb_neq. now destruct (atoms m). }
  unfold atomsValue, atomCount, ints. rewrite Hn0, map_map. cbn [negb]. cbv zeta.
  destruct (length (atomPositions3d m) =? length (atoms m))%nat;
    destruct (unitCell m);
    destruct (length (atomPositions2d m) =? length (atoms m))%nat;
    repeat split; reflexivity.
Qed.

(** Reading the document written for a molecule with an atom, whose atomic
    numbers and bond orders are bytes and whose bond ends fit. *)
Lemma read_written m :
  atoms m <> [] ->
  Forall (fun at0 => 0 <= atomicNumber at0 < 256) (atoms m) ->
  Forall bondFits (bonds m) ->
  read lib toCartesian (fst (write toFractional m)) freshState =
  Return true (mkState (writtenThenRead lib toCartesian toFractional m) []).
Proof.
  intros Hne Hz Hbf.
  set (root := fst (write toFractional m)).
  assert (Ho : Json.isObjectValue root = true) by apply write_isObject.
  pose proof (isObject_isContainer _ Ho) as Hc.
  destruct (atomsValue_shape m Hne) as (Vo & Ve & Vel).
  unfold read.
  rewrite (bind_Next _ _ _ _ _ (readRoot_marked root _ Ho (write_marker toFractional m))).
  rewrite (bind_Next _ _ _ _ _
             (readMetadata_written m root _ Ho (write_name toFractional m)
                (write_inchi toFractional m))).
  cbn [freshState molecule errors emptyMolecule atoms bonds unitCell basisSet data].
  set (d := restore m "inchi" (restore m "name" ∅)).
  assert (Hcell : readUnitCell root (mkState (mkMolecule [] [] None None d) []) =
                  Next tt (mkState (mkMolecule [] [] (option_map recode (unitCell m)) None d)
                                   [])).
  { pose proof (write_cell toFractional m) as Hw. fold root in Hw.
    destruct (unitCell m) as [cell|].
    - now rewrite (readUnitCell_written root cell _ Ho Hw).
    - rewrite readUnitCell_skip; [reflexivity | exact Ho | now rewrite Hw]. }
  rewrite (bind_Next _ _ _ _ _ Hcell).
  assert (Hzr : Forall (fun z => Json.minInt <= z <= Json.maxInt) (map atomicNumber (atoms m))).
  { apply Forall_map. eapply Forall_impl; [exact Hz|].
    unfold Json.minInt, Json.maxInt. simpl. lia. }
  assert (Hma : Json.member root "atoms" = Some (atomsValue toFractional m)).
  { rewrite (member_at _ _ Hc). f_equal. apply write_atoms. }
  rewrite (bind_Next _ _ _ _ _
             (readAtoms_eval root _ (map atomicNumber (atoms m)) _ Hma Vo Ve Vel
                ltac:(now destruct (atoms m)) Hzr)).
  cbn [fst snd molecule errors withAtoms atoms bonds unitCell basisSet data app].
  rewrite length_map, map_map.
  assert (Hbare : map (fun x => mkAtom (to_uchar (atomicNumber x)) None None) (atoms m) =
                  map bare (atoms m)).
  { apply map_ext_Forall. eapply Forall_impl; [exact Hz|].
    intros at0 Hr. simpl in Hr. unfold bare. now rewrite to_uchar_fit. }
  rewrite Hbare.
  match goal with
  | |- bind (readCoords _ _ _ _) _ ?st = _ =>
      rewrite (bind_Next _ _ _ _ _ (readCoords_any m st Hne eq_refl eq_refl))
  end.
  cbn [molecule errors withAtoms atoms bonds unitCell basisSet data].
  match goal with
  | |- bind (readBonds _ _) _ ?st = _ =>
      rewrite (bind_Next _ _ _ _ _
                 (readBonds_written root (bonds m) st Ho (write_bonds toFractional m) Hbf
                    eq_refl))
  end.
  reflexivity.
Qed.

(** For a decoded molecule without NUL in its name and inchi, and whose
    positions come together where the library takes an absent array for an
    array, what is read back is [roundTrip m]. *)
Lemma writtenThenRead_decoded m :
  decoded m -> metadataIsText m ->
  (Json.nullIsArray lib = true -> positionsTogether m) ->
  writtenThenRead lib toCartesian toFractional m = roundTrip m.
Proof.
  intros (Hne & Hz & U3 & U2 & Hb & Hbs & Hd) Htext Htog.
  unfold writtenThenRead, roundTrip. rewrite Hbs, (restore_data m Hd Htext).
  f_equal. apply map_ext_Forall.
  unfold keptPosition3d, keptPosition2d, roundTripAtom.
  unfold positionsTogether in Htog.
  unfold atomPositions3d, atomPositions2d, atomCount in *.
  destruct (positions_test position3d _ Hne U3) as [[A3 T3]|[N3 T3]];
    destruct (positions_test position2d _ Hne U2) as [[A2 T2]|[N2 T2]];
    rewrite T3, T2 in *.
  all: destruct (Json.nullIsArray lib);
    try (specialize (Htog eq_refl); discriminate Htog).
  all: cbn [andb].
  all: match goal with
       | H3 : Forall _ ?l, H2 : Forall _ ?l |- _ =>
           pose proof (Forall_both _ _ _ H3 H2) as Hall
       end.
  all: eapply Forall_impl; [exact Hall|].
  all: intros [z p3 p2] [H3 H2]; cbn in *.
  all: repeat match goal with
              | H : is_Some _ |- _ => destruct H as [? ->]
              | H : _ = None |- _ => rewrite H
              end.
  all: now destruct (unitCell m).
Qed.

(** Reading the document written for a decoded molecule whose bond ends
    fit. *)
Lemma write_read m :
  decoded m -> bondEndsFit m -> metadataIsText m ->
  (Json.nullIsArray lib = true -> positionsTogether m) ->
  read lib toCartesian (fst (write toFractional m)) freshState =
  Return true (mkState (roundTrip m) []).
Proof.
  intros Hdec Hfit Htext Htog.
  rewrite <- (writtenThenRead_decoded m Hdec Htext Htog).
  destruct Hdec as (Hne & Hz & _ & _ & Hb & _).
  apply read_written; [exact Hne | now rewrite Forall_map in Hz |].
  unfold bondEndsFit in Hfit. rewrite Forall_forall in *. intros bd Hin.
  specialize (Hb bd Hin). specialize (Hfit bd Hin). unfold bondFits. tauto.
Qed.

Lemma roundTrip_exact m :
  match unitCell m with
  | Some cell =>
      recode cell = cell /\
      Forall (fun p => toCartesian cell (toFractional cell p) = p) (atomPositions3d m)
  | None => True
  end ->
  roundTrip m = m.
Proof.
  unfold roundTrip. destruct (unitCell m) as [cell|] eqn:Ec.
  - intros [Hr Hp]. unfold roundTripAtom. cbn [option_map]. rewrite Hr.
    destruct m as [ats bds u bs d]. simpl in *.
    subst u. f_equal. unfold atomPositions3d in Hp. simpl in Hp.
    induction ats as [|[z p3 p2] ats IH]; [reflexivity|].
    change (omap position3d (mkAtom z p3 p2 :: ats))
      with (match p3 with Some y => y :: omap position3d ats | None => omap position3d ats end)
      in Hp.
    simpl. destruct p3 as [p|]; simpl.
    + inversion Hp as [|? ? Hp1 Hp2]; subst. rewrite Hp1. f_equal. now apply IH.
    + f_equal. now apply IH.
  - intros _. destruct m as [ats bds u bs d]. simpl in *. subst u. simpl.
    f_equal. apply map_id.
Qed.


End RoundTrip.

(** The states in which decoding the two documents ends. *)
Definition crystalState : State :=
  Eval vm_compute in finalState (read Json.strict Rectangular.toCartesian docCrystal freshState).

Definition obliqueState : State :=
  Eval vm_compute in
    finalState (read Json.strict Rectangular.toCartesian docObliqueCell freshState).

Definition obliqueStateAgain : State :=
  Eval vm_compute in
    finalState (read Json.strict Rectangular.toCartesian
                  (fst (write Rectangular.toFractional (molecule obliqueState))) freshState).

Definition zeroLengthCellState : State :=
  Eval vm_compute in
    finalState (read Json.strict Rectangular.toCartesian docZeroLengthCell freshState).


(** * Further properties of the codec *)

(** ** The error log *)

(** A statement that logs nothing unless it returns failure, and then logs
    one message. *)
Definition quiet {A} (m : Stmt A) : Prop :=
  forall s,
    match m s with
    | Return false s' => exists msg, errors s' = errors s ++ [msg]
    | Next _ s' | Return true s' | Raise s' => errors s' = errors s
    end.

Lemma quiet_next {A} (x : A) : quiet (next x).
Proof. now intros s. Qed.

Lemma quiet_call {A} (o : option A) : quiet (call o).
Proof. intros s. now destruct o. Qed.

Lemma quiet_update f : quiet (update f).
Proof. now intros s. Qed.

Lemma quiet_fail {A} msg : quiet (run appendError msg; @return_ A false).
Proof. intros s. simpl. now exists msg. Qed.

Lemma quiet_bind {A B} (m : Stmt A) (k : A -> Stmt B) :
  quiet m -> (forall x, quiet (k x)) -> quiet (bind m k).
Proof.
  intros Hm Hk s. unfold bind. specialize (Hm s).
  destruct (m s) as [x s1|[] s1|s1]; try exact Hm.
  specialize (Hk x s1). rewrite <- Hm. exact Hk.
Qed.

Lemma quiet_if {A} (c : bool) (m1 m2 : Stmt A) :
  quiet m1 -> quiet m2 -> quiet (if c then m1 else m2).
Proof. now destruct c. Qed.

Lemma quiet_forFrom body n :
  (forall i, quiet (body i)) -> forall i, quiet (forFrom i n body).
Proof.
  intros Hb. induction n as [|n IH]; intros i; simpl.
  - apply quiet_next.
  - apply quiet_bind; [apply Hb | intros _; apply IH].
Qed.

Ltac is_quiet :=
  repeat first
    [ apply quiet_next | apply quiet_call | apply quiet_update | apply quiet_fail
    | apply quiet_forFrom; intros
    | apply quiet_bind; [|intros]
    | apply quiet_if ].

Lemma readRoot_quiet {lib} root : quiet (readRoot lib root).
Proof. unfold readRoot. is_quiet. Qed.

Lemma readMetadata_quiet root : quiet (readMetadata root).
Proof. unfold readMetadata. is_quiet. Qed.

Lemma readUnitCell_quiet root : quiet (readUnitCell root).
Proof. unfold readUnitCell. is_quiet. Qed.

Lemma readAtoms_quiet {lib} root : quiet (readAtoms lib root).
Proof. unfold readAtoms, for_. is_quiet. Qed.

Lemma readCoords3d_quiet {lib} coords n : quiet (readCoords3d lib coords n).
Proof. unfold readCoords3d, for_. is_quiet. Qed.

Lemma readCoords2d_quiet {lib} coords n : quiet (readCoords2d lib coords n).
Proof. unfold readCoords2d, for_. is_quiet. Qed.

Lemma readOrders_quiet {lib} value n : quiet (readOrders lib value n).
Proof. unfold readOrders, for_. is_quiet. Qed.

Section Log.

Context {lib : Json.Library}.

Variable toCartesian : UnitCell.t -> Vector3 -> Vector3.

Lemma readCoordsFractional_quiet coords n :
  quiet (readCoordsFractional toCartesian coords n).
Proof.
  unfold readCoordsFractional.
  apply quiet_bind; [apply quiet_call|]. intros value.
  apply quiet_if; [|apply quiet_next].
  intros s. destruct (unitCell (molecule s));
    match goal with
    | |- match ?m s with _ => _ end =>
        let Hx := fresh in assert (Hx : quiet m) by is_quiet; apply Hx
    end.
Qed.

Lemma readCoords_quiet atoms n : quiet (readCoords lib toCartesian atoms n).
Proof.
  unfold readCoords.
  apply quiet_bind; [apply quiet_call|]. intros coords.
  apply quiet_if; [|apply quiet_next].
  apply quiet_bind; [apply readCoords3d_quiet|]. intros _.
  apply quiet_bind; [apply readCoords2d_quiet|]. intros _.
  apply readCoordsFractional_quiet.
Qed.

(** What a statement may log when the bond warning is among its messages. *)
Definition warns {A} (m : Stmt A) : Prop :=
  forall s,
    match m s with
    | Return false s' =>
        (exists msg, errors s' = errors s ++ [msg])
        \/ errors s' = errors s ++ [msgWarning; msgOrders]
    | Next _ s' | Return true s' | Raise s' =>
        errors s' = errors s \/ errors s' = errors s ++ [msgWarning]
    end.

Lemma quiet_warns {A B} (m : Stmt A) (k : A -> Stmt B) :
  quiet m -> (forall x, warns (k x)) -> warns (bind m k).
Proof.
  intros Hm Hk s. unfold bind. specialize (Hm s).
  destruct (m s) as [x s1|[] s1|s1]; try (now left).
  specialize (Hk x s1). rewrite <- Hm. exact Hk.
Qed.

Lemma warns_of_quiet {A} (m : Stmt A) : quiet m -> warns m.
Proof.
  intros Hm s. specialize (Hm s). destruct (m s) as [x s1|[] s1|s1]; now left.
Qed.

Lemma connections_orders_warns index bonds :
  warns (do bondCount <- readConnections lib index;
         do value <- call (Json.member bonds "order");
         readOrders lib value bondCount).
Proof.
  unfold readConnections.
  destruct (Json.isArray lib index).
  - apply warns_of_quiet. unfold for_. is_quiet.
  - intros s.
    assert (Hr : (do bondCount <- (run appendError "Warning, no bonding information found.";
                                   next 0%nat);
                  do value <- call (Json.member bonds "order");
                  readOrders lib value bondCount) s =
                 match Json.member bonds "order" with
                 | Some order => readOrders lib order 0%nat (logged msgWarning s)
                 | None => Raise (logged msgWarning s)
                 end).
    { unfold bind, call. simpl. now destruct (Json.member bonds "order"). }
    rewrite Hr. clear Hr.
    destruct (Json.member bonds "order") as [order|]; [|now right].
    pose proof (readOrders_quiet (lib:=lib) order 0%nat (logged msgWarning s)) as Ho.
    unfold readOrders in *.
    destruct (Json.isArray lib order); [|now right].
    destruct (negb _).
    + right. simpl. now rewrite <- app_assoc.
    + simpl. now right.
Qed.

Lemma readBonds_warns root : warns (readBonds lib root).
Proof.
  unfold readBonds.
  apply quiet_warns; [apply quiet_call|]. intros bonds.
  destruct (negb _); [|apply warns_of_quiet, quiet_next].
  apply quiet_warns; [apply quiet_call|]. intros value.
  destruct (Json.empty value); [apply warns_of_quiet, quiet_fail|].
  apply quiet_warns; [apply quiet_call|]. intros index.
  apply connections_orders_warns.
Qed.

Lemma read_warns root : warns (read lib toCartesian root).
Proof.
  unfold read.
  apply quiet_warns; [apply readRoot_quiet|]. intros _.
  apply quiet_warns; [apply readMetadata_quiet|]. intros _.
  apply quiet_warns; [apply readUnitCell_quiet|]. intros _.
  apply quiet_warns; [apply readAtoms_quiet|]. intros r.
  apply quiet_warns; [apply readCoords_quiet|]. intros _.
  intros s. unfold bind. pose proof (readBonds_warns root s) as Hb.
  destruct (readBonds lib root s) as [x s1|[] s1|s1]; exact Hb.
Qed.

(** X1. The error log of [read] (lines 55-233).  [read] only appends to the
    log.  When it returns success it has appended nothing, or the one warning
    about the bonding information.  When it returns failure it has appended
    exactly one error message, the last entry of the log, preceded by nothing
    else or, for the bond order message, by that warning.  [read] ends by a
    return or an exception, never by falling through. *)
Theorem read_log root s :
  match read lib toCartesian root s with
  | Return true s' => errors s' = errors s \/ errors s' = errors s ++ [msgWarning]
  | Return false s' =>
      (exists msg, errors s' = errors s ++ [msg])
      \/ errors s' = errors s ++ [msgWarning; msgOrders]
  | Raise s' => errors s' = errors s \/ errors s' = errors s ++ [msgWarning]
  | Next _ _ => False
  end.
Proof.
  pose proof (read_warns root s) as H.
  pose proof (read_not_Next (lib:=lib) toCartesian root s) as Hn.
  destruct (read lib toCartesian root s) as [x s1|[] s1|s1]; try exact H.
  now apply (Hn x s1).
Qed.

End Log.

(** ** What every block of [read] keeps

    [read] changes the molecule through eight calls only; a property of the
    state that each of them and [appendError] keep is kept by every block,
    however the block is left. *)

Section Frame.

Context {lib : Json.Library}.

Variable toCartesian : UnitCell.t -> Vector3 -> Vector3.
Variable P : State -> Prop.

Hypothesis P_log : forall msg s, P s -> P (logged msg s).
Hypothesis P_setData : forall key v s,
  key = "name" \/ key = "inchi" ->
  P s -> P (mkState (setData key (VString v) (molecule s)) (errors s)).
Hypothesis P_setUnitCell : forall u s,
  P s -> P (mkState (setUnitCell u (molecule s)) (errors s)).
Hypothesis P_addAtom : forall z s,
  P s -> P (mkState (addAtom (to_uchar z) (molecule s)) (errors s)).
Hypothesis P_setPosition3d : forall i p s,
  P s -> P (mkState (setPosition3d i p (molecule s)) (errors s)).
Hypothesis P_setPosition2d : forall i p s,
  P s -> P (mkState (setPosition2d i p (molecule s)) (errors s)).
Hypothesis P_addBond : forall i j s,
  P s -> P (mkState (addBond i j (molecule s)) (errors s)).
Hypothesis P_setOrder : forall i o s,
  P s -> P (mkState (setOrder i (to_uchar o) (molecule s)) (errors s)).

Ltac framed :=
  repeat first
    [ apply preserves_next | apply preserves_return | apply preserves_call
    | apply preserves_fail; intros ? ?; now apply P_log
    | apply preserves_appendError; intros ? ?; now apply P_log
    | apply preserves_forFrom; intros
    | apply preserves_bind; [|intros]
    | apply preserves_if ].

Lemma readRoot_frame root : preserves P (readRoot lib root).
Proof. unfold readRoot. framed. Qed.

Lemma readMetadata_frame root : preserves P (readMetadata root).
Proof.
  unfold readMetadata. framed; apply preserves_update; intros s H; apply P_setData; auto.
Qed.

Lemma readUnitCell_frame root : preserves P (readUnitCell root).
Proof. unfold readUnitCell. framed. apply preserves_update. intros s H. now apply P_setUnitCell. Qed.

Lemma readAtoms_frame root : preserves P (readAtoms lib root).
Proof. unfold readAtoms, for_. framed. apply preserves_update. intros s H. now apply P_addAtom. Qed.

Lemma readCoords3d_frame coords n : preserves P (readCoords3d lib coords n).
Proof.
  unfold readCoords3d, for_. framed. apply preserves_update. intros s H.
  now apply P_setPosition3d.
Qed.

Lemma readCoords2d_frame coords n : preserves P (readCoords2d lib coords n).
Proof.
  unfold readCoords2d, for_. framed. apply preserves_update. intros s H.
  now apply P_setPosition2d.
Qed.

Lemma setPositionsFrom_frame ps : forall i s,
  P s -> P (mkState (setPositionsFrom i ps (molecule s)) (errors s)).
Proof.
  induction ps as [|p ps IH]; intros i s H; simpl.
  - now rewrite state_eta.
  - exact (IH (S i) _ (P_setPosition3d i p s H)).
Qed.

Lemma setFractionalCoordinates_frame fcoords s :
  P s -> P (mkState (setFractionalCoordinates toCartesian fcoords (molecule s)) (errors s)).
Proof.
  intros H. unfold setFractionalCoordinates. destruct (unitCell (molecule s)).
  - now apply setPositionsFrom_frame.
  - now rewrite state_eta.
Qed.

Lemma readCoordsFractional_frame coords n :
  preserves P (readCoordsFractional toCartesian coords n).
Proof.
  unfold readCoordsFractional. apply preserves_bind; [apply preserves_call|].
  intros value. apply preserves_if; [|apply preserves_next].
  intros s H. destruct (unitCell (molecule s)).
  - revert s H.
    assert (Hp : preserves P
      (if negb (Json.size value =? 0)%nat && negb (n =? Json.size value / 3)%nat
       then run appendError ("Error: number of elements != number of fractional "
                              +:+ "coordinates."); return_ false
       else do fcoords <- call (collectFrom 0 n (fractionalAt value));
            update (setFractionalCoordinates toCartesian fcoords))).
    { framed. apply preserves_update. intros s H. now apply setFractionalCoordinates_frame. }
    exact Hp.
  - revert H. apply preserves_fail. intros s1 H1. now apply P_log.
Qed.

Lemma readCoords_frame atoms n : preserves P (readCoords lib toCartesian atoms n).
Proof.
  unfold readCoords. apply preserves_bind; [apply preserves_call|].
  intros coords. apply preserves_if; [|apply preserves_next].
  apply preserves_bind; [apply readCoords3d_frame|]. intros _.
  apply preserves_bind; [apply readCoords2d_frame|]. intros _.
  apply readCoordsFractional_frame.
Qed.

Lemma readConnections_frame value : preserves P (readConnections lib value).
Proof.
  unfold readConnections, for_. framed. apply preserves_update. intros s H.
  now apply P_addBond.
Qed.

Lemma readOrders_frame value n : preserves P (readOrders lib value n).
Proof.
  unfold readOrders, for_. framed. apply preserves_update. intros s H.
  now apply P_setOrder.
Qed.

Lemma readBonds_frame root : preserves P (readBonds lib root).
Proof.
  unfold readBonds. apply preserves_bind; [apply preserves_call|].
  intros bonds. apply preserves_if; [|apply preserves_next].
  apply preserves_bind; [apply preserves_call|].
  intros value. apply preserves_if; [apply preserves_fail; intros ? ?; now apply P_log|].
  apply preserves_bind; [apply preserves_call|]. intros index.
  apply preserves_bind; [apply readConnections_frame|]. intros bondCount.
  apply preserves_bind; [apply preserves_call|]. intros order.
  apply readOrders_frame.
Qed.

(** The blocks after the atoms, and after the metadata. *)
Lemma afterAtoms_frame root (r : Json.Value * nat) :
  preserves P (run readCoords lib toCartesian (fst r) (snd r); run readBonds lib root; @return_ unit true).
Proof.
  apply preserves_bind; [apply readCoords_frame|]. intros _.
  apply preserves_bind; [apply readBonds_frame|]. intros _.
  apply preserves_return.
Qed.

Lemma afterMetadata_frame root :
  preserves P (run readUnitCell root;
               do r <- readAtoms lib root;
               run readCoords lib toCartesian (fst r) (snd r);
               run readBonds lib root;
               @return_ unit true).
Proof.
  apply preserves_bind; [apply readUnitCell_frame|]. intros _.
  apply preserves_bind; [apply readAtoms_frame|]. intros r.
  apply afterAtoms_frame.
Qed.

Lemma read_frame root : preserves P (read lib toCartesian root).
Proof.
  unfold read.
  apply preserves_bind; [apply readRoot_frame|]. intros _.
  apply preserves_bind; [apply readMetadata_frame|]. intros _.
  apply afterMetadata_frame.
Qed.

End Frame.

Lemma map_alter_ends o i (bds : list Bond) :
  map ends (alter (withOrder o) i bds) = map ends bds.
Proof. now apply map_alter_id. Qed.

Lemma readRoot_object {lib} root s :
  Json.isObjectValue root = true -> Json.empty (Json.at_ root "chemical json") = false ->
  readRoot lib root s = Next tt s.
Proof.
  intros Ho Hm. unfold readRoot. rewrite (isObject_object lib _ Ho). cbn [negb].
  rewrite (bind_Next _ _ _ _ _ (call_Some _ _ s (member_at _ _ (isObject_isContainer _ Ho)))).
  now rewrite Hm.
Qed.

(** The metadata block on an object. *)
Lemma readMetadata_object root s :
  Json.isObjectValue root = true ->
  readMetadata root s =
  Next tt (mkState (storeText root "inchi" (storeText root "name" (molecule s))) (errors s)).
Proof.
  intros Ho. unfold readMetadata, storeText.
  pose proof (isObject_isContainer _ Ho) as Hc.
  rewrite (bind_Next _ _ _ _ _ (call_Some _ _ s (member_at _ _ Hc))).
  cbv zeta.
  destruct (negb (Json.empty (Json.at_ root "name")) && Json.isString (Json.at_ root "name"));
    unfold bind at 1; cbn [update next];
    rewrite (bind_Next _ _ _ _ _ (call_Some _ _ _ (member_at _ _ Hc)));
    destruct (negb (Json.empty (Json.at_ root "inchi")) && Json.isString (Json.at_ root "inchi"));
    cbn [update next molecule errors]; try reflexivity.
  now rewrite state_eta.
Qed.

Section Kept.

Context {lib : Json.Library}.

Variable toCartesian : UnitCell.t -> Vector3 -> Vector3.

(** X2. Whichever way [read] ends, the molecule has the basis set it had
    before, and its metadata under every key other than name and inchi is as
    it was: the decoder calls [setData] for these two keys only (lines 77-82)
    and never sets a basis set. *)
Theorem read_keeps_basis_set_and_other_data root s :
  let s' := finalState (read lib toCartesian root s) in
  basisSet (molecule s') = basisSet (molecule s)
  /\ forall key, key <> "name" -> key <> "inchi" ->
       data (molecule s') !! key = data (molecule s) !! key.
Proof.
  intros s'.
  pose (P := fun st : State =>
               basisSet (molecule st) = basisSet (molecule s)
               /\ forall key, key <> "name" -> key <> "inchi" ->
                    data (molecule st) !! key = data (molecule s) !! key).
  assert (H : preserves P (read lib toCartesian root)).
  { apply read_frame; unfold P; try (intros; assumption).
    intros key v st [-> | ->] [Hb Hd]; (split; [exact Hb|]); intros k H1 H2; simpl;
      rewrite lookup_insert_ne by congruence; now apply Hd. }
  apply H. unfold P. auto.
Qed.

(** X3. Whichever way [read] ends, it has only added atoms and bonds: the
    atomic numbers of the atoms that were in the molecule are a prefix of the
    atomic numbers afterwards, and the ends of the bonds that were in the
    molecule are a prefix of the ends afterwards.  Nothing is removed or
    rolled back when [read] fails half way. *)
Theorem read_only_adds root s :
  let s' := finalState (read lib toCartesian root s) in
  (exists added,
     map atomicNumber (atoms (molecule s')) = map atomicNumber (atoms (molecule s)) ++ added)
  /\ (exists added, map ends (bonds (molecule s')) = map ends (bonds (molecule s)) ++ added).
Proof.
  intros s'.
  pose (P := fun st : State =>
               (exists added, map atomicNumber (atoms (molecule st)) =
                              map atomicNumber (atoms (molecule s)) ++ added)
               /\ (exists added, map ends (bonds (molecule st)) =
                                 map ends (bonds (molecule s)) ++ added)).
  assert (H : preserves P (read lib toCartesian root)).
  { apply read_frame; unfold P; try (intros; assumption).
    - intros z st [[a Ha] Hb]. split; [|exact Hb]. simpl.
      exists (a ++ [to_uchar z]). now rewrite map_app, Ha, <- app_assoc.
    - intros i p st [[a Ha] Hb]. split; [|exact Hb]. simpl.
      exists a. rewrite <- Ha. now apply map_alter_id.
    - intros i p st [[a Ha] Hb]. split; [|exact Hb]. simpl.
      exists a. rewrite <- Ha. now apply map_alter_id.
    - intros i j st [Ha [b Hb]]. split; [exact Ha|]. simpl.
      exists (b ++ [(i, j)]). now rewrite map_app, Hb, <- app_assoc.
    - intros i o st [Ha [b Hb]]. split; [exact Ha|]. simpl.
      exists b. rewrite <- Hb. apply map_alter_ends. }
  apply H. unfold P. split; exists []; now rewrite app_nil_r.
Qed.

(** X4. Name and inchi (lines 77-82).  For a document that passes the
    identity check, and whichever way [read] ends after it, the metadata of the
    molecule is the one it had with the name member stored when that member is
    a string, and then the inchi member stored when it is a string.  A member
    that is not a string (a number, say) is ignored without message. *)
Theorem read_metadata root s :
  Json.isObjectValue root = true ->
  Json.empty (Json.at_ root "chemical json") = false ->
  data (molecule (finalState (read lib toCartesian root s))) =
  data (storeText root "inchi" (storeText root "name" (molecule s))).
Proof.
  intros Ho Hm. unfold read.
  rewrite (bind_Next _ _ _ _ _ (readRoot_object root s Ho Hm)).
  rewrite (bind_Next _ _ _ _ _ (readMetadata_object root s Ho)).
  set (d := data (storeText root "inchi" (storeText root "name" (molecule s)))).
  pose (P := fun st : State => data (molecule st) = d).
  assert (H : preserves P (run readUnitCell root;
                           do r <- readAtoms lib root;
                           run readCoords lib toCartesian (fst r) (snd r);
                           run readBonds lib root;
                           @return_ unit true)).
  { apply afterMetadata_frame; unfold P; intros; assumption. }
  now apply H.
Qed.

End Kept.

(** ** The checks of the decoder *)

Lemma readUnitCell_bad root s :
  Json.isObjectValue root = true ->
  Json.isObjectValue (Json.at_ root "unit cell") = true ->
  numericCell (Json.at_ root "unit cell") = false ->
  readUnitCell root s = Return false (logged msgBadCell s).
Proof.
  intros Hroot Hobj Hnum. unfold readUnitCell.
  rewrite (bind_Next _ _ _ _ _
             (call_Some _ _ s (member_at _ "unit cell" (isObject_isContainer _ Hroot)))).
  rewrite Hobj.
  pose proof (isObject_isContainer _ Hobj) as Hc.
  rewrite !(bind_Next _ _ _ _ _ (call_Some _ _ s (member_at _ _ Hc))).
  unfold numericCell in Hnum.
  destruct (Json.isNumeric (Json.at_ (Json.at_ root "unit cell") "a"));
    destruct (Json.isNumeric (Json.at_ (Json.at_ root "unit cell") "b"));
    destruct (Json.isNumeric (Json.at_ (Json.at_ root "unit cell") "c"));
    destruct (Json.isNumeric (Json.at_ (Json.at_ root "unit cell") "alpha"));
    destruct (Json.isNumeric (Json.at_ (Json.at_ root "unit cell") "beta"));
    destruct (Json.isNumeric (Json.at_ (Json.at_ root "unit cell") "gamma"));
    try discriminate Hnum; reflexivity.
Qed.

(** The atoms block on an object, check by check. *)
Lemma readAtoms_defect {lib} root s :
  Json.isObjectValue root = true ->
  let atoms := Json.at_ root "atoms" in
  let elements := Json.at_ atoms "elements" in
  let number := Json.at_ elements "number" in
  (Json.empty atoms = true -> readAtoms lib root s = Return false (logged msgNoAtoms s))
  /\ (Json.empty atoms = false -> Json.isObjectValue atoms = false ->
      readAtoms lib root s = Return false (logged msgAtomsNotObject s))
  /\ (Json.isObjectValue atoms = true -> Json.empty atoms = false -> Json.empty elements = true ->
      readAtoms lib root s = Return false (logged msgNoElements s))
  /\ (Json.isObjectValue atoms = true -> Json.empty atoms = false ->
      Json.empty elements = false -> Json.isObjectValue elements = false ->
      readAtoms lib root s = Return false (logged msgElementsNotObject s))
  /\ (Json.isObjectValue atoms = true -> Json.empty atoms = false ->
      Json.isObjectValue elements = true -> Json.empty elements = false ->
      Json.empty number = true ->
      readAtoms lib root s = Return false (logged msgNoNumber s))
  /\ (Json.isObjectValue atoms = true -> Json.empty atoms = false ->
      Json.isObjectValue elements = true -> Json.empty elements = false ->
      Json.empty number = false -> Json.isArrayValue number = false ->
      readAtoms lib root s = Return false (logged msgNumberNotArray s)).
Proof.
  intros Hroot atoms elements number.
  pose proof (member_at _ "atoms" (isObject_isContainer _ Hroot)) as Ha.
  fold atoms in Ha.
  assert (H1 : readAtoms lib root s =
               if Json.empty atoms then Return false (logged msgNoAtoms s)
               else if negb (Json.isObjectValue atoms)
                    then Return false (logged msgAtomsNotObject s)
                    else
                      (do value <- call (Json.member atoms "elements");
                       if Json.empty value then
                         run appendError msgNoElements; return_ false
                       else if negb (Json.isObjectValue value) then
                         run appendError msgElementsNotObject; return_ false
                       else
                         do value <- call (Json.member value "number");
                         if Json.empty value then
                           run appendError msgNoNumber; return_ false
                         else if Json.isArray lib value then
                           let atomCount := Json.size value in
                           run for_ atomCount (fun i =>
                                 do n <- call (Json.asInt (Json.get value i (Json.intValue 0)));
                                 update (addAtom (to_uchar n)));
                           next (atoms, atomCount)
                         else
                           run appendError msgNumberNotArray; return_ false) s).
  { unfold readAtoms. rewrite (bind_Next _ _ _ _ _ (call_Some _ _ s Ha)).
    destruct (Json.empty atoms); [reflexivity|].
    destruct (Json.isObjectValue atoms); reflexivity. }
  assert (H2 : Json.isObjectValue atoms = true -> Json.empty atoms = false ->
               readAtoms lib root s =
               if Json.empty elements then Return false (logged msgNoElements s)
               else if negb (Json.isObjectValue elements)
                    then Return false (logged msgElementsNotObject s)
                    else
                      (do value <- call (Json.member elements "number");
                       if Json.empty value then
                         run appendError msgNoNumber; return_ false
                       else if Json.isArray lib value then
                         let atomCount := Json.size value in
                         run for_ atomCount (fun i =>
                               do n <- call (Json.asInt (Json.get value i (Json.intValue 0)));
                               update (addAtom (to_uchar n)));
                         next (atoms, atomCount)
                       else
                         run appendError msgNumberNotArray; return_ false) s).
  { intros Ho He. rewrite H1, He, Ho. cbn [negb].
    rewrite (bind_Next _ _ _ _ _
               (call_Some _ _ s (member_at _ "elements" (isObject_isContainer _ Ho)))).
    fold elements.
    destruct (Json.empty elements); [reflexivity|].
    destruct (Json.isObjectValue elements); reflexivity. }
  assert (H3 : Json.isObjectValue atoms = true -> Json.empty atoms = false ->
               Json.isObjectValue elements = true -> Json.empty elements = false ->
               readAtoms lib root s =
               if Json.empty number then Return false (logged msgNoNumber s)
               else if Json.isArray lib number
                    then (let atomCount := Json.size number in
                          run for_ atomCount (fun i =>
                                do n <- call (Json.asInt (Json.get number i (Json.intValue 0)));
                                update (addAtom (to_uchar n)));
                          next (atoms, atomCount)) s
                    else Return false (logged msgNumberNotArray s)).
  { intros Ho He Ho' He'. rewrite (H2 Ho He), He', Ho'. cbn [negb].
    rewrite (bind_Next _ _ _ _ _
               (call_Some _ _ s (member_at _ "number" (isObject_isContainer _ Ho')))).
    fold number.
    destruct (Json.empty number); [reflexivity|].
    destruct (Json.isArray lib number); reflexivity. }
  repeat split.
  - intros He. now rewrite H1, He.
  - intros He Ho. now rewrite H1, He, Ho.
  - intros Ho He He'. now rewrite (H2 Ho He), He'.
  - intros Ho He He' Ho'. now rewrite (H2 Ho He), He', Ho'.
  - intros Ho He Ho' He' Hn. now rewrite (H3 Ho He Ho' He'), Hn.
  - intros Ho He Ho' He' Hn Ha'.
    now rewrite (H3 Ho He Ho' He'), Hn, (isArray_not_empty lib _ Hn), Ha'.
Qed.

Lemma collectFrom_lookup {V} (f : nat -> option V) n : forall k vs,
  collectFrom k n f = Some vs ->
  forall i, (i < n)%nat -> f (k + i)%nat = vs !! i.
Proof.
  induction n as [|n IH]; intros k vs H i Hi; [lia|].
  simpl in H. destruct (f k) as [v|] eqn:Ek; [|discriminate].
  destruct (collectFrom (S k) n f) as [vs'|] eqn:E; [|discriminate].
  injection H as <-. destruct i as [|i].
  - now rewrite Nat.add_0_r, Ek.
  - replace (k + S i)%nat with (S k + i)%nat by lia. simpl. apply (IH _ _ E). lia.
Qed.

(** The integers that a loop over a whole array has read. *)
Lemma collected_ints numbers d vs :
  collectFrom 0 (length numbers)
    (fun i => Json.asInt (Json.get (Json.arrayValue numbers) i (Json.intValue d))) = Some vs ->
  allInts numbers /\ vs = map (fun v => default 0 (Json.asInt v)) numbers.
Proof.
  intros H. pose proof (collectFrom_length _ _ _ _ H) as Hlen.
  pose proof (collectFrom_lookup _ _ _ _ H) as Hl. simpl in Hl.
  assert (Hx : forall i x, numbers !! i = Some x -> Json.asInt x = vs !! i).
  { intros i x Hi. rewrite <- Hl by (eapply lookup_lt_Some; eauto). now rewrite Hi. }
  split.
  - unfold allInts. apply Forall_lookup. intros i x Hi.
    rewrite (Hx _ _ Hi). apply lookup_lt_is_Some. rewrite Hlen. eapply lookup_lt_Some; eauto.
  - apply list_eq. intros i. rewrite list_lookup_fmap.
    destruct (numbers !! i) as [x|] eqn:Hi; simpl.
    + rewrite (Hx _ _ Hi).
      destruct (vs !! i) eqn:Ev; [reflexivity|].
      apply lookup_ge_None in Ev. apply lookup_lt_Some in Hi. lia.
    + apply lookup_ge_None. apply lookup_ge_None in Hi. lia.
Qed.

Section Checks.

Context {lib : Json.Library}.

Variable toCartesian : UnitCell.t -> Vector3 -> Vector3.

(** X5. An invalid unit cell (lines 84-95).  When the unit cell member is
    an object and one of a, b, c, alpha, beta, gamma is missing or not numeric,
    [read] returns failure with the unit cell message.  No unit cell is
    attached and no atom is read, but the name and the inchi read before stay
    in the molecule. *)
Theorem read_rejects_bad_unit_cell root s :
  Json.isObjectValue root = true ->
  Json.empty (Json.at_ root "chemical json") = false ->
  Json.isObjectValue (Json.at_ root "unit cell") = true ->
  numericCell (Json.at_ root "unit cell") = false ->
  read lib toCartesian root s =
  Return false
    (logged msgBadCell
       (mkState (storeText root "inchi" (storeText root "name" (molecule s))) (errors s))).
Proof.
  intros Ho Hm Hc Hn. unfold read.
  rewrite (bind_Next _ _ _ _ _ (readRoot_object root s Ho Hm)).
  rewrite (bind_Next _ _ _ _ _ (readMetadata_object root s Ho)).
  now rewrite (bind_Return _ _ _ _ _ (readUnitCell_bad root _ Ho Hc Hn)).
Qed.

(** X6. The atoms are mandatory (lines 107-142).  Once the identity check is
    passed and the unit cell block has fallen through, leaving the state [s3],
    [read] returns failure, with [s3] and one message, in each of these cases:
    the atoms member is absent or empty; it is not an object; its elements
    member is absent or empty; that one is not an object; the number member is
    absent or empty (an empty array included); it is not an array. *)
Theorem read_requires_atoms root s s3 :
  Json.isObjectValue root = true ->
  Json.empty (Json.at_ root "chemical json") = false ->
  readUnitCell root
    (mkState (storeText root "inchi" (storeText root "name" (molecule s))) (errors s))
  = Next tt s3 ->
  let atoms := Json.at_ root "atoms" in
  let elements := Json.at_ atoms "elements" in
  let number := Json.at_ elements "number" in
  (Json.empty atoms = true ->
   read lib toCartesian root s = Return false (logged msgNoAtoms s3))
  /\ (Json.empty atoms = false -> Json.isObjectValue atoms = false ->
      read lib toCartesian root s = Return false (logged msgAtomsNotObject s3))
  /\ (Json.isObjectValue atoms = true -> Json.empty atoms = false -> Json.empty elements = true ->
      read lib toCartesian root s = Return false (logged msgNoElements s3))
  /\ (Json.isObjectValue atoms = true -> Json.empty atoms = false ->
      Json.empty elements = false -> Json.isObjectValue elements = false ->
      read lib toCartesian root s = Return false (logged msgElementsNotObject s3))
  /\ (Json.isObjectValue atoms = true -> Json.empty atoms = false ->
      Json.isObjectValue elements = true -> Json.empty elements = false ->
      Json.empty number = true ->
      read lib toCartesian root s = Return false (logged msgNoNumber s3))
  /\ (Json.isObjectValue atoms = true -> Json.empty atoms = false ->
      Json.isObjectValue elements = true -> Json.empty elements = false ->
      Json.empty number = false -> Json.isArrayValue number = false ->
      read lib toCartesian root s = Return false (logged msgNumberNotArray s3)).
Proof.
  intros Ho Hm Hc atoms elements number.
  assert (Hr : read lib toCartesian root s =
               (do r <- readAtoms lib root;
                run readCoords lib toCartesian (fst r) (snd r);
                run readBonds lib root;
                return_ true) s3).
  { unfold read.
    rewrite (bind_Next _ _ _ _ _ (readRoot_object root s Ho Hm)).
    rewrite (bind_Next _ _ _ _ _ (readMetadata_object root s Ho)).
    now rewrite (bind_Next _ _ _ _ _ Hc). }
  destruct (readAtoms_defect (lib:=lib) root s3 Ho) as (D1 & D2 & D3 & D4 & D5 & D6).
  rewrite Hr.
  repeat split; intros;
    match goal with
    | |- bind _ _ _ = Return false (logged ?msg _) =>
        apply bind_Return; auto
    end.
Qed.

(** X7. The atoms of a successful decoding (lines 127-138).  When [read]
    returns success, the number member of the document is an array that is not
    empty, each of its elements converts to an [int], and the atomic numbers
    of the molecule are those it had before followed by one per element, the
    element cast to [unsigned char], that is taken modulo 256. *)
Theorem read_success_atoms root s0 s :
  read lib toCartesian root s0 = Return true s ->
  exists numbers,
    Json.at_ (Json.at_ (Json.at_ root "atoms") "elements") "number" = Json.arrayValue numbers
    /\ numbers <> []
    /\ allInts numbers
    /\ map atomicNumber (atoms (molecule s)) =
       map atomicNumber (atoms (molecule s0))
       ++ map (fun v => to_uchar (default 0 (Json.asInt v))) numbers.
Proof.
  intros H.
  destruct (read_success _ _ _ _ H)
    as (s1 & s2 & s3 & r & s4 & s5 & H1 & H2 & H3 & H4 & H5 & H6).
  destruct (readRoot_Next _ _ _ _ H1) as (_ & _ & ->).
  destruct (readMetadata_Next _ _ _ _ H2) as (_ & Ma & _).
  destruct (readUnitCell_Next _ _ _ _ H3) as (_ & Ua & _).
  destruct (readAtoms_Next _ _ _ _ H4) as (numbers & Hm & Hnum & Hn & Hne & Hloop).
  exists numbers.
  assert (Hat : Json.at_ root "atoms" = fst r) by (unfold Json.at_; now rewrite Hm).
  rewrite Hat. split; [exact Hnum|]. split; [exact Hne|].
  unfold for_ in Hloop.
  apply (forFrom_updates_Next
           (fun i => Json.asInt (Json.get (Json.arrayValue numbers) i (Json.intValue 0)))
           (fun _ v => addAtom (to_uchar v))) in Hloop.
  2:{ intros i st. unfold bind, call. now destruct (Json.asInt _). }
  destruct Hloop as (vs & Hvs & _ & ->).
  destruct (collected_ints _ _ _ Hvs) as [Hall ->]. split; [exact Hall|].
  set (L := map atomicNumber (atoms (molecule s0))
            ++ map (fun v => to_uchar (default 0 (Json.asInt v))) numbers).
  pose (P := fun st : State => map atomicNumber (atoms (molecule st)) = L).
  assert (P4 : P (mkState (applyFrom (fun _ v => addAtom (to_uchar v)) 0
                             (map (fun v => default 0 (Json.asInt v)) numbers) (molecule s3))
                          (errors s3))).
  { unfold P, L. simpl. rewrite applyFrom_addAtom. simpl.
    rewrite map_app, !map_map. simpl. now rewrite Ua, Ma. }
  assert (P5 : P s5).
  { pose proof (readCoords_frame (lib:=lib) toCartesian P) as Hc.
    specialize (Hc ltac:(intros; assumption)
                   ltac:(intros i p st Hst; unfold P in *; simpl;
                         rewrite <- Hst; now apply map_alter_id)
                   ltac:(intros i p st Hst; unfold P in *; simpl;
                         rewrite <- Hst; now apply map_alter_id)
                   (fst r) (snd r) _ P4).
    now rewrite H5 in Hc. }
  pose proof (readBonds_frame (lib:=lib) P) as Hb.
  specialize (Hb ltac:(intros; assumption) ltac:(intros; assumption)
                 ltac:(intros; assumption) root s5 P5).
  now rewrite H6 in Hb.
Qed.

End Checks.

Lemma read_rejects_bad_unit_cell_witness :
  read Json.strict Rectangular.toCartesian docCellWithoutGamma freshState =
  Return false (mkState (mkMolecule [] [] None None {["name" := VString "ice"]}) [msgBadCell]).
Proof.
  exact (read_rejects_bad_unit_cell (lib:=Json.strict) Rectangular.toCartesian docCellWithoutGamma freshState
           eq_refl eq_refl eq_refl eq_refl).
Defined.

Lemma read_requires_atoms_witness :
  read Json.strict Rectangular.toCartesian docNoNumbers freshState =
  Return false (logged msgNoNumber freshState).
Proof.
  exact (proj1 (proj2 (proj2 (proj2 (proj2
           (read_requires_atoms Rectangular.toCartesian docNoNumbers freshState freshState
              eq_refl eq_refl eq_refl)))))
           eq_refl eq_refl eq_refl eq_refl eq_refl).
Defined.

Lemma read_success_atoms_witness :
  exists numbers,
    Json.at_ (Json.at_ (Json.at_ docLargeNumbers "atoms") "elements") "number"
    = Json.arrayValue numbers
    /\ numbers <> []
    /\ allInts numbers
    /\ map atomicNumber
         (atoms (molecule (mkState (mkMolecule [mkAtom 1 None None; mkAtom 255 None None;
                                                mkAtom 8 None None] [] None None ∅) [])))
       = map atomicNumber (atoms (molecule freshState))
         ++ map (fun v => to_uchar (default 0 (Json.asInt v))) numbers.
Proof.
  apply (read_success_atoms (lib:=Json.strict) Rectangular.toCartesian docLargeNumbers freshState).
  vm_compute. reflexivity.
Defined.

Lemma read_metadata_witness :
  data (molecule (finalState (read Json.strict Rectangular.toCartesian docNumericName freshState))) =
  {["inchi" := VString "InChI=1S/H2O/h1H2"]}.
Proof.
  exact (read_metadata (lib:=Json.strict) Rectangular.toCartesian docNumericName freshState eq_refl eq_refl).
Defined.

(** ** Coordinates *)

Lemma size_check_fails (c n : nat) l :
  l <> [] -> n <> (length l / c)%nat ->
  negb (Json.size (Json.arrayValue l) =? 0)%nat
  && negb (n =? Json.size (Json.arrayValue l) / c)%nat = true.
Proof.
  intros Hl Hn. simpl.
  destruct (Nat.eqb_spec (length l) 0) as [E|_]; [now destruct l|].
  destruct (Nat.eqb_spec n (length l / c)); [contradiction | reflexivity].
Qed.

Lemma readCoords3d_mismatch {lib} coords l n s :
  Json.member coords "3d" = Some (Json.arrayValue l) ->
  l <> [] -> n <> (length l / 3)%nat ->
  readCoords3d lib coords n s = Return false (logged msg3d s).
Proof.
  intros Hm Hl Hn. unfold readCoords3d.
  rewrite (bind_Next _ _ _ _ _ (call_Some _ _ s Hm)). cbn [Json.isArray Json.isArrayValue].
  now rewrite size_check_fails.
Qed.

Lemma readCoords3d_empty {lib} coords s :
  Json.member coords "3d" = Some (Json.arrayValue []) ->
  readCoords3d lib coords (length (atoms (molecule s))) s =
  Next tt (mkState (withAtoms (map (withPosition3d origin3) (atoms (molecule s))) (molecule s))
                   (errors s)).
Proof.
  intros Hm. apply readCoords3d_blank with (v := Json.arrayValue []);
    [exact Hm | now right | reflexivity | reflexivity].
Qed.

Lemma readCoords2d_empty {lib} coords s :
  Json.member coords "2d" = Some (Json.arrayValue []) ->
  readCoords2d lib coords (length (atoms (molecule s))) s =
  Next tt (mkState (withAtoms (map (withPosition2d origin2) (atoms (molecule s))) (molecule s))
                   (errors s)).
Proof.
  intros Hm. apply readCoords2d_blank with (v := Json.arrayValue []);
    [exact Hm | now right | reflexivity | reflexivity].
Qed.

Lemma readCoords3d_absent {lib} coords s :
  Json.member coords "3d" = Some Json.nullValue ->
  readCoords3d lib coords (length (atoms (molecule s))) s =
  if Json.nullIsArray lib
  then Next tt (mkState (withAtoms (map (withPosition3d origin3) (atoms (molecule s)))
                                   (molecule s))
                        (errors s))
  else Next tt s.
Proof.
  intros Hm. destruct (Json.nullIsArray lib) eqn:Hl.
  - apply readCoords3d_blank with (v := Json.nullValue);
      [exact Hm | now left | now rewrite isArray_null | reflexivity].
  - apply readCoords3d_none with (v := Json.nullValue); [exact Hm | now rewrite isArray_null].
Qed.

Lemma readCoords2d_absent {lib} coords s :
  Json.member coords "2d" = Some Json.nullValue ->
  readCoords2d lib coords (length (atoms (molecule s))) s =
  if Json.nullIsArray lib
  then Next tt (mkState (withAtoms (map (withPosition2d origin2) (atoms (molecule s)))
                                   (molecule s))
                        (errors s))
  else Next tt s.
Proof.
  intros Hm. destruct (Json.nullIsArray lib) eqn:Hl.
  - apply readCoords2d_blank with (v := Json.nullValue);
      [exact Hm | now left | now rewrite isArray_null | reflexivity].
  - apply readCoords2d_none with (v := Json.nullValue); [exact Hm | now rewrite isArray_null].
Qed.

Lemma zip_with_withPosition3d_twice (qs ps : list Vector3) (ats : list Atom) :
  length ps = length ats ->
  zip_with withPosition3d qs (zip_with withPosition3d ps ats) = zip_with withPosition3d qs ats.
Proof.
  revert ps ats. induction qs as [|q qs IH]; intros [|p ps] [|a ats] H;
    try discriminate; try reflexivity.
  simpl. f_equal. apply IH. simpl in H. lia.
Qed.

Lemma alterFrom_prefix {A V} (h : V -> A -> A) vs (old new : list A) :
  (length vs <= length old)%nat ->
  alterFrom h 0 vs (old ++ new) = alterFrom h 0 vs old ++ new.
Proof.
  intros Hle.
  assert (G : forall vs k l, (k + length vs <= length l)%nat ->
              alterFrom h k vs (l ++ new) = alterFrom h k vs l ++ new).
  { clear. induction vs as [|v vs IH]; intros k l Hl; simpl; [reflexivity|].
    simpl in Hl.
    assert (Ha : alter (h v) k (l ++ new) = alter (h v) k l ++ new).
    { apply list_eq. intros i. destruct (decide (i = k)) as [->|Hne].
      - rewrite list_lookup_alter, !lookup_app_l by (rewrite ?length_alter; lia).
        now rewrite list_lookup_alter.
      - rewrite list_lookup_alter_ne by congruence.
        destruct (decide (i < length l)%nat).
        + rewrite !lookup_app_l by (rewrite ?length_alter; lia).
          now rewrite list_lookup_alter_ne by congruence.
        + rewrite !lookup_app_r by (rewrite ?length_alter; lia).
          now rewrite length_alter. }
    rewrite Ha. apply IH. rewrite length_alter. lia. }
  apply G. simpl. lia.
Qed.

Section CoordinateBlocks.

Context {lib : Json.Library}.

Variable toCartesian : UnitCell.t -> Vector3 -> Vector3.


(** X9. Empty and absent coordinate arrays (lines 147-171).  For an empty
    3d array the count check is skipped, and the loop, run for every atom,
    reads the default value 0 for each missing element: run with the atom
    count of the molecule, the 3d block gives every atom the position
    (0, 0, 0), the 2d block on an empty 2d array the position (0, 0), and the
    coordinates block of a coords member with both arrays empty gives every
    atom both.  An absent 3d or 2d member is read as null: its block leaves
    the molecule as it is when [isArray()] of the JSON library is false on
    null, and does as for the empty array when it is true on null. *)
Theorem empty_coordinate_arrays_set_origin coords s :
  (Json.member coords "3d" = Some (Json.arrayValue []) ->
   readCoords3d lib coords (length (atoms (molecule s))) s =
   Next tt (mkState (withAtoms (map (withPosition3d origin3) (atoms (molecule s))) (molecule s))
                    (errors s)))
  /\ (Json.member coords "2d" = Some (Json.arrayValue []) ->
      readCoords2d lib coords (length (atoms (molecule s))) s =
      Next tt (mkState (withAtoms (map (withPosition2d origin2) (atoms (molecule s)))
                                  (molecule s))
                       (errors s)))
  /\ (Json.member coords "3d" = Some (Json.arrayValue []) ->
      Json.member coords "2d" = Some (Json.arrayValue []) ->
      Json.isArrayValue (Json.at_ coords "3d fractional") = false ->
      forall atomsV,
        Json.member atomsV "coords" = Some coords ->
        readCoords lib toCartesian atomsV (length (atoms (molecule s))) s =
        Next tt (mkState (withAtoms (map (fun at0 => mkAtom (atomicNumber at0) (Some origin3)
                                                            (Some origin2))
                                         (atoms (molecule s))) (molecule s))
                         (errors s)))
  /\ (Json.member coords "3d" = Some Json.nullValue ->
      readCoords3d lib coords (length (atoms (molecule s))) s =
      if Json.nullIsArray lib
      then Next tt (mkState (withAtoms (map (withPosition3d origin3) (atoms (molecule s)))
                                       (molecule s))
                            (errors s))
      else Next tt s)
  /\ (Json.member coords "2d" = Some Json.nullValue ->
      readCoords2d lib coords (length (atoms (molecule s))) s =
      if Json.nullIsArray lib
      then Next tt (mkState (withAtoms (map (withPosition2d origin2) (atoms (molecule s)))
                                       (molecule s))
                            (errors s))
      else Next tt s).
Proof.
  split; [apply readCoords3d_empty|]. split; [apply readCoords2d_empty|].
  split; [|split; [apply readCoords3d_absent | apply readCoords2d_absent]].
  intros H3 H2 Hf atomsV Hc.
  assert (Ho : Json.isObjectValue coords = true)
    by (eapply member_isObject; [exact H3 | discriminate]).
  eapply eq_trans.
  - eapply readCoords_eval.
    + exact Hc.
    + eapply member_not_null; [exact H3 | discriminate].
    + now apply readCoords3d_empty.
    + pose proof (readCoords2d_empty (lib:=lib) coords
                    (mkState (withAtoms (map (withPosition3d origin3) (atoms (molecule s)))
                                        (molecule s)) (errors s)) H2) as H.
      cbn [molecule withAtoms atoms errors] in H. rewrite length_map in H. exact H.
    + eapply readCoordsFractional_none; [|exact Hf].
      apply member_at. now apply isObject_isContainer.
  - cbn [molecule withAtoms atoms bonds unitCell basisSet data errors].
    now rewrite map_map.
Qed.

(** X10. Fractional coordinates are read last (lines 146-194).  When the
    coords member holds both a 3d array and a 3d fractional array, each with
    one triple per atom, and the molecule has a unit cell, the coordinates
    block leaves every atom at the Cartesian image of its fractional triple:
    the positions read from the 3d array are overwritten. *)
Theorem fractional_overrides_cartesian atomsV coords ps fs cell s :
  Json.member atomsV "coords" = Some coords ->
  Json.member coords "3d" = Some (Json.arrayValue (flatten3 ps)) ->
  Json.isArray lib (Json.at_ coords "2d") = false ->
  Json.member coords "3d fractional" = Some (Json.arrayValue (flatten3 fs)) ->
  unitCell (molecule s) = Some cell ->
  length ps = length (atoms (molecule s)) ->
  length fs = length (atoms (molecule s)) ->
  readCoords lib toCartesian atomsV (length (atoms (molecule s))) s =
  Next tt (mkState (withAtoms (zip_with withPosition3d (map (toCartesian cell) fs)
                                        (atoms (molecule s))) (molecule s))
                   (errors s)).
Proof.
  intros Hc H3 H2 Hf Hcell Hp Hq.
  assert (Ho : Json.isObjectValue coords = true)
    by (eapply member_isObject; [exact H3 | discriminate]).
  eapply eq_trans.
  - eapply readCoords_eval.
    + exact Hc.
    + eapply member_not_null; [exact H3 | discriminate].
    + now apply readCoords3d_written_n with (ps := ps).
    + eapply readCoords2d_none; [|exact H2].
      apply member_at. now apply isObject_isContainer.
    + apply readCoordsFractional_written_n with (fs := fs) (cell := cell);
        [exact Hq | exact Hf | exact Hcell].
  - cbn [molecule withAtoms atoms bonds unitCell basisSet data errors].
    rewrite !alterFrom_zip
      by (rewrite ?alterFrom_length, ?length_zip_with, ?length_map; lia).
    now rewrite zip_with_withPosition3d_twice.
Qed.

(** X11. The coordinates go to the atoms at the indices 0 to N-1, N being
    the atom count of the document (lines 152-157: [molecule.atom(i)]).  In a
    molecule that held atoms [old] before the N atoms [new] of the document
    were appended, with at least N of them, the 3d block sets the positions of
    the first N atoms of [old] and leaves the appended atoms as they are. *)
Theorem coordinates_go_to_first_atoms coords ps old new s :
  atoms (molecule s) = old ++ new ->
  length ps = length new ->
  (length new <= length old)%nat ->
  Json.member coords "3d" = Some (Json.arrayValue (flatten3 ps)) ->
  readCoords3d lib coords (length new) s =
  Next tt (mkState (withAtoms (zip_with withPosition3d ps (take (length new) old)
                               ++ drop (length new) old ++ new) (molecule s))
                   (errors s)).
Proof.
  intros Ha Hp Hle Hm.
  rewrite (readCoords3d_written_n coords ps (length new) s Hp Hm).
  do 3 f_equal. rewrite Ha, alterFrom_prefix by lia.
  rewrite app_assoc. f_equal.
  rewrite <- (take_drop (length new) old) at 1.
  rewrite alterFrom_prefix by (rewrite length_take; lia).
  now rewrite alterFrom_zip by (rewrite length_take; lia).
Qed.

End CoordinateBlocks.


Lemma empty_coordinate_arrays_set_origin_witness :
  readCoords Json.strict Rectangular.toCartesian
    (Json.at_ docEmptyCoordinates "atoms") 2
    (mkState (mkMolecule [mkAtom 8 None None; mkAtom 1 None None] [] None None ∅) []) =
  Next tt (mkState (mkMolecule [mkAtom 8 (Some origin3) (Some origin2);
                                mkAtom 1 (Some origin3) (Some origin2)] [] None None ∅) []).
Proof.
  exact (proj1 (proj2 (proj2 (empty_coordinate_arrays_set_origin (lib:=Json.strict)
                                Rectangular.toCartesian
                                (Json.at_ (Json.at_ docEmptyCoordinates "atoms") "coords")
                                (mkState (mkMolecule [mkAtom 8 None None; mkAtom 1 None None]
                                                     [] None None ∅) []))))
           eq_refl eq_refl eq_refl (Json.at_ docEmptyCoordinates "atoms") eq_refl).
Defined.

Lemma fractional_overrides_cartesian_witness :
  readCoords Json.strict Rectangular.toCartesian (Json.objectValue [("coords", coordsBoth)]) 1
    (mkState (mkMolecule [mkAtom 11 None None] [] (Some rectangularCell) None ∅) [])
  = Next tt (mkState (mkMolecule [mkAtom 11 (Some (mkVector3 1 2 4)) None] []
                                 (Some rectangularCell) None ∅) []).
Proof.
  refine (eq_trans
            (fractional_overrides_cartesian (lib:=Json.strict) Rectangular.toCartesian
               (Json.objectValue [("coords", coordsBoth)]) coordsBoth
               [mkVector3 9 9 9] [mkVector3 0.5 0.5 0.5] rectangularCell
               (mkState (mkMolecule [mkAtom 11 None None] []
                                    (Some rectangularCell) None ∅) [])
               eq_refl eq_refl eq_refl eq_refl eq_refl eq_refl eq_refl) _).
  vm_compute. reflexivity.
Defined.

Lemma coordinates_go_to_first_atoms_witness :
  readCoords3d Json.strict (Json.objectValue [("3d", reals [1; 2; 3]%float)]) 1
    (mkState (mkMolecule [mkAtom 8 None None; mkAtom 1 None None] [] None None ∅) [])
  = Next tt (mkState (mkMolecule [mkAtom 8 (Some (mkVector3 1 2 3)) None; mkAtom 1 None None]
                                 [] None None ∅) []).
Proof.
  exact (coordinates_go_to_first_atoms (lib:=Json.strict) (Json.objectValue [("3d", reals [1; 2; 3]%float)])
           [mkVector3 1 2 3] [mkAtom 8 None None] [mkAtom 1 None None]
           (mkState (mkMolecule [mkAtom 8 None None; mkAtom 1 None None] [] None None ∅) [])
           eq_refl eq_refl (le_n 1) eq_refl).
Defined.

(** ** Bonds *)

Lemma forFrom_ext (body1 body2 : nat -> Stmt unit) n : forall k s,
  (forall i s1, (k <= i < k + n)%nat -> body1 i s1 = body2 i s1) ->
  forFrom k n body1 s = forFrom k n body2 s.
Proof.
  induction n as [|n IH]; intros k s H; simpl; [reflexivity|].
  unfold bind. rewrite (H k s) by lia.
  destruct (body2 k s) as [[] s1|status s1|s1]; try reflexivity.
  apply IH. intros i s2 Hi. apply H. lia.
Qed.

Lemma even_div2_snoc (n : nat) : Nat.Even n -> ((n + 1) / 2 = n / 2)%nat.
Proof.
  intros [k ->]. rewrite (Nat.mul_comm 2 k), Nat.div_add_l, Nat.div_mul by lia.
  simpl. lia.
Qed.

(** The order loop on an array of integers. *)
Lemma readOrders_array {lib} lo s :
  allInts lo ->
  readOrders lib (Json.arrayValue lo) (length lo) s =
  Next tt (mkState (withBondList
                      (alterFrom (fun v => withOrder (to_uchar v)) 0
                                 (map (fun v => default 0 (Json.asInt v)) lo)
                                 (bonds (molecule s))) (molecule s))
                   (errors s)).
Proof.
  intros Hl. unfold readOrders. cbn [Json.isArray Json.isArrayValue Json.size].
  rewrite Nat.eqb_refl. cbn [negb]. unfold for_.
  pose proof (forFrom_updates_eval
                (fun i => Json.asInt (Json.get (Json.arrayValue lo) i (Json.intValue 1)))
                (fun i v => setOrder i (to_uchar v))
                (fun i => do o <- call (Json.asInt (Json.get (Json.arrayValue lo) i
                                                      (Json.intValue 1)));
                          update (setOrder i (to_uchar o)))
                (map (fun v => default 0 (Json.asInt v)) lo) s
                (order_body (Json.arrayValue lo))) as Hloop.
  rewrite length_map in Hloop. rewrite Hloop.
  - now rewrite (applyFrom_setOrder to_uchar).
  - intros i v Hi. rewrite list_lookup_fmap in Hi. simpl.
    destruct (lo !! i) as [x|] eqn:E; [|discriminate]. simpl in *.
    injection Hi as <-.
    unfold allInts in Hl. rewrite Forall_lookup in Hl.
    destruct (Hl _ _ E) as [z Hz]. now rewrite Hz.
Qed.

Section BondBlocks.

Context {lib : Json.Library}.

Variable toCartesian : UnitCell.t -> Vector3 -> Vector3.

(** X12. Bonds without connections (lines 198-204).  When the decoder
    reaches the bonding data and the bonds member is an object that is not
    empty and whose connections member is absent or empty, [read] returns
    failure with the connections message; the atoms and coordinates read
    before stay in the molecule. *)
Theorem bonds_require_connections root s0 s1 bonds :
  readHead lib toCartesian root s0 = Next tt s1 ->
  Json.member root "bonds" = Some bonds ->
  Json.isObjectValue bonds = true ->
  Json.empty bonds = false ->
  Json.empty (Json.at_ bonds "connections") = true ->
  read lib toCartesian root s0 = Return false (logged msgNoConnections s1).
Proof.
  intros Hh Hb Ho He Hc. rewrite read_after_head.
  rewrite (bind_Next _ _ _ _ _ Hh). apply bind_Return.
  unfold readBonds.
  rewrite (bind_Next _ _ _ _ _ (call_Some _ _ s1 Hb)). rewrite He. cbn [negb].
  rewrite (bind_Next _ _ _ _ _
             (call_Some _ _ s1 (member_at _ "connections" (isObject_isContainer _ Ho)))).
  now rewrite Hc.
Qed.

(** X13. The bond orders (lines 220-229).  When the decoder reaches the
    bonding data of a document whose index array holds integers and defines M
    pairs, and whose order array holds M integers, with no bond in the
    molecule before, [read] returns success and has appended the M bonds, the
    bond of each pair carrying its element of the order array cast to
    [unsigned char], that is taken modulo 256. *)
Theorem bond_orders_applied root s0 s1 bonds conn l lo :
  readHead lib toCartesian root s0 = Next tt s1 ->
  Core.bonds (molecule s1) = [] ->
  Json.member root "bonds" = Some bonds ->
  Json.member bonds "connections" = Some conn ->
  Json.member conn "index" = Some (Json.arrayValue l) ->
  allInts l ->
  Json.member bonds "order" = Some (Json.arrayValue lo) ->
  allInts lo ->
  length lo = (length l / 2)%nat ->
  read lib toCartesian root s0 =
  Return true (withBonds (zip_with (fun v bd => withOrder (orderOf v) bd) lo (bondsOf l)) s1).
Proof.
  intros Hh Hnil Hb Hc Hi Hl Ho Hlo Hlen.
  assert (Hn : conn <> Json.nullValue) by (intros ->; discriminate).
  assert (He : Json.empty conn = false) by (eapply member_not_null; [exact Hi | discriminate]).
  rewrite (read_bonds _ _ _ _ _ _ _ Hh Hb Hc Hi Hn He). unfold bind at 1.
  rewrite (bonds_block _ _ _ _ _ _ (readConnections_array _ _ Hl) Ho).
  rewrite <- Hlen. rewrite (readOrders_array lo _ Hlo).
  unfold return_. f_equal. unfold withBonds, withBondList.
  cbn [molecule errors atoms Core.bonds unitCell basisSet data].
  rewrite Hnil. cbn [app].
  rewrite alterFrom_zip by (now rewrite length_map, bondsOf_length).
  do 3 f_equal.
  clear. generalize (bondsOf l). induction lo as [|v lo IH]; intros [|bd bds];
    simpl; try reflexivity.
  now rewrite IH.
Qed.

(** X14. A trailing index (lines 209-214).  The bond count is the length of
    the index array divided by 2 (integer division): an element that follows
    an even number of elements is never read, whatever it is, and the pair
    loop behaves as on the array without it. *)
Theorem connections_trailing_index_ignored l v s :
  Nat.Even (length l) ->
  readConnections lib (Json.arrayValue (l ++ [v])) s = readConnections lib (Json.arrayValue l) s.
Proof.
  intros Hev. unfold readConnections. cbn [Json.isArray Json.isArrayValue Json.size].
  rewrite length_app. cbn [length]. rewrite (even_div2_snoc _ Hev).
  unfold for_.
  assert (Hloop : forall st,
            forFrom 0 (length l / 2)
              (fun k =>
                 let i := (2 * k)%nat in
                 do i1 <- call (Json.asInt (Json.get (Json.arrayValue (l ++ [v])) (i + 0)
                                              (Json.intValue 0)));
                 do i2 <- call (Json.asInt (Json.get (Json.arrayValue (l ++ [v])) (i + 1)
                                              (Json.intValue 0)));
                 update (addBond (to_Index i1) (to_Index i2))) st =
            forFrom 0 (length l / 2)
              (fun k =>
                 let i := (2 * k)%nat in
                 do i1 <- call (Json.asInt (Json.get (Json.arrayValue l) (i + 0)
                                              (Json.intValue 0)));
                 do i2 <- call (Json.asInt (Json.get (Json.arrayValue l) (i + 1)
                                              (Json.intValue 0)));
                 update (addBond (to_Index i1) (to_Index i2))) st).
  { intros st. apply forFrom_ext. intros i s1 Hi. cbv zeta.
    assert (Hlt : (2 * i + 1 < length l)%nat).
    { destruct Hev as [k Hk]. rewrite Hk in *.
      rewrite (Nat.mul_comm 2 k), Nat.div_mul in Hi by lia. lia. }
    unfold Json.get.
    rewrite !lookup_app_l by lia. reflexivity. }
  unfold bind at 1. rewrite Hloop. reflexivity.
Qed.

End BondBlocks.

Lemma bonds_require_connections_witness :
  read Json.strict Rectangular.toCartesian docOrdersOnly freshState =
  Return false
    (mkState (mkMolecule [mkAtom 8 None None; mkAtom 1 None None] [] None None ∅)
             [msgNoConnections]).
Proof.
  exact (bonds_require_connections (lib:=Json.strict) Rectangular.toCartesian docOrdersOnly freshState
           (mkState (mkMolecule [mkAtom 8 None None; mkAtom 1 None None] [] None None ∅) [])
           (Json.objectValue [("order", ints [1])])
           eq_refl eq_refl eq_refl eq_refl eq_refl).
Defined.

Lemma bond_orders_applied_witness :
  read Json.strict Rectangular.toCartesian docBondOrders freshState =
  Return true
    (mkState (mkMolecule [mkAtom 6 None None; mkAtom 8 None None; mkAtom 8 None None]
                         [mkBond 0 1 2; mkBond 0 2 1] None None ∅) []).
Proof.
  refine (eq_trans
            (bond_orders_applied Rectangular.toCartesian docBondOrders freshState
               (mkState (mkMolecule [mkAtom 6 None None; mkAtom 8 None None; mkAtom 8 None None]
                                    [] None None ∅) [])
               _ _ (map Json.intValue [0; 1; 0; 2]) (map Json.intValue [2; 257])
               eq_refl eq_refl eq_refl eq_refl eq_refl _ eq_refl _ eq_refl) _).
  - repeat constructor; eexists; reflexivity.
  - repeat constructor; eexists; reflexivity.
  - reflexivity.
Defined.

Lemma connections_trailing_index_ignored_witness :
  readConnections Json.strict (Json.arrayValue [Json.intValue 0; Json.intValue 1; Json.stringValue "x"])
    freshState =
  readConnections Json.strict (ints [0; 1]) freshState.
Proof.
  apply (connections_trailing_index_ignored [Json.intValue 0; Json.intValue 1]
           (Json.stringValue "x") freshState).
  exists 1%nat. reflexivity.
Defined.

(** ** The members of the written document *)

Lemma hasKey_set2_ne v k1 k2 k' x :
  isContainer v = true -> k1 <> k' -> Json.hasKey (Json.set2 v k1 k2 x) k' = Json.hasKey v k'.
Proof. intros H Hne. unfold Json.set2. now apply hasKey_set_ne. Qed.

Lemma hasKey_set3_ne v k1 k2 k3 k' x :
  isContainer v = true -> k1 <> k' ->
  Json.hasKey (Json.set3 v k1 k2 k3 x) k' = Json.hasKey v k'.
Proof. intros H Hne. unfold Json.set3. now apply hasKey_set_ne. Qed.

Lemma hasKey_set3_eq v k1 k2 k3 x :
  isContainer v = true -> Json.hasKey (Json.set3 v k1 k2 k3 x) k1 = true.
Proof. intros H. unfold Json.set3. now apply hasKey_set_eq. Qed.

Lemma hasKey_set2_eq v k1 k2 x :
  isContainer v = true -> Json.hasKey (Json.set2 v k1 k2 x) k1 = true.
Proof. intros H. unfold Json.set2. now apply hasKey_set_eq. Qed.

Section Members.

Context {lib : Json.Library}.

Variable toFractional : UnitCell.t -> Vector3 -> Vector3.

Lemma writeMetadata_hasKey_other m root k :
  Json.isObjectValue root = true -> k <> "name" -> k <> "inchi" ->
  Json.hasKey (writeMetadata m root) k = Json.hasKey root k.
Proof.
  intros H H1 H2. unfold writeMetadata.
  repeat (destruct (isVString _)); rewrite ?hasKey_set_ne by side; reflexivity.
Qed.

Lemma writeUnitCell_hasKey_other m root k :
  Json.isObjectValue root = true -> k <> "unit cell" ->
  Json.hasKey (writeUnitCell m root) k = Json.hasKey root k.
Proof.
  intros H H1. unfold writeUnitCell. destruct (unitCell m); [|reflexivity].
  now rewrite hasKey_set_ne by side.
Qed.

Lemma writeBasisSet_hasKey_other m root k :
  Json.isObjectValue root = true -> k <> "basisSet" ->
  Json.hasKey (writeBasisSet m root) k = Json.hasKey root k.
Proof.
  intros H H1. unfold writeBasisSet.
  destruct (basisSet m) as [[scf|]|]; try reflexivity.
  now rewrite hasKey_set_ne by side.
Qed.

Lemma writeAtoms_hasKey_other m root k :
  Json.isObjectValue root = true -> k <> "atoms" ->
  Json.hasKey (writeAtoms toFractional m root) k = Json.hasKey root k.
Proof.
  intros H H1. unfold writeAtoms. cbv zeta.
  repeat match goal with
         | |- context [if ?c then _ else _] => destruct c
         | |- context [match unitCell m with _ => _ end] => destruct (unitCell m)
         end;
    rewrite ?hasKey_set3_ne by side; reflexivity.
Qed.

Lemma writeBonds_hasKey_other m root k :
  Json.isObjectValue root = true -> k <> "bonds" ->
  Json.hasKey (writeBonds m root) k = Json.hasKey root k.
Proof.
  intros H H1. unfold writeBonds. destruct (negb _); [|reflexivity].
  rewrite hasKey_set2_ne, hasKey_set3_ne by side. reflexivity.
Qed.

Ltac through_writers_hasKey :=
  rewrite ?write_root; unfold rootBeforeAtoms; fold markedRoot;
  repeat first
    [ rewrite writeBonds_hasKey_other by
        (first [ congruence
               | apply writeAtoms_isObject, writeBasisSet_isObject, writeUnitCell_isObject,
                   writeMetadata_isObject; reflexivity ])
    | rewrite writeAtoms_hasKey_other by
        (first [ congruence
               | apply writeBasisSet_isObject, writeUnitCell_isObject,
                   writeMetadata_isObject; reflexivity ])
    | rewrite writeBasisSet_hasKey_other by
        (first [ congruence
               | apply writeUnitCell_isObject, writeMetadata_isObject; reflexivity ])
    | rewrite writeUnitCell_hasKey_other by
        (first [ congruence | apply writeMetadata_isObject; reflexivity ])
    | rewrite writeMetadata_hasKey_other by (first [ congruence | reflexivity ]) ].

(** X15. The members of the written document (lines 235-350).  [write]
    returns true and its document is an object whose marker member is the
    integer 0.  The document has a name (inchi) member exactly when the
    metadata of the molecule holds a string under that key, a unit cell member
    exactly when the molecule has a unit cell, a basisSet member exactly when
    the basis set of the molecule is a Gaussian set, an atoms member exactly
    when the molecule has an atom, a bonds member exactly when it has a bond,
    and no member under any other key. *)
Theorem write_members m :
  let doc := fst (write toFractional m) in
  snd (write toFractional m) = true
  /\ Json.isObjectValue doc = true
  /\ Json.at_ doc "chemical json" = Json.intValue 0
  /\ Json.hasKey doc "name" = isVString (getData m "name")
  /\ Json.hasKey doc "inchi" = isVString (getData m "inchi")
  /\ Json.hasKey doc "unit cell" = bool_decide (is_Some (unitCell m))
  /\ Json.hasKey doc "basisSet" =
     match basisSet m with Some (GaussianSet _) => true | _ => false end
  /\ Json.hasKey doc "atoms" = negb (atomCount m =? 0)%nat
  /\ Json.hasKey doc "bonds" = negb (bondCount m =? 0)%nat
  /\ forall key, Json.hasKey doc key = true -> In key writtenKeys.
Proof.
  intros doc. unfold doc.
  split; [reflexivity|]. split; [apply write_isObject|].
  split; [apply write_marker|].
  split; [|split; [|split; [|split; [|split; [|split]]]]].
  - through_writers_hasKey. unfold writeMetadata.
    destruct (isVString (getData m "name")); destruct (isVString (getData m "inchi"));
      rewrite ?hasKey_set_ne by side; rewrite ?hasKey_set_eq by side; reflexivity.
  - through_writers_hasKey. unfold writeMetadata.
    destruct (isVString (getData m "name")); destruct (isVString (getData m "inchi"));
      rewrite ?hasKey_set_eq by side; rewrite ?hasKey_set_ne by side; reflexivity.
  - through_writers_hasKey. unfold writeUnitCell.
    destruct (unitCell m) as [cell|].
    + rewrite hasKey_set_eq by (apply isObject_isContainer, writeMetadata_isObject; reflexivity).
      symmetry. apply bool_decide_eq_true. eauto.
    + through_writers_hasKey. symmetry. apply bool_decide_eq_false. now intros [x Hx].
  - through_writers_hasKey. unfold writeBasisSet.
    destruct (basisSet m) as [[scf|]|].
    + apply hasKey_set_eq.
      apply isObject_isContainer, writeUnitCell_isObject, writeMetadata_isObject. reflexivity.
    + through_writers_hasKey. reflexivity.
    + through_writers_hasKey. reflexivity.
  - through_writers_hasKey.
    assert (Ho : isContainer (rootBeforeAtoms m) = true)
      by apply isObject_isContainer, rootBeforeAtoms_isObject.
    assert (Hk : Json.hasKey (rootBeforeAtoms m) "atoms" = false).
    { unfold rootBeforeAtoms. fold markedRoot. through_writers_hasKey. reflexivity. }
    fold markedRoot in Ho. unfold rootBeforeAtoms in Ho, Hk. fold markedRoot in Hk, Ho.
    unfold writeAtoms. destruct (negb (atomCount m =? 0)%nat); [|exact Hk]. cbv zeta.
    repeat match goal with
           | |- context [if ?c then _ else _] => destruct c
           | |- context [match unitCell m with _ => _ end] => destruct (unitCell m)
           end;
      apply hasKey_set3_eq; is_object.
  - rewrite write_root.
    assert (Ho : Json.isObjectValue (writeAtoms toFractional m (rootBeforeAtoms m)) = true)
      by apply writeAtoms_isObject, rootBeforeAtoms_isObject.
    assert (Hk : Json.hasKey (writeAtoms toFractional m (rootBeforeAtoms m)) "bonds" = false).
    { unfold rootBeforeAtoms. fold markedRoot. through_writers_hasKey. reflexivity. }
    unfold writeBonds. destruct (negb (bondCount m =? 0)%nat); [|exact Hk].
    cbv zeta. apply hasKey_set2_eq. is_object.
  - intros key Hkey. unfold writtenKeys.
    destruct (decide (key = "chemical json")) as [->|N1]; [simpl; tauto|].
    destruct (decide (key = "name")) as [->|N2]; [simpl; tauto|].
    destruct (decide (key = "inchi")) as [->|N3]; [simpl; tauto|].
    destruct (decide (key = "unit cell")) as [->|N4]; [simpl; tauto|].
    destruct (decide (key = "basisSet")) as [->|N5]; [simpl; tauto|].
    destruct (decide (key = "atoms")) as [->|N6]; [simpl; tauto|].
    destruct (decide (key = "bonds")) as [->|N7]; [simpl; tauto|].
    exfalso. revert Hkey. through_writers_hasKey.
    unfold markedRoot. rewrite hasKey_set_ne by (first [reflexivity | congruence]).
    discriminate.
Qed.

(** X16. The lengths of the written arrays (lines 285-345).  In the document
    written for a molecule with N atoms and B bonds, the number array has N
    elements, a 3d or 3d fractional array that is written has 3N elements, a
    2d array that is written has 2N, the index array has 2B and the order
    array B: these are the lengths that the count checks of [read] ask for. *)
Theorem written_arrays_fit m :
  let doc := fst (write toFractional m) in
  let atomsV := Json.at_ doc "atoms" in
  let coords := Json.at_ atomsV "coords" in
  let bondsV := Json.at_ doc "bonds" in
  (atoms m <> [] ->
   Json.size (Json.at_ (Json.at_ atomsV "elements") "number") = atomCount m)
  /\ (Json.hasKey coords "3d" = true ->
      Json.size (Json.at_ coords "3d") = (3 * atomCount m)%nat)
  /\ (Json.hasKey coords "3d fractional" = true ->
      Json.size (Json.at_ coords "3d fractional") = (3 * atomCount m)%nat)
  /\ (Json.hasKey coords "2d" = true ->
      Json.size (Json.at_ coords "2d") = (2 * atomCount m)%nat)
  /\ (bonds m <> [] ->
      Json.size (Json.at_ (Json.at_ bondsV "connections") "index") = (2 * bondCount m)%nat
      /\ Json.size (Json.at_ bondsV "order") = bondCount m).
Proof.
  intros doc atomsV coords bondsV.
  unfold coords, atomsV, bondsV, doc. rewrite write_atoms, write_bonds.
  unfold atomsValue, fractionalCoordinates. cbv zeta.
  split; [|split; [|split; [|split]]].
  - intros Hne.
    assert (Hn0 : (atomCount m =? 0)%nat = false).
    { apply Nat.eqb_neq. unfold atomCount. now destruct (atoms m). }
    rewrite Hn0. cbn [negb].
    destruct (length (atomPositions3d m) =? atomCount m)%nat;
      destruct (unitCell m);
      destruct (length (atomPositions2d m) =? atomCount m)%nat;
      simpl; now rewrite length_map.
  - destruct (negb _); [|discriminate].
    destruct (Nat.eqb_spec (length (atomPositions3d m)) (atomCount m)) as [E3|_];
      destruct (unitCell m);
      destruct (length (atomPositions2d m) =? atomCount m)%nat;
      intros H; try (vm_compute in H; discriminate H);
      simpl; now rewrite flatten3_length, E3.
  - destruct (negb _); [|discriminate].
    destruct (Nat.eqb_spec (length (atomPositions3d m)) (atomCount m)) as [E3|_];
      destruct (unitCell m);
      destruct (length (atomPositions2d m) =? atomCount m)%nat;
      intros H; try (vm_compute in H; discriminate H);
      simpl; now rewrite flatten3_length, length_map, E3.
  - destruct (negb _); [|discriminate].
    destruct (length (atomPositions3d m) =? atomCount m)%nat;
      destruct (unitCell m);
      destruct (Nat.eqb_spec (length (atomPositions2d m)) (atomCount m)) as [E2|_];
      intros H; try (vm_compute in H; discriminate H);
      simpl; now rewrite flatten2_length, E2.
  - intros Hne.
    assert (Hn0 : (bondCount m =? 0)%nat = false).
    { apply Nat.eqb_neq. unfold bondCount. now destruct (bonds m). }
    rewrite Hn0. cbn [negb]. unfold bondsValue. split.
    + change (Json.size (endsValue (bonds m)) = (2 * bondCount m)%nat).
      apply endsValue_length.
    + simpl. now rewrite length_map.
Qed.

(** X17. Positions that only some atoms have (lines 292, 321).  When an atom
    of the molecule has no 3D position, the written document has neither a 3d
    nor a 3d fractional member, so that the 3D positions of the other atoms
    are not written; when an atom has no 2D position, the document has no 2d
    member. *)
Theorem write_drops_partial_positions m at0 :
  In at0 (atoms m) ->
  let coords := writtenCoords toFractional m in
  (position3d at0 = None ->
   Json.hasKey coords "3d" = false /\ Json.hasKey coords "3d fractional" = false)
  /\ (position2d at0 = None -> Json.hasKey coords "2d" = false).
Proof.
  intros Hin coords. unfold coords, writtenCoords. rewrite write_atoms.
  unfold atomsValue. cbv zeta.
  assert (Hno : forall {B} (f : Atom -> option B),
            f at0 = None -> (length (omap f (atoms m)) =? atomCount m)%nat = false).
  { intros B f Hf. apply Nat.eqb_neq. intros E. apply length_omap_all in E.
    rewrite Forall_forall in E. destruct (E at0 (proj2 (list_elem_of_In _ _) Hin)) as [x Hx]. congruence. }
  destruct (negb _); [|now split].
  split.
  - intros H3. unfold atomPositions3d. rewrite (Hno _ position3d H3).
    destruct (length (atomPositions2d m) =? atomCount m)%nat; split; reflexivity.
  - intros H2. unfold atomPositions2d. rewrite (Hno _ position2d H2).
    destruct (length (atomPositions3d m) =? atomCount m)%nat;
      [destruct (unitCell m)|]; reflexivity.
Qed.

Lemma c_str_app s1 s2 :
  c_str s1 = s1 -> c_str (s1 +:+ String nul s2) = s1.
Proof.
  induction s1 as [|ch s1 IH]; simpl; [reflexivity|].
  destruct (Ascii.eqb ch (Ascii.ascii_of_nat 0)); [discriminate|].
  intros [= H]. f_equal. now apply IH.
Qed.

(** X18. Text with a NUL character (lines 242-245: [toString().c_str()]).
    A name or an inchi that holds a NUL character is written up to that
    character: what follows the first NUL is lost. *)
Theorem write_cuts_text_at_nul m key s1 s2 :
  key = "name" \/ key = "inchi" ->
  getData m key = VString (s1 +:+ String nul s2) ->
  c_str s1 = s1 ->
  Json.at_ (fst (write toFractional m)) key = Json.stringValue s1.
Proof.
  intros [-> | ->] Hd Hs.
  - rewrite write_name. unfold metadataValue. rewrite Hd. simpl isVString. cbv iota.
    simpl toString. now rewrite c_str_app.
  - rewrite write_inchi. unfold metadataValue. rewrite Hd. simpl isVString. cbv iota.
    simpl toString. now rewrite c_str_app.
Qed.

End Members.

Lemma write_drops_partial_positions_witness :
  (Json.hasKey (writtenCoords Rectangular.toFractional moleculePartial) "3d" = false
   /\ Json.hasKey (writtenCoords Rectangular.toFractional moleculePartial) "3d fractional"
      = false)
  /\ Json.hasKey (writtenCoords Rectangular.toFractional moleculePartial) "2d" = false.
Proof.
  split.
  - apply (proj1 (write_drops_partial_positions Rectangular.toFractional moleculePartial
                    (mkAtom 1 None (Some (mkVector2 1 0)))
                    (or_intror (or_introl eq_refl)))).
    reflexivity.
  - reflexivity.
Defined.

Lemma write_cuts_text_at_nul_witness :
  Json.at_ (fst (write Rectangular.toFractional
                   (setData "name" (VString ("wat" +:+ String nul "er")) emptyMolecule)))
           "name"
  = Json.stringValue "wat".
Proof.
  exact (write_cuts_text_at_nul Rectangular.toFractional
           (setData "name" (VString ("wat" +:+ String nul "er")) emptyMolecule)
           "name" "wat" "er" (or_introl eq_refl) eq_refl eq_refl).
Defined.

(** ** Reading what was written for any molecule *)

Lemma member_set_ne v k k' x :
  Json.isObjectValue v = true -> k <> k' ->
  Json.member (Json.set v k x) k' = Json.member v k'.
Proof.
  intros Ho Hne. destruct v as [| | | | | | |ms]; try discriminate. simpl.
  now rewrite find_replace_ne.
Qed.

Section WriteThenRead.

Context {lib : Json.Library} {Stream : Type}.

Variable parse : Stream -> Json.Value + string.
Variable print : Json.Value -> Stream.
Variable toCartesian : UnitCell.t -> Vector3 -> Vector3.
Variable toFractional : UnitCell.t -> Vector3 -> Vector3.

(** X19. Unknown members.  [read] looks up six members of the document:
    the marker, name, inchi, unit cell, atoms and bonds.  Setting a member
    under any other key of a document that is an object (the basisSet member
    that [write] emits, say) changes nothing to what [read] returns and does. *)
Theorem read_ignores_other_members root key x s :
  Json.isObjectValue root = true ->
  ~ In key readKeys ->
  read lib toCartesian (Json.set root key x) s = read lib toCartesian root s.
Proof.
  intros Ho Hk.
  assert (Hm : forall k, In k readKeys ->
                 Json.member (Json.set root key x) k = Json.member root k).
  { intros k Hin. apply member_set_ne; [exact Ho|]. intros E. apply Hk. now rewrite E. }
  unfold read, readRoot, readMetadata, readUnitCell, readAtoms, readBonds.
  assert (Hs : Json.isObjectValue (Json.set root key x) = true)
    by now rewrite (set_isObject _ _ _ (isObject_isContainer _ Ho)).
  rewrite (isObject_object lib _ Hs), (isObject_object lib _ Ho).
  rewrite !Hm by (unfold readKeys; simpl; auto 10).
  reflexivity.
Qed.


(** X21. What [write] makes of a molecule without atoms is rejected by
    [read]: the document has no atoms member (line 285), and [read] returns
    failure with the message about the atom key, having added no atom and no
    bond. *)
Theorem written_without_atoms_rejected m s :
  atoms m = [] ->
  exists s3,
    read lib toCartesian (fst (write toFractional m)) s = Return false (logged msgNoAtoms s3)
    /\ atoms (molecule s3) = atoms (molecule s)
    /\ bonds (molecule s3) = bonds (molecule s).
Proof.
  intros Ha.
  set (root := fst (write toFractional m)).
  assert (Ho : Json.isObjectValue root = true) by apply write_isObject.
  pose proof (readRoot_marked (lib:=lib) root s Ho (write_marker toFractional m)) as H1.
  pose proof (readMetadata_object root s Ho) as H2.
  set (s2 := mkState (storeText root "inchi" (storeText root "name" (molecule s))) (errors s))
    in H2.
  assert (H3 : exists s3, readUnitCell root s2 = Next tt s3).
  { pose proof (write_cell toFractional m) as Hw. fold root in Hw.
    destruct (unitCell m) as [cell|].
    - eexists. exact (readUnitCell_written root cell s2 Ho Hw).
    - exists s2. apply readUnitCell_skip; [exact Ho | now rewrite Hw]. }
  destruct H3 as [s3 H3]. exists s3.
  assert (Hat : Json.empty (Json.at_ root "atoms") = true).
  { unfold root. rewrite write_atoms. unfold atomsValue, atomCount. now rewrite Ha. }
  split.
  - unfold read.
    rewrite (bind_Next _ _ _ _ _ H1), (bind_Next _ _ _ _ _ H2), (bind_Next _ _ _ _ _ H3).
    apply bind_Return. now apply (proj1 (readAtoms_defect (lib:=lib) root s3 Ho)).
  - destruct (readUnitCell_Next _ _ _ _ H3) as (_ & Ua & Ub & _).
    destruct (readMetadata_Next _ _ _ _ H2) as (_ & Ma & Mb & _).
    split; congruence.
Qed.

(** X22. The molecule that a successful decoding makes of a fresh one.  It
    has at least one atom; its atomic numbers and bond orders are bytes and its
    bond ends are not negative; either every atom has a 3D position or none
    has, and likewise for the 2D positions; it has no basis set; and its
    metadata holds strings under name and inchi and nothing else. *)
Theorem read_fresh_shape root s :
  read lib toCartesian root freshState = Return true s ->
  let m := molecule s in
  atoms m <> []
  /\ Forall (fun z => 0 <= z < 256) (map atomicNumber (atoms m))
  /\ (Forall is_Some (map position3d (atoms m))
      \/ Forall (fun o => o = None) (map position3d (atoms m)))
  /\ (Forall is_Some (map position2d (atoms m))
      \/ Forall (fun o => o = None) (map position2d (atoms m)))
  /\ Forall (fun bd => 0 <= atom1 bd /\ 0 <= atom2 bd /\ 0 <= order bd < 256) (bonds m)
  /\ basisSet m = None
  /\ forall key v, data m !! key = Some v ->
       (key = "name" \/ key = "inchi") /\ isVString v = true.
Proof.
  intros H m.
  destruct (read_success _ _ _ _ H)
    as (s1 & s2 & s3 & r & s4 & s5 & H1 & H2 & H3 & H4 & H5 & H6).
  destruct (readRoot_Next _ _ _ _ H1) as (_ & _ & ->).
  destruct (readMetadata_Next _ _ _ _ H2) as (_ & Ma & Mb & _ & Mbs & Md).
  destruct (readUnitCell_Next _ _ _ _ H3) as (_ & Ua & Ub & Ubs & Ud).
  assert (Hpre : beforeAtoms (molecule s3)).
  { unfold beforeAtoms. rewrite Ua, Ub, Ubs, Ud, Ma, Mb, Mbs.
    repeat apply conj; try reflexivity. apply Md. apply nameAndInchi_empty. }
  destruct (readAtoms_shape _ _ _ _ Hpre H4) as (Hmid & Hn & _).
  destruct (readCoords_shape _ _ _ _ _ _ Hmid H5) as (Hmid' & _).
  destruct (readBonds_shape _ _ _ _ _ Hmid' Hn H6) as [Hdec _].
  exact Hdec.
Qed.

End WriteThenRead.

Lemma read_ignores_other_members_witness :
  read Json.strict Rectangular.toCartesian docWithVendorData freshState =
  read Json.strict Rectangular.toCartesian docCrystal freshState.
Proof.
  apply (read_ignores_other_members (lib:=Json.strict) Rectangular.toCartesian docCrystal "vendor").
  - reflexivity.
  - unfold readKeys. simpl. intros H.
    repeat match goal with H : _ \/ _ |- _ => destruct H as [H|H]; [discriminate H|] end.
    exact H.
Defined.


Lemma written_without_atoms_rejected_witness :
  exists s3,
    read Json.strict Rectangular.toCartesian (fst (write Rectangular.toFractional moleculeNoAtoms))
      freshState = Return false (logged msgNoAtoms s3)
    /\ atoms (molecule s3) = atoms (molecule freshState)
    /\ bonds (molecule s3) = bonds (molecule freshState).
Proof.
  exact (written_without_atoms_rejected (lib:=Json.strict) Rectangular.toCartesian Rectangular.toFractional
           moleculeNoAtoms freshState eq_refl).
Defined.

Lemma read_fresh_shape_witness :
  atoms (molecule crystalState) <> [] /\ basisSet (molecule crystalState) = None.
Proof.
  pose proof (read_fresh_shape (lib:=Json.strict) Rectangular.toCartesian docCrystal crystalState
                ltac:(vm_compute; reflexivity)) as H.
  split; [exact (proj1 H) | exact (proj1 (proj2 (proj2 (proj2 (proj2 (proj2 H))))))].
Defined.

(** ** Writing what was read back *)

Lemma c_str_idempotent s : c_str (c_str s) = c_str s.
Proof.
  induction s as [|ch s IH]; simpl; [reflexivity|].
  destruct (Ascii.eqb ch (Ascii.ascii_of_nat 0)) eqn:E; simpl; [reflexivity|].
  now rewrite E, IH.
Qed.

Lemma restored_text m key :
  key = "name" \/ key = "inchi" ->
  default VNull (restore m "inchi" (restore m "name" ∅) !! key) =
  if isVString (getData m key) then VString (c_str (toString (getData m key))) else VNull.
Proof.
  unfold restore. intros [-> | ->];
    destruct (isVString (getData m "name")); destruct (isVString (getData m "inchi"));
    rewrite ?lookup_insert_eq, ?lookup_insert_ne, ?lookup_empty by congruence;
    rewrite ?lookup_insert_eq, ?lookup_insert_ne, ?lookup_empty by congruence;
    reflexivity.
Qed.

Lemma omap_none {A B} (l : list A) : omap (fun _ : A => @None B) l = [].
Proof. induction l as [|x l IH]; [reflexivity | exact IH]. Qed.

Lemma omap_map {A B C} (f : A -> B) (g : B -> option C) l :
  omap g (map f l) = omap (fun x => g (f x)) l.
Proof.
  induction l as [|x l IH]; [reflexivity|].
  change (omap g (map f (x :: l)))
    with (match g (f x) with Some y => y :: omap g (map f l) | None => omap g (map f l) end).
  change (omap (fun x => g (f x)) (x :: l))
    with (match g (f x) with
          | Some y => y :: omap (fun x => g (f x)) l
          | None => omap (fun x => g (f x)) l
          end).
  now rewrite IH.
Qed.

Section WriteAgain.

Context {lib : Json.Library} {Stream : Type}.

Variable parse : Stream -> Json.Value + string.
Variable print : Json.Value -> Stream.
Variable toCartesian : UnitCell.t -> Vector3 -> Vector3.
Variable toFractional : UnitCell.t -> Vector3 -> Vector3.

Lemma getData_again m key :
  key = "name" \/ key = "inchi" ->
  getData (writtenThenRead lib toCartesian toFractional m) key =
  if isVString (getData m key) then VString (c_str (toString (getData m key))) else VNull.
Proof. intros Hk. unfold getData at 1. cbn [writtenThenRead data]. now apply restored_text. Qed.

Lemma writeMetadata_again m root :
  writeMetadata (writtenThenRead lib toCartesian toFractional m) root = writeMetadata m root.
Proof.
  unfold writeMetadata. rewrite !getData_again by tauto.
  destruct (isVString (getData m "name")); destruct (isVString (getData m "inchi"));
    cbn [isVString toString]; now rewrite ?c_str_idempotent.
Qed.

(** Where the positions come together or the library skips an absent array,
    no position is made up for the array that was not written. *)
Lemma nothing_made_up m (t3 t2 : bool) :
  (Json.nullIsArray lib = true -> positionsTogether m) ->
  t3 = (length (atomPositions3d m) =? atomCount m)%nat ->
  t2 = (length (atomPositions2d m) =? atomCount m)%nat ->
  (t3 = false -> Json.nullIsArray lib && t2 = false)
  /\ (t2 = false -> Json.nullIsArray lib && t3 = false).
Proof.
  intros Htog -> ->. unfold positionsTogether in Htog.
  destruct (Json.nullIsArray lib); [|now split].
  rewrite (Htog eq_refl). split; intros ->; reflexivity.
Qed.

Lemma positions3d_again m :
  atoms m <> [] -> unitCell m = None ->
  (Json.nullIsArray lib = true -> positionsTogether m) ->
  (length (atomPositions3d (writtenThenRead lib toCartesian toFractional m))
   =? atomCount (writtenThenRead lib toCartesian toFractional m))%nat
  = (length (atomPositions3d m) =? atomCount m)%nat
  /\ ((length (atomPositions3d m) =? atomCount m)%nat = true ->
      atomPositions3d (writtenThenRead lib toCartesian toFractional m) = atomPositions3d m).
Proof.
  intros Hne Hc Htog.
  destruct (nothing_made_up m _ _ Htog eq_refl eq_refl) as [M3 _].
  unfold atomPositions3d, atomCount in *. cbn [writtenThenRead atoms].
  rewrite length_map, omap_map. cbn [position3d].
  unfold keptPosition3d, atomPositions3d, atomCount. rewrite Hc.
  destruct (length (omap position3d (atoms m)) =? length (atoms m))%nat eqn:T.
  - cbv beta iota. split; [exact T | intros _; reflexivity].
  - rewrite (M3 eq_refl). rewrite omap_none. split; [|discriminate].
    simpl. now destruct (atoms m).
Qed.

Lemma positions2d_again m :
  atoms m <> [] ->
  (Json.nullIsArray lib = true -> positionsTogether m) ->
  (length (atomPositions2d (writtenThenRead lib toCartesian toFractional m))
   =? atomCount (writtenThenRead lib toCartesian toFractional m))%nat
  = (length (atomPositions2d m) =? atomCount m)%nat
  /\ ((length (atomPositions2d m) =? atomCount m)%nat = true ->
      atomPositions2d (writtenThenRead lib toCartesian toFractional m) = atomPositions2d m).
Proof.
  intros Hne Htog.
  destruct (nothing_made_up m _ _ Htog eq_refl eq_refl) as [_ M2].
  unfold atomPositions2d, atomCount in *. cbn [writtenThenRead atoms].
  rewrite length_map, omap_map. cbn [position2d].
  unfold keptPosition2d, atomPositions2d, atomCount.
  destruct (length (omap position2d (atoms m)) =? length (atoms m))%nat eqn:T.
  - cbv beta iota. split; [exact T | intros _; reflexivity].
  - rewrite (M2 eq_refl). rewrite omap_none.
    split; [|discriminate]. simpl. now destruct (atoms m).
Qed.

Lemma writeAtoms_again m root :
  atoms m <> [] -> unitCell m = None ->
  (Json.nullIsArray lib = true -> positionsTogether m) ->
  writeAtoms toFractional (writtenThenRead lib toCartesian toFractional m) root =
  writeAtoms toFractional m root.
Proof.
  intros Hne Hc Htog. unfold writeAtoms.
  destruct (positions3d_again m Hne Hc Htog) as [T3 P3].
  destruct (positions2d_again m Hne Htog) as [T2 P2].
  rewrite T3, T2.
  assert (Hn : atomCount (writtenThenRead lib toCartesian toFractional m) = atomCount m).
  { unfold atomCount. cbn [writtenThenRead atoms]. apply length_map. }
  assert (Hz : map (fun at0 => Json.intValue (atomicNumber at0))
                   (atoms (writtenThenRead lib toCartesian toFractional m)) =
               map (fun at0 => Json.intValue (atomicNumber at0)) (atoms m)).
  { cbn [writtenThenRead atoms]. now rewrite map_map. }
  assert (Hu : unitCell (writtenThenRead lib toCartesian toFractional m) = None).
  { cbn [writtenThenRead unitCell]. now rewrite Hc. }
  rewrite Hn, Hz, Hu, Hc. cbv zeta.
  destruct (negb (atomCount m =? 0)%nat); [|reflexivity].
  destruct (length (atomPositions3d m) =? atomCount m)%nat;
    destruct (length (atomPositions2d m) =? atomCount m)%nat;
    rewrite ?P3, ?P2 by reflexivity; reflexivity.
Qed.

(** What is written for the molecule that reading the document of [m] gives. *)
Lemma write_writtenThenRead m :
  atoms m <> [] ->
  unitCell m = None ->
  (forall scf, basisSet m <> Some (GaussianSet scf)) ->
  (Json.nullIsArray lib = true -> positionsTogether m) ->
  write toFractional (writtenThenRead lib toCartesian toFractional m) = write toFractional m.
Proof.
  intros Hne Hc Hb Htog. unfold write. cbv zeta. f_equal.
  assert (Hbs : forall root,
            writeBasisSet (writtenThenRead lib toCartesian toFractional m) root =
            writeBasisSet m root).
  { intros root. unfold writeBasisSet. cbn [writtenThenRead basisSet].
    destruct (basisSet m) as [[scf|]|]; try reflexivity. now destruct (Hb scf). }
  assert (Huc : forall root,
            writeUnitCell (writtenThenRead lib toCartesian toFractional m) root =
            writeUnitCell m root).
  { intros root. unfold writeUnitCell. cbn [writtenThenRead unitCell]. now rewrite Hc. }
  assert (Hbd : forall root,
            writeBonds (writtenThenRead lib toCartesian toFractional m) root =
            writeBonds m root).
  { intros root. reflexivity. }
  now rewrite Hbd, writeAtoms_again, Hbs, Huc, writeMetadata_again.
Qed.


End WriteAgain.


(** ** The message of a failure *)

(** A statement that returns failure only with a message of [Q] as the last
    entry of the log. *)
Definition says {A} (Q : string -> Prop) (m : Stmt A) : Prop :=
  forall s s', m s = Return false s' -> exists msg, Q msg /\ last (errors s') = Some msg.

Lemma says_next {A} Q (x : A) : says Q (next x).
Proof. intros s s' H. discriminate. Qed.

Lemma says_true {A} Q : says Q (@return_ A true).
Proof. intros s s' H. discriminate. Qed.

Lemma says_call {A} Q (o : option A) : says Q (call o).
Proof. intros s s' H. destruct o; discriminate. Qed.

Lemma says_update Q f : says Q (update f).
Proof. intros s s' H. discriminate. Qed.

Lemma says_appendError Q msg : says Q (appendError msg).
Proof. intros s s' H. discriminate. Qed.

Lemma says_fail {A} (Q : string -> Prop) msg :
  Q msg -> says Q (run appendError msg; @return_ A false).
Proof.
  intros HQ s s' H. injection H as <-. exists msg. split; [exact HQ|].
  simpl. apply last_snoc.
Qed.

Lemma says_bind {A B} Q (m : Stmt A) (k : A -> Stmt B) :
  says Q m -> (forall x, says Q (k x)) -> says Q (bind m k).
Proof.
  intros Hm Hk s s' H. unfold bind in H.
  destruct (m s) as [x s1|status s1|s1] eqn:E; [| |discriminate].
  - exact (Hk x s1 s' H).
  - injection H as -> ->. exact (Hm s s' E).
Qed.

Lemma says_if {A} Q (c : bool) (m1 m2 : Stmt A) :
  says Q m1 -> says Q m2 -> says Q (if c then m1 else m2).
Proof. now destruct c. Qed.

Lemma says_forFrom Q body n :
  (forall i, says Q (body i)) -> forall i, says Q (forFrom i n body).
Proof.
  intros Hb. induction n as [|n IH]; intros i; simpl.
  - apply says_next.
  - apply says_bind; [apply Hb | intros _; apply IH].
Qed.

Ltac one_of_them :=
  unfold objectMessages; simpl; repeat (first [left; reflexivity | right]).

Ltac said :=
  repeat first
    [ apply says_next | apply says_true | apply says_call | apply says_update
    | apply says_fail; one_of_them
    | apply says_appendError
    | apply says_forFrom; intros
    | apply says_bind; [|intros]
    | apply says_if ].

Section Messages.

Context {lib : Json.Library} {Stream : Type}.

Variable parse : Stream -> Json.Value + string.
Variable toCartesian : UnitCell.t -> Vector3 -> Vector3.

Lemma readCoordsFractional_says coords n : says isObjectMessage (readCoordsFractional toCartesian coords n).
Proof.
  unfold readCoordsFractional.
  apply says_bind; [apply says_call|]. intros value.
  apply says_if; [|apply says_next].
  intros s. destruct (unitCell (molecule s));
    match goal with
    | |- forall s', ?m s = _ -> _ =>
        let Hx := fresh in assert (Hx : says isObjectMessage m) by (unfold isObjectMessage; said); apply Hx
    end.
Qed.

(** The blocks after the test that the document is an object. *)
Lemma afterObjectTest_says root :
  says isObjectMessage (run (do value <- call (Json.member root "chemical json");
               if Json.empty value then
                 run appendError ("Error: no " +:+ dq +:+ "chemical json" +:+ dq
                                  +:+ " key found.");
                 return_ false
               else next tt);
          run readMetadata root;
          run readUnitCell root;
          do r <- readAtoms lib root;
          run readCoords lib toCartesian (fst r) (snd r);
          run readBonds lib root;
          @return_ unit true).
Proof.
  apply says_bind; [unfold isObjectMessage; said|]. intros _.
  apply says_bind; [unfold readMetadata, isObjectMessage; said|]. intros _.
  apply says_bind; [unfold readUnitCell, isObjectMessage; said|]. intros _.
  apply says_bind; [unfold readAtoms, for_, isObjectMessage; said|]. intros r.
  apply says_bind.
  { unfold readCoords. apply says_bind; [apply says_call|]. intros coords.
    apply says_if; [|apply says_next].
    apply says_bind; [unfold readCoords3d, for_, isObjectMessage; said|]. intros _.
    apply says_bind; [unfold readCoords2d, for_, isObjectMessage; said|]. intros _.
    apply readCoordsFractional_says. }
  intros _. apply says_bind; [|intros _; apply says_true].
  unfold readBonds, readConnections, readOrders, for_, isObjectMessage. said.
Qed.

(** X24. The message of a failure.  When the parser of the JSON library
    rejects the stream (lines 57-63), the decoder returns failure with the
    message that starts with Error parsing JSON and ends with the messages of
    the parser, and the molecule is untouched.  When the stream is parsed to a
    document for which [isObject()] of the library is false (lines 65-68), it
    returns failure with the message about the JSON object, and the molecule
    is untouched.  And whenever the decoder returns failure, the last entry
    of the log is the message about the parsing when the stream was not
    parsed, and otherwise one of the fifteen error messages that [read] has
    for a parsed document (never the warning), which is the message about the
    JSON object exactly when [isObject()] is false of the document. *)
Theorem read_failure_message file s :
  (forall messages, parse file = inr messages ->
     readStream lib parse toCartesian file s =
     Return false (logged ("Error parsing JSON: " +:+ messages) s))
  /\ (forall root, parse file = inl root -> Json.isObject lib root = false ->
      readStream lib parse toCartesian file s = Return false (logged msgNotObject s))
  /\ forall s',
       readStream lib parse toCartesian file s = Return false s' ->
       exists msg,
         last (errors s') = Some msg
         /\ match parse file with
            | inr messages => msg = "Error parsing JSON: " +:+ messages
            | inl root =>
                In msg errorMessages
                /\ (msg = msgNotObject <-> Json.isObject lib root = false)
            end.
Proof.
  unfold readStream. split; [|split].
  { intros messages ->. reflexivity. }
  { intros root -> Ho. unfold read, readRoot. now rewrite Ho. }
  intros s' H. destruct (parse file) as [root|messages].
  2:{ injection H as <-. eexists. split; [apply last_snoc | reflexivity]. }
  destruct (Json.isObject lib root) eqn:Ho.
  - unfold read, readRoot in H. rewrite Ho in H. cbn [negb] in H.
    destruct (afterObjectTest_says root s s' H) as (msg & Hin & Hlast).
    exists msg. split; [exact Hlast|]. split; [now right|].
    split; [|discriminate]. intros ->.
    unfold isObjectMessage, objectMessages in Hin. simpl in Hin.
    repeat match goal with
           | H : _ \/ _ |- _ => destruct H as [H|H]; [vm_compute in H; discriminate H|]
           end.
    contradiction.
  - unfold read, readRoot in H. rewrite Ho in H. injection H as <-.
    exists msgNotObject. split; [apply last_snoc|]. split; [now left|]. tauto.
Qed.

End Messages.

Lemma read_failure_message_witness :
  decode Json.strict streamNotANumber freshState =
  Return false
    (logged "Error parsing JSON: Syntax error: value, object or array expected." freshState)
  /\ decode Json.strict docArray freshState = Return false (logged msgNotObject freshState).
Proof.
  split.
  - exact (proj1 (read_failure_message (lib:=Json.strict) Lossless.parse
                    Rectangular.toCartesian streamNotANumber freshState) _ eq_refl).
  - exact (proj1 (proj2 (read_failure_message (lib:=Json.strict) Lossless.parse
                           Rectangular.toCartesian docArray freshState)) _ eq_refl eq_refl).
Defined.

(** ** The basis set *)

Section BasisSet.

Context {lib : Json.Library}.

Variable toFractional : UnitCell.t -> Vector3 -> Vector3.


End BasisSet.

